(** * Smartroadsafety: hazard-aware routing and live navigation

    A shallow embedding of the three service files of the repository
    (HazardService.js, RoutingService.js, NavigationController.js) and of the
    speed estimator of the map component, followed by the properties the
    specification states about them.

    Layout: numbers, the Math library, geometry helpers, the hazard store,
    the routing engine, the navigation controller, the speed estimator; then
    the theorems. *)

From Stdlib Require Import ZArith QArith Qround Qabs List String Ascii Bool.
From Stdlib Require Import Lia Lqa Sorted Permutation.
From Stdlib Require Import DecimalString.
Import ListNotations.

Set Implicit Arguments.

(* ================================================================== *)
(** * JavaScript numbers *)
(* ================================================================== *)

(** A JavaScript number is an IEEE-754 double.  The model keeps the three
    special values and the way they propagate through arithmetic and
    comparisons (0/0 is NaN, x/0 is an infinity, every comparison with NaN
    is false), and takes arithmetic on finite values to be exact: a finite
    number is a rational.  Rounding, overflow and the sign of zero are not
    modelled. *)
Module JS.

Inductive num : Type :=
| NaN
| PosInf
| NegInf
| Fin (q : Q).

Definition Qltb (a b : Q) : bool := negb (Qle_bool b a).

Definition of_Z (z : Z) : num := Fin (inject_Z z).

Definition isNaN (x : num) : bool :=
  match x with NaN => true | _ => false end.

Definition isInfinite (x : num) : bool :=
  match x with PosInf | NegInf => true | _ => false end.

Definition neg (x : num) : num :=
  match x with
  | NaN => NaN
  | PosInf => NegInf
  | NegInf => PosInf
  | Fin q => Fin (- q)
  end.

Definition add (x y : num) : num :=
  match x, y with
  | NaN, _ | _, NaN => NaN
  | PosInf, NegInf | NegInf, PosInf => NaN
  | PosInf, _ | _, PosInf => PosInf
  | NegInf, _ | _, NegInf => NegInf
  | Fin a, Fin b => Fin (a + b)
  end.

Definition sub (x y : num) : num := add x (neg y).

(** The infinity with the sign of [q], NaN when [q] is zero. *)
Definition inf_signed (positive : bool) (q : Q) : num :=
  if Qeq_bool q 0 then NaN
  else if Bool.eqb positive (Qltb 0 q) then PosInf else NegInf.

Definition mul (x y : num) : num :=
  match x, y with
  | NaN, _ | _, NaN => NaN
  | PosInf, PosInf | NegInf, NegInf => PosInf
  | PosInf, NegInf | NegInf, PosInf => NegInf
  | PosInf, Fin q | Fin q, PosInf => inf_signed true q
  | NegInf, Fin q | Fin q, NegInf => inf_signed false q
  | Fin a, Fin b => Fin (a * b)
  end.

Definition div (x y : num) : num :=
  match x, y with
  | NaN, _ | _, NaN => NaN
  | (PosInf | NegInf), (PosInf | NegInf) => NaN
  | PosInf, Fin q => if Qltb q 0 then NegInf else PosInf
  | NegInf, Fin q => if Qltb q 0 then PosInf else NegInf
  | Fin _, (PosInf | NegInf) => Fin 0
  | Fin a, Fin b =>
      if Qeq_bool b 0 then inf_signed true a else Fin (a / b)
  end.

Definition ltb (x y : num) : bool :=
  match x, y with
  | NaN, _ | _, NaN => false
  | _, NegInf => false
  | NegInf, _ => true
  | PosInf, _ => false
  | Fin _, PosInf => true
  | Fin a, Fin b => Qltb a b
  end.

Definition leb (x y : num) : bool :=
  match x, y with
  | NaN, _ | _, NaN => false
  | NegInf, _ => true
  | _, PosInf => true
  | _, NegInf => false
  | PosInf, _ => false
  | Fin a, Fin b => Qle_bool a b
  end.

Definition gtb (x y : num) : bool := ltb y x.
Definition geb (x y : num) : bool := leb y x.

(** Strict equality [===] on numbers. *)
Definition eqb (x y : num) : bool :=
  match x, y with
  | PosInf, PosInf | NegInf, NegInf => true
  | Fin a, Fin b => Qeq_bool a b
  | _, _ => false
  end.

(** Truthiness of a number, as in [x || d] and [if (x)]. *)
Definition truthy (x : num) : bool :=
  match x with
  | NaN => false
  | Fin q => negb (Qeq_bool q 0)
  | _ => true
  end.

Definition or_else (x d : num) : num := if truthy x then x else d.

Definition max (x y : num) : num :=
  if isNaN x || isNaN y then NaN else if ltb x y then y else x.

Definition min (x y : num) : num :=
  if isNaN x || isNaN y then NaN else if ltb y x then y else x.

Definition floor (x : num) : num :=
  match x with Fin q => Fin (inject_Z (Qfloor q)) | _ => x end.

(** [Math.round]: the nearest integer, ties towards +Infinity. *)
Definition round (x : num) : num :=
  match x with Fin q => Fin (inject_Z (Qfloor (q + (1 # 2)))) | _ => x end.

Definition abs (x : num) : num :=
  match x with
  | NaN => NaN
  | PosInf | NegInf => PosInf
  | Fin q => Fin (Qabs q)
  end.

(** The remainder operator [%]; the result has the sign of the dividend. *)
Definition rem (x y : num) : num :=
  match x, y with
  | Fin a, Fin b =>
      if Qeq_bool b 0 then NaN
      else
        let t := a / b in
        let tr := if Qltb t 0 then (- Qfloor (- t))%Z else Qfloor t in
        Fin (a - inject_Z tr * b)
  | Fin a, (PosInf | NegInf) => Fin a
  | _, _ => NaN
  end.

(** Equality of values: the rationals under [Qeq], the special values under
    identity. *)
Definition equiv (x y : num) : Prop :=
  match x, y with
  | NaN, NaN | PosInf, PosInf | NegInf, NegInf => True
  | Fin a, Fin b => a == b
  | _, _ => False
  end.

(** Membership in the closed interval [[lo, hi]]; NaN is in no interval. *)
Definition between (lo hi x : num) : bool := leb lo x && leb x hi.

End JS.

Declare Scope num_scope.
Delimit Scope num_scope with num.
Bind Scope num_scope with JS.num.
Notation "x + y" := (JS.add x y) : num_scope.
Notation "x - y" := (JS.sub x y) : num_scope.
Notation "x * y" := (JS.mul x y) : num_scope.
Notation "x / y" := (JS.div x y) : num_scope.
Notation "x <? y" := (JS.ltb x y) : num_scope.
Notation "x <=? y" := (JS.leb x y) : num_scope.
Notation "x >? y" := (JS.gtb x y) : num_scope.
Notation "x >=? y" := (JS.geb x y) : num_scope.
Notation "x =~ y" := (JS.equiv x y) (at level 70, no associativity) : num_scope.
Coercion JS.of_Z : Z >-> JS.num.
Coercion JS.Fin : Q >-> JS.num.
Notation "'Infinity'" := JS.PosInf : num_scope.

(* ================================================================== *)
(** * The Math library *)
(* ================================================================== *)

(** ECMAScript leaves the results of [Math.sin], [Math.cos], [Math.sqrt] and
    [Math.atan2] to the implementation ("implementation-approximated"), so
    the embedding takes them as an interface, with the one law it needs.
    Every theorem below holds for every implementation; the examples run on
    [ApproxMath], a rational implementation given further down. *)
Class MathLib : Type := {
  Math_sin : JS.num -> JS.num;
  Math_cos : JS.num -> JS.num;
  Math_sqrt : JS.num -> JS.num;
  Math_atan2 : JS.num -> JS.num -> JS.num;
  (** [Math.atan2] is NaN or an angle: it is never an infinity. *)
  Math_atan2_finite : forall y x, JS.isInfinite (Math_atan2 y x) = false
}.

(** [Math.PI], the double nearest to pi: 884279719003555 / 2^48. *)
Definition Math_PI : JS.num := JS.Fin (884279719003555 # 281474976710656).

(* ================================================================== *)
(** * Geometry helpers (shared by the three services) *)
(* ================================================================== *)

Record LatLng : Type := mkLatLng { lat : JS.num; lng : JS.num }.

Section Geometry.
Context {M : MathLib}.
Local Open Scope Z_scope.
Local Open Scope num_scope.

(** [haversineDistance(a, b)], identical in HazardService.js,
    RoutingService.js and NavigationController.js. *)
Definition haversineDistance (a b : LatLng) : JS.num :=
  let R := 6371000 in
  let toRad := fun d => (d * Math_PI) / 180 in
  let dLat := toRad (lat b - lat a) in
  let dLon := toRad (lng b - lng a) in
  let lat1 := toRad (lat a) in
  let lat2 := toRad (lat b) in
  let s :=
    Math_sin (dLat / 2) * Math_sin (dLat / 2) +
    Math_cos lat1 * Math_cos lat2 * Math_sin (dLon / 2) * Math_sin (dLon / 2) in
  let c := 2 * Math_atan2 (Math_sqrt s) (Math_sqrt (1 - s)) in
  R * c.

(** [pointToLineDistance(point, lineStart, lineEnd)]. *)
Definition pointToLineDistance (point lineStart lineEnd : LatLng) : JS.num :=
  let A := lat point - lat lineStart in
  let B := lng point - lng lineStart in
  let C := lat lineEnd - lat lineStart in
  let D := lng lineEnd - lng lineStart in
  let dot := A * C + B * D in
  let lenSq := C * C + D * D in
  if JS.eqb lenSq 0 then haversineDistance point lineStart
  else
    let param := dot / lenSq in
    let param := JS.max 0 (JS.min 1 param) in
    let xx := lat lineStart + param * C in
    let yy := lng lineStart + param * D in
    haversineDistance point (mkLatLng xx yy).

(** The loop of [getMinDistanceToRoute]: the running minimum over the
    consecutive pairs of [routeCoords]. *)
Fixpoint minDistanceLoop (point : LatLng) (routeCoords : list LatLng)
         (minDistance : JS.num) : JS.num :=
  match routeCoords with
  | p :: ((q :: _) as rest) =>
      minDistanceLoop point rest
        (JS.min minDistance (pointToLineDistance point p q))
  | _ => minDistance
  end.

(** [getMinDistanceToRoute(point, routeCoords)], identical in
    HazardService.js and RoutingService.js. *)
Definition getMinDistanceToRoute (point : LatLng) (routeCoords : list LatLng)
  : JS.num :=
  minDistanceLoop point routeCoords Infinity.

(** One turn of the ray-casting loop of [pointInPolygon]: vertex [pi] with
    its predecessor [pj]. *)
Definition crossesRay (point pi pj : LatLng) : bool :=
  let x := lng point in
  let y := lat point in
  let xi := lng pi in let yi := lat pi in
  let xj := lng pj in let yj := lat pj in
  negb (Bool.eqb (yi >? y) (yj >? y)) &&
  (x <? (xj - xi) * (y - yi) / (yj - yi) + xi).

Fixpoint pointInPolygonLoop (point : LatLng) (prev : LatLng)
         (rest : list LatLng) (inside : bool) : bool :=
  match rest with
  | [] => inside
  | pi :: rest' =>
      pointInPolygonLoop point pi rest'
        (if crossesRay point pi prev then negb inside else inside)
  end.

(** [pointInPolygon(point, polygon)]: [j] starts at the last vertex and
    follows [i]. *)
Definition pointInPolygon (point : LatLng) (polygon : list LatLng) : bool :=
  match polygon with
  | [] => false
  | first :: _ => pointInPolygonLoop point (last polygon first) polygon false
  end.

End Geometry.

(* ================================================================== *)
(** * Arrays *)
(* ================================================================== *)

(** [Array.prototype.sort(compare)].  The standard fixes a stable sort and
    leaves the algorithm open; the model is the stable insertion sort, in
    which an element moves past another only when [compare] on the pair is
    positive (a NaN result counts as zero). *)
Fixpoint insertSorted {A : Type} (compare : A -> A -> JS.num) (x : A)
         (sorted : list A) : list A :=
  match sorted with
  | [] => [x]
  | y :: rest =>
      if JS.gtb (compare x y) 0%Z then y :: insertSorted compare x rest
      else x :: sorted
  end.

Definition sortBy {A : Type} (compare : A -> A -> JS.num) (l : list A)
  : list A :=
  fold_right (insertSorted compare) [] l.

(** The consecutive pairs [a[i]], [a[i + 1]] that the loops
    [for (i = 0; i < a.length - 1; i++)] visit. *)
Fixpoint segments {A : Type} (a : list A) : list (A * A) :=
  match a with
  | p :: ((q :: _) as rest) => (p, q) :: segments rest
  | _ => []
  end.

(** [clamp(n, min, max)] of HazardService.js and the map component. *)
Definition clamp (n min max : JS.num) : JS.num :=
  JS.max min (JS.min max n).

(* ================================================================== *)
(** * Routes *)
(* ================================================================== *)

(** A turn instruction: a step of the provider, or the single instruction of
    the fallback route. *)
Record Instruction : Type := mkInstruction {
  instruction : option string;
  i_distance : JS.num;
  i_duration : JS.num;
  i_type : option string
}.

Record Route : Type := mkRoute {
  r_id : string;
  coordinates : list LatLng;
  distance : JS.num;
  duration : JS.num;
  instructions : list Instruction;
  safetyScore : JS.num
}.

(* ================================================================== *)
(** * HazardService.js *)
(* ================================================================== *)

Module HazardService.
Local Open Scope string_scope.

(** GeoJSON geometry: [coordinates] is [[lng, lat]] for a Point and a list
    of rings of [[lng, lat]] pairs for a Polygon, of which the code reads
    ring 0 only. *)
Inductive Geometry : Type :=
| Point (coordinates : JS.num * JS.num)
| Polygon (ring0 : list (JS.num * JS.num))
| OtherGeometry (type : string).

Definition isPoint (g : Geometry) : bool :=
  match g with Point _ => true | _ => false end.

Definition isPolygon (g : Geometry) : bool :=
  match g with Polygon _ => true | _ => false end.

(** [updatedAt] is an ISO-8601 string in the source, always produced by
    [new Date().toISOString()] and read back by [new Date(...)]; the model
    holds the instant it denotes, in milliseconds since the epoch. *)
Record Properties : Type := mkProperties {
  severity : JS.num;
  description : string;
  updatedAt : Z
}.

Record Hazard : Type := mkHazard {
  id : string;
  type : string;
  geometry : Geometry;
  properties : Properties
}.

(** What a caller hands to [addHazard]: any of the fields may be missing. *)
Record DraftProperties : Type := mkDraftProperties {
  dp_severity : option JS.num;
  dp_description : option string
}.

Record HazardDraft : Type := mkDraft {
  d_id : option string;
  d_type : option string;
  d_geometry : option Geometry;
  d_properties : option DraftProperties
}.

Inductive HazardEvent : Type :=
| hazardAdded (h : Hazard)
| hazardRemoved (h : Hazard).

(** The service object: the hazard array, and the notifications handed to
    the listeners so far, oldest first. *)
Record Store : Type := mkStore {
  hazards : list Hazard;
  notified : list HazardEvent
}.

(** [MOCK_HAZARDS], stamped with the time [t0] at which the module loads. *)
Definition MOCK_HAZARDS (t0 : Z) : list Hazard :=
  let pt (i ty : string) (x y sev : Q) (d : string) :=
    mkHazard i ty (Point (JS.Fin x, JS.Fin y)) (mkProperties sev d t0) in
  let square (i : string) (w s e n sev : Q) (d : string) :=
    mkHazard i "riskArea"
      (Polygon [(JS.Fin w, JS.Fin s); (JS.Fin e, JS.Fin s); (JS.Fin e, JS.Fin n);
                (JS.Fin w, JS.Fin n); (JS.Fin w, JS.Fin s)])
      (mkProperties sev d t0) in
  [ pt "acc-1" "accident" 72.8777 19.0760 3 "Multi-vehicle collision";
    pt "acc-2" "accident" 72.8649 19.0436 2 "Minor fender bender";
    pt "const-1" "construction" 72.8795 19.0656 2 "Road widening work";
    pt "const-2" "construction" 72.8697 19.1176 1 "Metro construction";
    pt "pot-1" "pothole" 72.8443 19.0186 2 "Large pothole cluster";
    pt "pot-2" "pothole" 72.8670 19.0161 1 "Small potholes";
    pt "portal-1" "portal" 72.9053 19.1172 1 "Toll plaza";
    pt "portal-2" "portal" 72.8876 19.1041 1 "Police checkpoint";
    square "risk-1" 72.8600 19.0400 72.8700 19.0500 3
      "High accident zone - Sion Circle area";
    square "risk-2" 72.8750 19.0600 72.8850 19.0700 2
      "Congestion prone area - Kurla Junction";
    square "risk-3" 72.8650 19.1100 72.8750 19.1200 2
      "Construction zone - Andheri MIDC" ].

(** [HAZARD_CONFIG[type]?.priority || 0]. *)
Definition priority (ty : string) : JS.num :=
  if ty =? "accident" then 4%Z
  else if ty =? "construction" then 3%Z
  else if ty =? "pothole" then 2%Z
  else if ty =? "portal" then 1%Z
  else if ty =? "riskArea" then 5%Z
  else 0%Z.

Definition initial (t0 : Z) : Store := mkStore (MOCK_HAZARDS t0) [].

Definition getAllHazards (st : Store) : list Hazard := hazards st.

Definition notifyListeners (e : HazardEvent) (st : Store) : Store :=
  mkStore (hazards st) (notified st ++ [e]).

Definition toLatLng (c : JS.num * JS.num) : LatLng :=
  mkLatLng (snd c) (fst c).

Section WithMath.
Context {M : MathLib}.
Local Open Scope Z_scope.
Local Open Scope num_scope.

(** The callback of [this.hazards.some(...)] in [addHazard]. *)
Definition duplicateOf (newGeometry : Geometry) (newType : string)
           (existing : Hazard) : bool :=
  match geometry existing, newGeometry with
  | Point existingCoords, Point newCoords =>
      (haversineDistance (toLatLng existingCoords) (toLatLng newCoords) <? 100)
      && (type existing =? newType)%string
  | _, _ => false
  end.

(** [addHazard(hazard)].  [now] is the clock reading and [suffix] the
    random base-36 suffix of the generated id.  Returns the stored hazard,
    or [None] for the source's [null]. *)
Definition addHazard (now : Z) (suffix : string) (hazard : HazardDraft)
           (st : Store) : option Hazard * Store :=
  match d_type hazard, d_geometry hazard, d_properties hazard with
  | Some ty, Some g, Some props =>
      if (ty =? "")%string then (None, st)
      else
        let invalid :=
          match g with
          | Point (lng, lat) =>
              JS.isNaN lng || JS.isNaN lat || (lng <? -180) || (lng >? 180)
              || (lat <? -90) || (lat >? 90)
          | _ => false
          end in
        if invalid then (None, st)
        else if existsb (duplicateOf g ty) (hazards st) then (None, st)
        else
          let generated :=
            ty ++ "-" ++ NilZero.string_of_int (Z.to_int now) ++ "-" ++ suffix in
          let newHazard :=
            mkHazard
              (match d_id hazard with Some i => i | None => generated end)
              ty g
              (mkProperties
                 (clamp (match dp_severity props with
                         | Some s => JS.or_else s 1
                         | None => 1
                         end) 1 3)
                 (match dp_description props with
                  | Some d => if (d =? "")%string then "Reported " ++ ty else d
                  | None => "Reported " ++ ty
                  end)
                 now) in
          (Some newHazard,
           notifyListeners (hazardAdded newHazard)
             (mkStore (hazards st ++ [newHazard]) (notified st)))
  | _, _, _ => (None, st)
  end.

End WithMath.

(** [removeHazard(hazardId)]: the first hazard with that id. *)
Fixpoint removeFirst (hazardId : string) (l : list Hazard)
  : option (Hazard * list Hazard) :=
  match l with
  | [] => None
  | h :: rest =>
      if (id h =? hazardId)%string then Some (h, rest)
      else match removeFirst hazardId rest with
           | Some (removed, rest') => Some (removed, h :: rest')
           | None => None
           end
  end.

Definition removeHazard (hazardId : string) (st : Store)
  : option Hazard * Store :=
  match removeFirst hazardId (hazards st) with
  | Some (removed, rest) =>
      (Some removed,
       notifyListeners (hazardRemoved removed) (mkStore rest (notified st)))
  | None => (None, st)
  end.

(** The second timer of [startSimulation]: one run of the expiry sweep at
    clock reading [now].  The listeners are not told. *)
Definition expirySweep (now : Z) (st : Store) : Store :=
  let fiveMinutesAgo := (now - 5 * 60 * 1000)%Z in
  mkStore
    (filter (fun hazard =>
               (updatedAt (properties hazard) >? fiveMinutesAgo)%Z
               || String.prefix "risk-" (id hazard))
            (hazards st))
    (notified st).

(** A hazard annotated by [filterHazardsByRoute] ([{...hazard,
    distanceToRoute}]) and by [getUpcomingHazards] ([{...hazard,
    distanceFromUser}]). *)
Record RouteHazard : Type := mkRouteHazard {
  rh_hazard : Hazard;
  distanceToRoute : JS.num
}.

Record UpcomingHazard : Type := mkUpcoming {
  uh_hazard : RouteHazard;
  distanceFromUser : JS.num
}.

Record Bounds : Type := mkBounds {
  north : JS.num; south : JS.num; east : JS.num; west : JS.num
}.

Section Queries.
Context {M : MathLib}.
Local Open Scope Z_scope.
Local Open Scope num_scope.

(** [polygonIntersectsRouteBuffer(polygonGeometry, routeCoords,
    bufferMeters)]. *)
Definition polygonIntersectsRouteBuffer (ring0 : list (JS.num * JS.num))
           (routeCoords : list LatLng) (bufferMeters : JS.num) : bool :=
  let polygon := map toLatLng ring0 in
  existsb (fun coord => pointInPolygon coord polygon) routeCoords
  || existsb (fun vertex =>
                getMinDistanceToRoute vertex routeCoords <=? bufferMeters)
             polygon.

(** The body of the [forEach] of [filterHazardsByRoute]: what one hazard
    adds to [filteredHazards]. *)
Definition routeFilterStep (routeCoords : list LatLng) (bufferMeters : JS.num)
           (hazard : Hazard) : list RouteHazard :=
  match geometry hazard with
  | Point c =>
      let minDistance := getMinDistanceToRoute (toLatLng c) routeCoords in
      if minDistance <=? bufferMeters then [mkRouteHazard hazard minDistance]
      else []
  | Polygon ring0 =>
      if polygonIntersectsRouteBuffer ring0 routeCoords bufferMeters
      then [mkRouteHazard hazard 0]
      else []
  | OtherGeometry _ => []
  end.

Definition compareRouteHazards (a b : RouteHazard) : JS.num :=
  let priorityA := priority (type (rh_hazard a)) in
  let priorityB := priority (type (rh_hazard b)) in
  if negb (JS.eqb priorityA priorityB) then priorityB - priorityA
  else distanceToRoute a - distanceToRoute b.

(** [filterHazardsByRoute(route, bufferMeters)]; [None] is a missing
    route. *)
Definition filterHazardsByRoute (st : Store) (route : option Route)
           (bufferMeters : JS.num) : list RouteHazard :=
  match route with
  | None => []
  | Some r =>
      if (List.length (coordinates r) <? 2)%nat then []
      else
        sortBy compareRouteHazards
          (flat_map (routeFilterStep (coordinates r) bufferMeters)
                    (hazards st))
  end.

(** The body of the [forEach] of [getUpcomingHazards]. *)
Definition upcomingStep (currentPosition : LatLng) (lookAheadMeters : JS.num)
           (hazard : RouteHazard) : list UpcomingHazard :=
  match geometry (rh_hazard hazard) with
  | Point c =>
      let distanceFromUser := haversineDistance currentPosition (toLatLng c) in
      if distanceFromUser <=? lookAheadMeters
      then [mkUpcoming hazard distanceFromUser]
      else []
  | _ => []
  end.

(** [getUpcomingHazards(currentPosition, route, lookAheadMeters)]. *)
Definition getUpcomingHazards (st : Store) (currentPosition : LatLng)
           (route : option Route) (lookAheadMeters : JS.num)
  : list UpcomingHazard :=
  match route with
  | None => []
  | Some _ =>
      let routeHazards := filterHazardsByRoute st route 50 in
      sortBy (fun a b => distanceFromUser a - distanceFromUser b)
             (flat_map (upcomingStep currentPosition lookAheadMeters)
                       routeHazards)
  end.

(** [getHazardsWithinRadius(userPosition, radiusMeters)]. *)
Definition getHazardsWithinRadius (st : Store) (userPosition : LatLng)
           (radiusMeters : JS.num) : list Hazard :=
  filter (fun hazard =>
            match geometry hazard with
            | Point c =>
                haversineDistance userPosition (toLatLng c) <=? radiusMeters
            | Polygon ring0 =>
                existsb (fun c => haversineDistance userPosition (toLatLng c)
                                  <=? radiusMeters) ring0
            | OtherGeometry _ => false
            end)
         (hazards st).

End Queries.

(** [getHazardsInBounds(bounds)]. *)
Definition getHazardsInBounds (st : Store) (b : Bounds) : list Hazard :=
  let within (c : JS.num * JS.num) :=
    let (lng, lat) := c in
    JS.geb lat (south b) && JS.leb lat (north b)
    && JS.geb lng (west b) && JS.leb lng (east b) in
  filter (fun hazard =>
            match geometry hazard with
            | Point c => within c
            | Polygon ring0 => existsb within ring0
            | OtherGeometry _ => false
            end)
         (hazards st).

End HazardService.

(* ================================================================== *)
(** * RoutingService.js *)
(* ================================================================== *)

Module RoutingService.
Local Open Scope string_scope.

Import HazardService.

(** The routing provider's answer, as far as the service reads it:
    [data.features[k].geometry.coordinates] and
    [data.features[k].properties.segments[0]]. *)
Record Segment : Type := mkSegment {
  seg_distance : option JS.num;
  seg_duration : option JS.num;
  steps : option (list Instruction)
}.

Record Feature : Type := mkFeature {
  f_coordinates : list (JS.num * JS.num);
  segment0 : option Segment
}.

(** [ProviderError]: [fetch] rejects, the HTTP status is not ok, the body is
    not JSON, or the body makes [parseORSResponse] throw.  All of them end
    in the [catch] of [getRouteOptions]. *)
Inductive ProviderResponse : Type :=
| ProviderError
| ProviderData (features : option (list Feature)).

(** [this.cachedRoutes]: a Map from the key
    [`${start.lat},${start.lng}-${end.lat},${end.lng}`] to a route array.
    The key is held as the four numbers; two keys are the same string when
    the numbers print alike, which for NaN they do. *)
Definition CacheKey : Type := (JS.num * JS.num * JS.num * JS.num)%type.

Definition sameText (x y : JS.num) : bool :=
  match x, y with
  | JS.NaN, JS.NaN => true
  | _, _ => JS.eqb x y
  end.

Definition keyEqb (k1 k2 : CacheKey) : bool :=
  let '(a1, b1, c1, d1) := k1 in
  let '(a2, b2, c2, d2) := k2 in
  sameText a1 a2 && sameText b1 b2 && sameText c1 c2 && sameText d1 d2.

Definition Cache : Type := list (CacheKey * list Route).

Fixpoint cacheGet (k : CacheKey) (c : Cache) : option (list Route) :=
  match c with
  | [] => None
  | (k', v) :: rest => if keyEqb k k' then Some v else cacheGet k rest
  end.

Fixpoint cacheSet (k : CacheKey) (v : list Route) (c : Cache) : Cache :=
  match c with
  | [] => [(k, v)]
  | (k', v') :: rest =>
      if keyEqb k k' then (k', v) :: rest else (k', v') :: cacheSet k v rest
  end.

Definition cacheKey (start end_ : LatLng) : CacheKey :=
  (lat start, lng start, lat end_, lng end_).

(** [SAFETY_WEIGHTS]. *)
Definition SAFETY_WEIGHTS (ty : string) : option JS.num :=
  if ty =? "riskArea" then Some (JS.of_Z 50)
  else if ty =? "accident" then Some (JS.of_Z 30)
  else if ty =? "construction" then Some (JS.of_Z 20)
  else if ty =? "pothole" then Some (JS.of_Z 10)
  else if ty =? "portal" then Some (JS.of_Z 5)
  else None.

Definition HAZARD_BUFFER_METERS : JS.num := JS.of_Z 100.

(** [SAFETY_WEIGHTS] is an object literal, so a lookup that finds no key
    of its own goes on to [Object.prototype].  These are the names it finds
    there: eleven functions, and under [__proto__] the prototype itself. *)
Definition Object_prototype : list string :=
  ["constructor"; "hasOwnProperty"; "isPrototypeOf"; "propertyIsEnumerable";
   "toLocaleString"; "toString"; "valueOf"; "__proto__";
   "__defineGetter__"; "__defineSetter__";
   "__lookupGetter__"; "__lookupSetter__"].

Definition inherited (ty : string) : bool :=
  existsb (String.eqb ty) Object_prototype.

(** [SAFETY_WEIGHTS[hazard.type] || 5], as the number it is in the product
    [weight * proximityMultiplier], its one use.  An inherited property is
    a function or an object: it is truthy, so the default 5 does not apply,
    and as a factor it is NaN. *)
Definition weightOf (ty : string) : JS.num :=
  match SAFETY_WEIGHTS ty with
  | Some w => JS.or_else w (JS.of_Z 5)
  | None => if inherited ty then JS.NaN else JS.of_Z 5
  end.

Definition withSafetyScore (r : Route) (score : JS.num) : Route :=
  mkRoute (r_id r) (coordinates r) (distance r) (duration r)
          (instructions r) score.

(** [parseORSResponse(data)]. *)
Definition parseFeature (index : nat) (feature : Feature) : Route :=
  let seg (f : Segment -> option JS.num) : JS.num :=
    match segment0 feature with
    | Some sg => match f sg with
                 | Some x => JS.or_else x (JS.of_Z 0)
                 | None => JS.of_Z 0
                 end
    | None => JS.of_Z 0
    end in
  mkRoute ("route-" ++ NilZero.string_of_uint (Nat.to_uint index))
          (map toLatLng (f_coordinates feature))
          (seg seg_distance)
          (seg seg_duration)
          (match segment0 feature with
           | Some sg => match steps sg with Some l => l | None => [] end
           | None => []
           end)
          (JS.of_Z 0).

Fixpoint parseFeatures (index : nat) (features : list Feature) : list Route :=
  match features with
  | [] => []
  | f :: rest => parseFeature index f :: parseFeatures (S index) rest
  end.

Definition parseORSResponse (features : option (list Feature)) : list Route :=
  match features with
  | None => []
  | Some fs => parseFeatures 0 fs
  end.

Section WithMath.
Context {M : MathLib}.
Local Open Scope Z_scope.
Local Open Scope num_scope.

(** [calculateBearing(start, end)]. *)
Definition calculateBearing (start end_ : LatLng) : JS.num :=
  let dLng := (lng end_ - lng start) * Math_PI / 180 in
  let lat1 := lat start * Math_PI / 180 in
  let lat2 := lat end_ * Math_PI / 180 in
  let y := Math_sin dLng * Math_cos lat2 in
  let x := Math_cos lat1 * Math_sin lat2
           - Math_sin lat1 * Math_cos lat2 * Math_cos dLng in
  JS.rem (Math_atan2 y x * 180 / Math_PI + 360) 360.

(** [bearingToDirection(bearing)]; an index that is not a number reads
    [undefined] from the table. *)
Definition bearingToDirection (bearing : JS.num) : string :=
  let directions := ["N"; "NE"; "E"; "SE"; "S"; "SW"; "W"; "NW"]%string in
  match JS.rem (JS.round (bearing / 45)) 8 with
  | JS.Fin q => nth (Z.to_nat (Qfloor q)) directions "undefined"%string
  | _ => "undefined"%string
  end.

(** [interpolatePoint(start, end, fraction)]. *)
Definition interpolatePoint (start end_ : LatLng) (fraction : JS.num)
  : LatLng :=
  mkLatLng (lat start + (lat end_ - lat start) * fraction)
           (lng start + (lng end_ - lng start) * fraction).

(** How many times the body of [for (let i = 1; i < numWaypoints; i++)]
    runs; [None] when the loop never ends. *)
Definition waypointLoopCount (numWaypoints : JS.num) : option nat :=
  match numWaypoints with
  | JS.Fin q => Some (Z.to_nat (Qceiling q - 1))
  | JS.PosInf => None
  | _ => Some 0%nat
  end.

(** [createFallbackRoute(start, end)]; [None] when the waypoint loop does
    not terminate. *)
Definition createFallbackRoute (start end_ : LatLng) : option Route :=
  let distance := haversineDistance start end_ in
  let bearing := calculateBearing start end_ in
  let numWaypoints := JS.max 2 (JS.floor (distance / 1000)) in
  match waypointLoopCount numWaypoints with
  | None => None
  | Some n =>
      let waypoints :=
        ([start]
         ++ map (fun i => interpolatePoint start end_
                            (JS.of_Z (Z.of_nat i) / numWaypoints))
                (seq 1 n)
         ++ [end_])%list in
      Some (mkRoute "fallback-route" waypoints distance
              (distance / (13.89)%Q)
              [mkInstruction
                 (Some ("Head " ++ bearingToDirection bearing
                        ++ " toward destination")%string)
                 distance (distance / (13.89)%Q) None]
              0)
  end.

(** [getRouteOptions(start, end)].  [response] is what the provider
    answers if it is asked.  The result is the route array, the cache after
    the call, and whether the array is the very object the cache holds. *)
Definition getRouteOptions (cache : Cache) (start end_ : LatLng)
           (response : ProviderResponse)
  : option (list Route * Cache * bool) :=
  let key := cacheKey start end_ in
  match cacheGet key cache with
  | Some routes => Some (routes, cache, true)
  | None =>
      match response with
      | ProviderData features =>
          match parseORSResponse features with
          | [] =>
              match createFallbackRoute start end_ with
              | Some fb => Some ([fb], cacheSet key [fb] cache, true)
              | None => None
              end
          | routes => Some (routes, cacheSet key routes cache, true)
          end
      | ProviderError =>
          match createFallbackRoute start end_ with
          | Some fb => Some ([fb], cache, false)
          | None => None
          end
      end
  end.

(** The local functions of [lineSegmentsIntersect]. *)
Definition orientation (p q r : LatLng) : Z :=
  let val := (lng q - lng p) * (lat r - lat q)
             - (lat q - lat p) * (lng r - lng q) in
  if JS.eqb val 0 then 0%Z else if val >? 0 then 1%Z else 2%Z.

Definition onSegment (p q r : LatLng) : bool :=
  (lng q <=? JS.max (lng p) (lng r)) && (lng q >=? JS.min (lng p) (lng r))
  && (lat q <=? JS.max (lat p) (lat r)) && (lat q >=? JS.min (lat p) (lat r)).

(** [lineSegmentsIntersect(p1, q1, p2, q2)]. *)
Definition lineSegmentsIntersect (p1 q1 p2 q2 : LatLng) : bool :=
  let o1 := orientation p1 q1 p2 in
  let o2 := orientation p1 q1 q2 in
  let o3 := orientation p2 q2 p1 in
  let o4 := orientation p2 q2 q1 in
  if negb (o1 =? o2)%Z && negb (o3 =? o4)%Z then true
  else if (o1 =? 0)%Z && onSegment p1 p2 q1 then true
  else if (o2 =? 0)%Z && onSegment p1 q2 q1 then true
  else if (o3 =? 0)%Z && onSegment p2 p1 q2 then true
  else if (o4 =? 0)%Z && onSegment p2 q1 q2 then true
  else false.

(** The edges [polygon[i]], [polygon[(i + 1) % polygon.length]]. *)
Definition polygonEdges (polygon : list LatLng) : list (LatLng * LatLng) :=
  match polygon with
  | [] => []
  | first :: rest => combine polygon (rest ++ [first])%list
  end.

(** [routeIntersectsPolygon(segmentStart, segmentEnd, polygon)]. *)
Definition routeIntersectsPolygon (segmentStart segmentEnd : LatLng)
           (polygon : list LatLng) : bool :=
  if pointInPolygon segmentStart polygon || pointInPolygon segmentEnd polygon
  then true
  else existsb (fun e => lineSegmentsIntersect segmentStart segmentEnd
                           (fst e) (snd e))
               (polygonEdges polygon).

(** The body of the [forEach] of [calculateSafetyScore]: [totalPenalty]
    after one more hazard. *)
Definition penaltyStep (routeCoords : list LatLng) (totalPenalty : JS.num)
           (hazard : Hazard) : JS.num :=
  match geometry hazard with
  | Polygon ring0 =>
      if (type hazard =? "riskArea")%string then
        let polygon := map toLatLng ring0 in
        fold_left (fun total sg =>
                     if routeIntersectsPolygon (fst sg) (snd sg) polygon
                     then total + weightOf "riskArea"
                     else total)
                  (segments routeCoords) totalPenalty
      else totalPenalty
  | Point c =>
      let minDistance := getMinDistanceToRoute (toLatLng c) routeCoords in
      if minDistance <=? HAZARD_BUFFER_METERS then
        let weight := weightOf (type hazard) in
        let proximityMultiplier := 1 - minDistance / HAZARD_BUFFER_METERS in
        totalPenalty + weight * proximityMultiplier
      else totalPenalty
  | OtherGeometry _ => totalPenalty
  end.

(** [calculateSafetyScore(route, hazards)]. *)
Definition calculateSafetyScore (route : Route) (hazards : list Hazard)
  : JS.num :=
  fold_left (penaltyStep (coordinates route)) hazards 0.

(** The comparator of the [sort] in [getBestRoute]. *)
Definition compareRoutes (a b : Route) : JS.num :=
  if JS.abs (safetyScore a - safetyScore b) <? 5
  then distance a - distance b
  else safetyScore a - safetyScore b.

(** [getBestRoute(start, end, hazards)]: [routes[0]] after scoring and
    sorting, and the cache after the call.  The scoring and the sort work
    on the array in place, so a cached array is left scored and sorted.
    The outer [None] is a call that never returns. *)
Definition getBestRoute (cache : Cache) (start end_ : LatLng)
           (hazards : list Hazard) (response : ProviderResponse)
  : option (option Route * Cache) :=
  match getRouteOptions cache start end_ response with
  | None => None
  | Some (routes, cache1, shared) =>
      let scored :=
        map (fun route =>
               withSafetyScore route (calculateSafetyScore route hazards))
            routes in
      let sorted := sortBy compareRoutes scored in
      Some (hd_error sorted,
            if shared then cacheSet (cacheKey start end_) sorted cache1
            else cache1)
  end.

End WithMath.

End RoutingService.

(* ================================================================== *)
(** * NavigationController.js *)
(* ================================================================== *)

Module NavigationController.
Local Open Scope string_scope.

Record Settings : Type := mkSettings {
  routeDeviationThreshold : JS.num;   (* meters *)
  rerouteDelay : Z;                   (* ms *)
  positionUpdateInterval : Z;         (* ms *)
  hazardLookAhead : JS.num;           (* meters *)
  autoRecenter : bool
}.

Record NextTurn : Type := mkNextTurn {
  nt_instruction : string;
  nt_distance : JS.num;
  nt_type : string
}.

(** [routeProgress] is absent from the stats the constructor installs. *)
Record NavigationStats : Type := mkStats {
  distanceRemaining : JS.num;
  timeRemaining : JS.num;
  nextTurn : option NextTurn;
  upcomingHazards : list HazardService.UpcomingHazard;
  routeProgress : option JS.num
}.

Inductive NavEvent : Type :=
| navigationStarted (route : option Route) (dest : option LatLng)
| navigationStopped
| positionError
| rerouting
| routeUpdated (route : option Route) (reason : string)
| rerouteError
| destinationReached (dest : option LatLng) (finalPosition : option LatLng)
| positionUpdated (position : LatLng) (previousPosition : option LatLng)
                  (isOffRoute : bool) (stats : NavigationStats).

(** The controller object.  [notified] is the sequence of events handed to
    the listeners so far, oldest first. *)
Record Controller : Type := mkController {
  isNavigating : bool;
  currentRoute : option Route;
  destination : option LatLng;
  currentPosition : option LatLng;
  watchId : option Z;
  navigationStats : NavigationStats;
  settings : Settings;
  lastRerouteTime : Z;
  isRerouting : bool;
  notified : list NavEvent
}.

(** The state the constructor leaves. *)
Definition initial : Controller :=
  mkController false None None None None
    (mkStats (JS.of_Z 0) (JS.of_Z 0) None [] None)
    (mkSettings (JS.of_Z 100) 5000 2000 (JS.of_Z 1000) true)
    0 false [].

Definition set_isNavigating (b : bool) (s : Controller) : Controller :=
  mkController b (currentRoute s) (destination s) (currentPosition s)
    (watchId s) (navigationStats s) (settings s) (lastRerouteTime s)
    (isRerouting s) (notified s).

Definition set_currentRoute (r : option Route) (s : Controller) : Controller :=
  mkController (isNavigating s) r (destination s) (currentPosition s)
    (watchId s) (navigationStats s) (settings s) (lastRerouteTime s)
    (isRerouting s) (notified s).

Definition set_destination (d : option LatLng) (s : Controller) : Controller :=
  mkController (isNavigating s) (currentRoute s) d (currentPosition s)
    (watchId s) (navigationStats s) (settings s) (lastRerouteTime s)
    (isRerouting s) (notified s).

Definition set_currentPosition (p : option LatLng) (s : Controller)
  : Controller :=
  mkController (isNavigating s) (currentRoute s) (destination s) p
    (watchId s) (navigationStats s) (settings s) (lastRerouteTime s)
    (isRerouting s) (notified s).

Definition set_watchId (w : option Z) (s : Controller) : Controller :=
  mkController (isNavigating s) (currentRoute s) (destination s)
    (currentPosition s) w (navigationStats s) (settings s)
    (lastRerouteTime s) (isRerouting s) (notified s).

Definition set_navigationStats (st : NavigationStats) (s : Controller)
  : Controller :=
  mkController (isNavigating s) (currentRoute s) (destination s)
    (currentPosition s) (watchId s) st (settings s) (lastRerouteTime s)
    (isRerouting s) (notified s).

Definition set_lastRerouteTime (t : Z) (s : Controller) : Controller :=
  mkController (isNavigating s) (currentRoute s) (destination s)
    (currentPosition s) (watchId s) (navigationStats s) (settings s) t
    (isRerouting s) (notified s).

Definition set_isRerouting (b : bool) (s : Controller) : Controller :=
  mkController (isNavigating s) (currentRoute s) (destination s)
    (currentPosition s) (watchId s) (navigationStats s) (settings s)
    (lastRerouteTime s) b (notified s).

Definition updateSettings (newSettings : Settings) (s : Controller)
  : Controller :=
  mkController (isNavigating s) (currentRoute s) (destination s)
    (currentPosition s) (watchId s) (navigationStats s) newSettings
    (lastRerouteTime s) (isRerouting s) (notified s).

(** [notifyListeners(event, data)]. *)
Definition notifyListeners (e : NavEvent) (s : Controller) : Controller :=
  mkController (isNavigating s) (currentRoute s) (destination s)
    (currentPosition s) (watchId s) (navigationStats s) (settings s)
    (lastRerouteTime s) (isRerouting s) (notified s ++ [e]).

(** A call of [RoutingService.getBestRoute] made by the controller, and
    what the promise settles to. *)
Record RouteRequest : Type := mkRequest {
  rq_from : option LatLng;
  rq_to : option LatLng;
  rq_hazards : list HazardService.Hazard
}.

Inductive RouteResult : Type :=
| Resolved (route : option Route)
| Rejected.

(** An asynchronous method of the controller parked at its
    [await RoutingService.getBestRoute(...)], with the locals it will use
    when it resumes. *)
Inductive Suspended : Type :=
| InStartNavigation (request : RouteRequest)
| InRouteDeviation (request : RouteRequest) (newPosition : LatLng)
                   (previousPosition : option LatLng) (isOffRoute : bool)
| InForceReroute (request : RouteRequest).

Definition isReroute (k : Suspended) : bool :=
  match k with InStartNavigation _ => false | _ => true end.

Record Closest : Type := mkClosest {
  point : option LatLng;
  index : nat;
  c_distance : JS.num
}.

(** [stopNavigation()]. *)
Definition stopNavigation (s : Controller) : Controller :=
  let s := set_destination None
             (set_currentRoute None (set_isNavigating false s)) in
  (* [if (this.watchId) { clearWatch(this.watchId); this.watchId = null }]:
     the id 0 is falsy, so it is neither cleared nor forgotten *)
  let s := set_watchId (match watchId s with
                        | Some w => if (w =? 0)%Z then Some w else None
                        | None => None
                        end) s in
  notifyListeners navigationStopped s.

Section WithMath.
Context {M : MathLib}.
Local Open Scope Z_scope.
Local Open Scope num_scope.

Fixpoint closestLoop (position : LatLng) (routeCoords : list LatLng)
         (i : nat) (best : Closest) : Closest :=
  match routeCoords with
  | [] => best
  | c :: rest =>
      let distance := haversineDistance position c in
      closestLoop position rest (S i)
        (if distance <? c_distance best then mkClosest (Some c) i distance
         else best)
  end.

(** [findClosestPointOnRoute(position, routeCoords)]. *)
Definition findClosestPointOnRoute (position : LatLng)
           (routeCoords : list LatLng) : Closest :=
  closestLoop position routeCoords 0%nat
    (mkClosest (hd_error routeCoords) 0%nat Infinity).

(** [findNextTurn(currentIndex)]. *)
Definition findNextTurn (route : Route) (currentIndex : nat)
  : option NextTurn :=
  if (List.length (instructions route) <=? currentIndex)%nat then None
  else
    match find (fun i => i_distance i >? 0) (instructions route) with
    | Some i =>
        Some (mkNextTurn
                (match instruction i with
                 | Some t => if (t =? "")%string then "Continue straight" else t
                 | None => "Continue straight"
                 end)
                (JS.round (i_distance i))
                (match i_type i with
                 | Some t => if (t =? "")%string then "straight" else t
                 | None => "straight"
                 end))
    | None => None
    end.

(** The remaining distance computed by [updateNavigationStats]: the
    segments from the closest vertex on, then the distance to that vertex. *)
Definition remainingDistanceOf (position : LatLng) (routeCoords : list LatLng)
  : JS.num :=
  let closest := findClosestPointOnRoute position routeCoords in
  fold_left (fun remainingDistance sg =>
               remainingDistance + haversineDistance (fst sg) (snd sg))
            (segments (skipn (index closest) routeCoords)) 0
  + c_distance closest.

(** The [routeProgress] expression of [updateNavigationStats]. *)
Definition progressOf (remainingDistance routeDistance : JS.num) : JS.num :=
  JS.max 0 (JS.min 1 (1 - remainingDistance / routeDistance)).

(** [updateNavigationStats()]; [hz] is the hazard service it reads. *)
Definition updateNavigationStats (hz : HazardService.Store) (s : Controller)
  : Controller :=
  match currentRoute s, currentPosition s with
  | Some route, Some position =>
      let routeCoords := coordinates route in
      let closest := findClosestPointOnRoute position routeCoords in
      let remainingDistance := remainingDistanceOf position routeCoords in
      let averageSpeedMs : JS.num := (8.33)%Q in
      let remainingTime := remainingDistance / averageSpeedMs in
      let nextTurn := findNextTurn route (index closest) in
      let upcomingHazards :=
        HazardService.getUpcomingHazards hz position (Some route)
          (hazardLookAhead (settings s)) in
      set_navigationStats
        (mkStats (JS.round remainingDistance) (JS.round remainingTime)
                 nextTurn upcomingHazards
                 (Some (progressOf remainingDistance (distance route))))
        s
  | _, _ => s
  end.

(** [handleDestinationReached()]. *)
Definition handleDestinationReached (s : Controller) : Controller :=
  stopNavigation
    (notifyListeners (destinationReached (destination s) (currentPosition s)) s).

(** [handlePositionUpdate] from "Update navigation stats" to its end.  A
    missing destination makes [haversineDistance] throw, which ends the
    method. *)
Definition positionUpdateTail (hz : HazardService.Store)
           (newPosition : LatLng) (previousPosition : option LatLng)
           (isOffRoute : bool) (s : Controller) : Controller :=
  let s := updateNavigationStats hz s in
  match destination s with
  | None => s
  | Some dest =>
      let distanceToDestination := haversineDistance newPosition dest in
      if distanceToDestination <? 50 then handleDestinationReached s
      else notifyListeners
             (positionUpdated newPosition previousPosition isOffRoute
                              (navigationStats s)) s
  end.

(** [handlePositionUpdate(newPosition)] up to its first suspension.  [now]
    is the reading [Date.now()] gives inside [handleRouteDeviation].  The
    second component is the method parked at the [await] of
    [getBestRoute], if it got there; otherwise the call has run to its
    end. *)
Definition handlePositionUpdate (hz : HazardService.Store) (now : Z)
           (newPosition : LatLng) (s : Controller)
  : Controller * option Suspended :=
  if negb (isNavigating s) then (s, None)
  else
    match currentRoute s with
    | None => (s, None)
    | Some route =>
        let previousPosition := currentPosition s in
        let s := set_currentPosition (Some newPosition) s in
        let closest := findClosestPointOnRoute newPosition (coordinates route) in
        let isOffRoute :=
          c_distance closest >? routeDeviationThreshold (settings s) in
        if isOffRoute && negb (isRerouting s) then
          (* handleRouteDeviation *)
          if (now - lastRerouteTime s <? rerouteDelay (settings s))%Z then
            (positionUpdateTail hz newPosition previousPosition isOffRoute s,
             None)
          else
            let s := set_lastRerouteTime now (set_isRerouting true s) in
            let s := notifyListeners rerouting s in
            let hazards := HazardService.getAllHazards hz in
            (s, Some (InRouteDeviation
                        (mkRequest (currentPosition s) (destination s) hazards)
                        newPosition previousPosition isOffRoute))
        else
          (positionUpdateTail hz newPosition previousPosition isOffRoute s,
           None)
    end.

(** [forceReroute()] up to its [await]. *)
Definition forceReroute (hz : HazardService.Store) (s : Controller)
  : Controller * option Suspended :=
  match isNavigating s, currentPosition s, destination s with
  | true, Some _, Some _ =>
      let s := set_isRerouting true s in
      let hazards := HazardService.getAllHazards hz in
      (s, Some (InForceReroute
                  (mkRequest (currentPosition s) (destination s) hazards)))
  | _, _, _ => (s, None)
  end.

(** [startNavigation(destination, currentPosition)] up to its [await]. *)
Definition startNavigation (hz : HazardService.Store)
           (dest position : LatLng) (s : Controller)
  : Controller * option Suspended :=
  let s := if isNavigating s then stopNavigation s else s in
  let s := set_isRerouting false
             (set_isNavigating true
                (set_currentPosition (Some position)
                   (set_destination (Some dest) s))) in
  let hazards := HazardService.getAllHazards hz in
  (s, Some (InStartNavigation (mkRequest (Some position) (Some dest) hazards))).

(** The rest of a parked method, once its [getBestRoute] promise has
    settled to [result].  [watch] is the id [watchPosition] hands out when
    [startNavigation] begins position tracking, [None] where the browser
    has no geolocation. *)
Definition resume (hz : HazardService.Store) (watch : option Z)
           (k : Suspended) (result : RouteResult) (s : Controller)
  : Controller :=
  match k with
  | InStartNavigation _ =>
      match result with
      | Resolved (Some route) =>
          let s := set_currentRoute (Some route) s in
          let s := updateNavigationStats hz s in
          let s := match watch with
                   | Some w => set_watchId (Some w) s
                   | None => s
                   end in
          notifyListeners (navigationStarted (currentRoute s) (destination s)) s
      | Resolved None | Rejected => set_isNavigating false s
      end
  | InRouteDeviation _ newPosition previousPosition isOffRoute =>
      let s :=
        match result with
        | Resolved (Some newRoute) =>
            let s := set_currentRoute (Some newRoute) s in
            let s := updateNavigationStats hz s in
            notifyListeners (routeUpdated (currentRoute s) "deviation") s
        | Resolved None => s
        | Rejected => notifyListeners rerouteError s
        end in
      let s := set_isRerouting false s in
      positionUpdateTail hz newPosition previousPosition isOffRoute s
  | InForceReroute _ =>
      let s :=
        match result with
        | Resolved (Some newRoute) =>
            let s := set_currentRoute (Some newRoute) s in
            let s := updateNavigationStats hz s in
            notifyListeners (routeUpdated (currentRoute s) "manual") s
        | Resolved None | Rejected => s
        end in
      set_isRerouting false s
  end.

End WithMath.

(** The controller together with its methods that are parked at an
    [await], oldest first: the route computations in flight. *)
Record Session : Type := mkSession {
  ctl : Controller;
  inflight : list Suspended
}.

Definition park (r : Controller * option Suspended) (inflight : list Suspended)
  : Session :=
  match snd r with
  | Some k => mkSession (fst r) (inflight ++ [k])
  | None => mkSession (fst r) inflight
  end.

(** The reroute computations in flight. *)
Definition reroutesInFlight (ss : Session) : nat :=
  List.length (filter isReroute (inflight ss)).

(** The number of ['rerouting'] notifications in a trace. *)
Definition countRerouting (l : list NavEvent) : nat :=
  List.length (filter (fun e => match e with rerouting => true | _ => false end) l).

Section Sessions.
Context {M : MathLib}.

(** What can happen to a session: a position sample arrives, the user asks
    for a reroute or starts over, or the [n]-th parked method gets its
    answer. *)
Definition onPosition (hz : HazardService.Store) (now : Z)
           (newPosition : LatLng) (ss : Session) : Session :=
  park (handlePositionUpdate hz now newPosition (ctl ss)) (inflight ss).

Definition onForceReroute (hz : HazardService.Store) (ss : Session) : Session :=
  park (forceReroute hz (ctl ss)) (inflight ss).

Definition onStart (hz : HazardService.Store) (dest position : LatLng)
           (ss : Session) : Session :=
  park (startNavigation hz dest position (ctl ss)) (inflight ss).

Definition onSettled (hz : HazardService.Store) (watch : option Z)
           (n : nat) (result : RouteResult) (ss : Session) : Session :=
  match nth_error (inflight ss) n with
  | None => ss
  | Some k =>
      mkSession (resume hz watch k result (ctl ss))
                (firstn n (inflight ss) ++ skipn (S n) (inflight ss))
  end.

(** What the promise of a [RoutingService.getBestRoute] call settles to,
    when the provider answers [response]: the result, and the routing
    service's cache after the call.  A request without a start or an end
    makes the service throw on its first property access. *)
Definition settle (cache : RoutingService.Cache)
           (response : RoutingService.ProviderResponse) (rq : RouteRequest)
  : option (RouteResult * RoutingService.Cache) :=
  match rq_from rq, rq_to rq with
  | Some start, Some end_ =>
      match RoutingService.getBestRoute cache start end_ (rq_hazards rq)
                                        response with
      | Some (route, cache') => Some (Resolved route, cache')
      | None => None
      end
  | _, _ => Some (Rejected, cache)
  end.

Definition requestOf (k : Suspended) : RouteRequest :=
  match k with
  | InStartNavigation rq => rq
  | InRouteDeviation rq _ _ _ => rq
  | InForceReroute rq => rq
  end.





End Sessions.

End NavigationController.

(* ================================================================== *)
(** * The position source: speed of a sample *)
(* ================================================================== *)

(** A sample of the position stream, as [watchPosition] delivers it;
    [speed] is [None] for [null] or [undefined]. *)
Record PositionSample : Type := mkSample {
  latitude : JS.num;
  longitude : JS.num;
  speed : option JS.num;
  timestamp : JS.num
}.

(** SmartRoadSafetyWithRouting.jsx, the component App.jsx mounts: the speed
    part of the [watchPosition] callback of [startGeolocation]. *)
Module SmartRoadSafetyWithRouting.

(** [lastPosRef.current]. *)
Record LastPos : Type := mkLastPos {
  p : LatLng;
  ts : JS.num;
  lastSpeed : option JS.num
}.

Section WithMath.
Context {M : MathLib}.
Local Open Scope Z_scope.
Local Open Scope num_scope.

(** The device speed, if the sample has a usable one. *)
Definition deviceSpeed (pos : PositionSample) : option JS.num :=
  match speed pos with
  | Some v => if negb (JS.isNaN v) && (v >=? 0) then Some v else None
  | None => None
  end.

(** [speedMS] after the "Improved speed calculation" block. *)
Definition speedMS (pos : PositionSample) (lastPos : option LastPos)
  : option JS.num :=
  let next := mkLatLng (latitude pos) (longitude pos) in
  match deviceSpeed pos, lastPos with
  | Some v, _ => Some v
  | None, Some last =>
      let dt := (timestamp pos - ts last) / 1000 in
      if (dt >? (0.5)%Q) && (dt <? 10) then
        let d := haversineDistance (p last) next in
        let instantaneous := d / dt in
        match lastSpeed last with
        | Some previous =>
            Some (previous * (0.7)%Q + instantaneous * (0.3)%Q)
        | None => Some instantaneous
        end
      else
        Some (match lastSpeed last with
              | Some previous => JS.or_else previous 0
              | None => 0
              end)
  | None, None => None
  end.

(** The new [lastPosRef.current] and the displayed [kmph]. *)
Definition onSample (pos : PositionSample) (lastPos : option LastPos)
  : LastPos * JS.num :=
  let next := mkLatLng (latitude pos) (longitude pos) in
  let v := speedMS pos lastPos in
  let shown := match v with Some x => JS.or_else x 0 | None => 0 end in
  (mkLastPos next (timestamp pos) v,
   clamp (JS.round (shown * (3.6)%Q * 10) / 10) 0 120).

End WithMath.

(** An element of [WEATHER_STATES], as far as the speed limit reads it. *)
Record Weather : Type := mkWeather {
  recommendedLimit : option JS.num
}.

(** [getDynamicSpeedLimit({ inHighRisk, inMedRisk, weather })]. *)
Definition getDynamicSpeedLimit (inHighRisk inMedRisk : bool)
           (weather : option Weather) : JS.num :=
  let base : JS.num :=
    if inHighRisk then JS.of_Z 30
    else if inMedRisk then JS.of_Z 40 else JS.of_Z 60 in
  let weatherLimit :=
    match weather with
    | Some w => match recommendedLimit w with
                | Some l => l
                | None => JS.of_Z 60
                end
    | None => JS.of_Z 60
    end in
  let finalLimit := JS.min base weatherLimit in
  clamp finalLimit (JS.of_Z 15) (JS.of_Z 80).

End SmartRoadSafetyWithRouting.

(** SmartRoadSafety.jsx, the earlier component without routing, which
    App.jsx does not mount: the same block as it stands there. *)
Module SmartRoadSafety.

Record LastPos : Type := mkLastPos {
  p : LatLng;
  ts : JS.num
}.

Section WithMath.
Context {M : MathLib}.
Local Open Scope Z_scope.
Local Open Scope num_scope.

Definition speedMS (pos : PositionSample) (lastPos : option LastPos)
  : option JS.num :=
  let next := mkLatLng (latitude pos) (longitude pos) in
  let device :=
    match speed pos with
    | Some v => if negb (JS.isNaN v) then Some v else None
    | None => None
    end in
  match device, lastPos with
  | Some v, _ => Some v
  | None, Some last =>
      let dt := (timestamp pos - ts last) / 1000 in
      if dt >? 0 then Some (haversineDistance (p last) next / dt)
      else None
  | None, None => None
  end.

Definition onSample (pos : PositionSample) (lastPos : option LastPos)
  : LastPos * JS.num :=
  let next := mkLatLng (latitude pos) (longitude pos) in
  let v := speedMS pos lastPos in
  let shown := match v with Some x => JS.or_else x 0 | None => 0 end in
  (mkLastPos next (timestamp pos),
   clamp (JS.round (shown * (3.6)%Q * 10) / 10) 0 240).

End WithMath.
End SmartRoadSafety.

(* ================================================================== *)
(** * A Math library on the rationals *)
(* ================================================================== *)

(** An implementation of [MathLib] by truncated series, each step rounded
    to 20 decimals.  It is what the concrete examples run on; it is exact at
    the arguments where the functions are rational ([sin 0], [sqrt 0],
    [sqrt 1], [atan2 0 1]) and within a millimetre of the true distance at
    the scale of a city.  Arguments that are not finite give NaN. *)
Module ApproxMath.

Definition scale : Z := 10 ^ 20.

Definition rnd (q : Q) : Q := Qfloor (q * inject_Z scale) # Z.to_pos scale.

Definition pi : Q := 3.14159265358979323846.

(** [1 - x2/(k(k+1)) (1 - x2/((k+2)(k+3)) (1 - ...))], [n] factors deep. *)
Fixpoint alternating (n : nat) (k : Z) (x2 : Q) : Q :=
  match n with
  | O => 1
  | S n' =>
      rnd (1 - x2 / inject_Z (k * (k + 1)) * alternating n' (k + 2) x2)
  end.

Definition sinQ (x : Q) : Q :=
  let x := rnd x in rnd (x * alternating 12 2 (x * x)).

Definition cosQ (x : Q) : Q :=
  let x := rnd x in alternating 12 1 (x * x).

(** Newton's iteration for the square root of [a], until it is stationary
    or [n] steps are done. *)
Fixpoint newton (n : nat) (a g : Q) : Q :=
  match n with
  | O => g
  | S n' =>
      let g' := rnd ((g + a / g) / 2) in
      if Qeq_bool g' g then g else newton n' a g'
  end.

Definition sqrtQ (a : Q) : Q :=
  let a := rnd a in
  if Qle_bool a 0 then 0
  else newton 100 a (if Qle_bool a 1 then 1 else a).

(** [1/k - t2 (1/(k+2) - t2 (...))], [n] terms deep. *)
Fixpoint gregory (n : nat) (k : Z) (t2 : Q) : Q :=
  match n with
  | O => 1 / inject_Z k
  | S n' => rnd (1 / inject_Z k - t2 * gregory n' (k + 2) t2)
  end.

(** [atan t] for [|t| <= 1]: two halvings of the angle, then the series. *)
Definition atanUnit (t : Q) : Q :=
  let half (u : Q) := rnd (u / (1 + sqrtQ (1 + u * u))) in
  let u := half (half (rnd t)) in
  rnd (4 * (u * gregory 12 1 (u * u))).

Definition atanQ (t : Q) : Q :=
  if Qle_bool (Qabs t) 1 then atanUnit t
  else if Qle_bool 0 t then pi / 2 - atanUnit (1 / t)
  else - (pi / 2) - atanUnit (1 / t).

Definition atan2Q (y x : Q) : Q :=
  let y := rnd y in
  let x := rnd x in
  if JS.Qltb 0 x then atanQ (y / x)
  else if JS.Qltb x 0 then
    if Qle_bool 0 y then atanQ (y / x) + pi else atanQ (y / x) - pi
  else if JS.Qltb 0 y then pi / 2
  else if JS.Qltb y 0 then - (pi / 2)
  else 0.

Definition lift (f : Q -> Q) (x : JS.num) : JS.num :=
  match x with JS.Fin q => JS.Fin (f q) | _ => JS.NaN end.

Definition sqrt (x : JS.num) : JS.num :=
  match x with
  | JS.Fin q => if JS.Qltb q 0 then JS.NaN else JS.Fin (sqrtQ q)
  | JS.PosInf => JS.PosInf
  | _ => JS.NaN
  end.

Definition atan2 (y x : JS.num) : JS.num :=
  match y, x with
  | JS.Fin a, JS.Fin b => JS.Fin (atan2Q a b)
  | _, _ => JS.NaN
  end.

Lemma atan2_finite : forall y x, JS.isInfinite (atan2 y x) = false.
Proof. intros [| | |a] [| | |b]; reflexivity. Qed.

Definition math : MathLib :=
  {| Math_sin := lift sinQ;
     Math_cos := lift cosQ;
     Math_sqrt := sqrt;
     Math_atan2 := atan2;
     Math_atan2_finite := atan2_finite |}.

End ApproxMath.

(* ================================================================== *)
(** * Predicates and data used in the statements *)
(* ================================================================== *)

(** A route a navigation session can track: at least two coordinates. *)
Definition trackable (r : Route) : Prop :=
  (2 <= List.length (coordinates r))%nat.

(** Every route of the provider's answer has at least two coordinates.  An
    error and an answer without features qualify. *)
Definition responseOk (response : RoutingService.ProviderResponse) : Prop :=
  match response with
  | RoutingService.ProviderError => True
  | RoutingService.ProviderData None => True
  | RoutingService.ProviderData (Some features) =>
      Forall (fun f => (2 <= List.length (RoutingService.f_coordinates f))%nat)
             features
  end.

(** Every cached array is non-empty and holds trackable routes only. *)
Definition cacheOk (cache : RoutingService.Cache) : Prop :=
  Forall (fun kv => snd kv <> [] /\ Forall trackable (snd kv)) cache.

(** No Point hazard in [l] is, for the duplicate test of [addHazard], a
    duplicate of a Point hazard that stands before it in [l]. *)
Definition separated {M : MathLib} (l : list HazardService.Hazard) : Prop :=
  ForallOrdPairs
    (fun earlier later =>
       HazardService.duplicateOf (HazardService.geometry later)
                                 (HazardService.type later) earlier = false)
    l.

(** [x] may stand before [y] in an array sorted with [compare]: the
    comparator does not ask for [x] after [y]. *)
Definition notAfter {A : Type} (compare : A -> A -> JS.num) (x y : A) : Prop :=
  JS.gtb (compare x y) (JS.of_Z 0) = false.

(** The order [filterHazardsByRoute] promises: higher priority first, and
    among equal priorities the hazard nearer to the route first. *)
Definition routeOrder (a b : HazardService.RouteHazard) : Prop :=
  let priorityA :=
    HazardService.priority (HazardService.type (HazardService.rh_hazard a)) in
  let priorityB :=
    HazardService.priority (HazardService.type (HazardService.rh_hazard b)) in
  JS.ltb priorityB priorityA = true
  \/ (priorityA = priorityB
      /\ JS.leb (HazardService.distanceToRoute a)
                (HazardService.distanceToRoute b) = true).

(** A stored hazard is along a route: a Point whose minimum distance to
    the route is at most the buffer, or a Polygon that meets the buffer. *)
Definition alongRoute {M : MathLib} (routeCoords : list LatLng)
           (bufferMeters : JS.num) (h : HazardService.Hazard) : bool :=
  match HazardService.geometry h with
  | HazardService.Point c =>
      JS.leb (getMinDistanceToRoute (HazardService.toLatLng c) routeCoords)
             bufferMeters
  | HazardService.Polygon ring0 =>
      HazardService.polygonIntersectsRouteBuffer ring0 routeCoords bufferMeters
  | HazardService.OtherGeometry _ => false
  end.

(** The same as a test that runs: every hazard of [l] against the ones
    before it, which are [seen] and then the earlier ones of [l]. *)
Fixpoint separatedFrom {M : MathLib} (seen l : list HazardService.Hazard)
  : bool :=
  match l with
  | [] => true
  | later :: rest =>
      negb (existsb (HazardService.duplicateOf
                       (HazardService.geometry later)
                       (HazardService.type later)) seen)
      && separatedFrom (seen ++ [later]) rest
  end.

(** Places, routes and sessions of the worked examples.  They run on
    [ApproxMath]. *)
Module Scenario.
Import NavigationController.
#[local] Existing Instance ApproxMath.math.

Definition t0 : Z := 1700000000000.

Definition mumbaiCentre : LatLng := mkLatLng (JS.Fin 19.0760) (JS.Fin 72.8777).
Definition sion : LatLng := mkLatLng (JS.Fin 19.0436) (JS.Fin 72.8649).

(** 150 m north of [mumbaiCentre]. *)
Definition offRoute : LatLng := mkLatLng (JS.Fin 19.07735) (JS.Fin 72.8777).

Definition emptyStore : HazardService.Store := HazardService.mkStore [] [].

(** The provider's answer with one two-point route from the centre to
    Sion, 3846 m and 420 s long. *)
Definition directAnswer : RoutingService.ProviderResponse :=
  RoutingService.ProviderData
    (Some [RoutingService.mkFeature
             [(JS.Fin 72.8777, JS.Fin 19.0760); (JS.Fin 72.8649, JS.Fin 19.0436)]
             (Some (RoutingService.mkSegment (Some (JS.of_Z 3846))
                                             (Some (JS.of_Z 420)) None))]).

(** The provider's answer with one route that has a single coordinate. *)
Definition degenerateAnswer : RoutingService.ProviderResponse :=
  RoutingService.ProviderData
    (Some [RoutingService.mkFeature [(JS.Fin 72.8777, JS.Fin 19.0760)] None]).

Definition directRoute : Route :=
  mkRoute "route-0" [mumbaiCentre; sion] (JS.of_Z 3846) (JS.of_Z 420) []
          (JS.of_Z 0).

(** A session that is navigating along [directRoute], not rerouting, its
    last reroute at time 0. *)
Definition active : Controller :=
  mkController true (Some directRoute) (Some sion) (Some mumbaiCentre)
    (Some 1%Z) (navigationStats initial) (settings initial) 0 false [].

(** The first parked method of [ss] gets the answer the routing service
    computes from [response], starting from an empty cache. *)
Definition answerFirst (hz : HazardService.Store)
           (response : RoutingService.ProviderResponse) (ss : Session)
  : Session :=
  match inflight ss with
  | k :: _ =>
      match settle [] response (requestOf k) with
      | Some (result, _) => onSettled hz (Some 1%Z) 0 result ss
      | None => ss
      end
  | [] => ss
  end.

(** Navigation is started from the centre to Sion and the provider answers
    with the direct route. *)
Definition started : Session :=
  answerFirst emptyStore directAnswer
    (onStart emptyStore sion mumbaiCentre (mkSession initial [])).

(** Then a sample 150 m off the route arrives: a reroute is in flight. *)
Definition deviated : Session :=
  onPosition emptyStore (t0 + 2000) offRoute started.

(** Then the user asks for a reroute. *)
Definition forced : Session := onForceReroute emptyStore deviated.

(** Navigation is started with the destination at the current position
    while the provider is down. *)
Definition startedOnTheSpot : Session :=
  answerFirst emptyStore RoutingService.ProviderError
    (onStart emptyStore mumbaiCentre mumbaiCentre (mkSession initial [])).

(** The built-in accident at the centre, and a draft for another accident
    some 55 m north of it. *)
Definition acc1 : HazardService.Hazard :=
  HazardService.mkHazard "acc-1" "accident"
    (HazardService.Point (JS.Fin 72.8777, JS.Fin 19.0760))
    (HazardService.mkProperties (JS.Fin 3) "Multi-vehicle collision" t0).

Definition nearbyAccident : HazardService.HazardDraft :=
  HazardService.mkDraft None (Some "accident"%string)
    (Some (HazardService.Point (JS.Fin 72.8777, JS.Fin 19.0765)))
    (Some (HazardService.mkDraftProperties (Some (JS.of_Z 2)) None)).

(** A draft for a risk area whose ring has coordinates out of range and
    runs through the built-in hazards. *)
Definition wildPolygon : HazardService.HazardDraft :=
  HazardService.mkDraft None (Some "riskArea"%string)
    (Some (HazardService.Polygon
             [(JS.Fin 72.8777, JS.Fin 19.0760); (JS.Fin 500, JS.Fin (-200));
              (JS.NaN, JS.Fin 19.0436); (JS.Fin 72.8777, JS.Fin 19.0760)]))
    (Some (HazardService.mkDraftProperties None None)).

(** The store after [addHazard] has taken [wildPolygon] at time [t0]. *)
Definition withReportedZone : HazardService.Store :=
  snd (HazardService.addHazard t0 "k3x9q2m1z" wildPolygon
                               (HazardService.initial t0)).

Definition reportedZone : HazardService.Hazard :=
  HazardService.mkHazard "riskArea-1700000000000-k3x9q2m1z" "riskArea"
    (HazardService.Polygon
       [(JS.Fin 72.8777, JS.Fin 19.0760); (JS.Fin 500, JS.Fin (-200));
        (JS.NaN, JS.Fin 19.0436); (JS.Fin 72.8777, JS.Fin 19.0760)])
    (HazardService.mkProperties (JS.of_Z 1) "Reported riskArea" t0).

(** A sample without a device speed, two seconds after a sample at the
    centre that had speed 10 m/s. *)
Definition sampleWithoutSpeed : PositionSample :=
  mkSample (JS.Fin 19.0762) (JS.Fin 72.8777) None (JS.of_Z 2000).

Definition previousSample : SmartRoadSafetyWithRouting.LastPos :=
  SmartRoadSafetyWithRouting.mkLastPos mumbaiCentre (JS.of_Z 0)
                                       (Some (JS.of_Z 10)).

(** A pothole report with an absurd severity. *)
Definition potholeReport : HazardService.HazardDraft :=
  HazardService.mkDraft None (Some "pothole"%string)
    (Some (HazardService.Point (JS.Fin 72.9000, JS.Fin 19.1000)))
    (Some (HazardService.mkDraftProperties (Some (JS.of_Z 99)) None)).

(** A longer way from the centre to Sion, and a cache that holds both
    ways for that request. *)
Definition detourRoute : Route :=
  mkRoute "route-1"
          [mumbaiCentre; mkLatLng (JS.Fin 19.0600) (JS.Fin 72.8900); sion]
          (JS.of_Z 5000) (JS.of_Z 600) [] (JS.of_Z 0).

Definition bothWaysCached : RoutingService.Cache :=
  [(RoutingService.cacheKey mumbaiCentre sion, [directRoute; detourRoute])].

(** The "Fog" entry of [WEATHER_STATES]. *)
Definition fog : SmartRoadSafetyWithRouting.Weather :=
  SmartRoadSafetyWithRouting.mkWeather (Some (JS.of_Z 30)).

(** A hazard [addHazard] accepts like any other, whose type happens to be
    the name of a property every object inherits; it lies on
    [directRoute]. *)
Definition oddlyNamed : HazardService.Hazard :=
  HazardService.mkHazard "constructor-1" "constructor"
    (HazardService.Point (JS.Fin 72.8777, JS.Fin 19.0760))
    (HazardService.mkProperties (JS.Fin 1) "Road works" t0).

End Scenario.

(* ================================================================== *)
(** * Properties *)
(* ================================================================== *)

(** ** Numbers *)

Lemma Qltb_lt (a b : Q) : JS.Qltb a b = true <-> a < b.
Proof.
  unfold JS.Qltb. rewrite negb_true_iff.
  split; intro H.
  - apply Qnot_le_lt. intro Hle. apply Qle_bool_iff in Hle. congruence.
  - destruct (Qle_bool b a) eqn:E; [|reflexivity].
    apply Qle_bool_iff in E. exfalso. apply (Qlt_not_le _ _ H E).
Qed.

Lemma Qltb_ge (a b : Q) : JS.Qltb a b = false <-> b <= a.
Proof.
  unfold JS.Qltb. rewrite negb_false_iff. apply Qle_bool_iff.
Qed.

Lemma Qle_bool_false (a b : Q) : Qle_bool a b = false <-> b < a.
Proof.
  rewrite <- Qltb_lt. unfold JS.Qltb.
  destruct (Qle_bool a b); simpl; split; congruence.
Qed.

Lemma equiv_refl (x : JS.num) : (x =~ x)%num.
Proof. destruct x; simpl; auto. reflexivity. Qed.

Lemma equiv_sym (x y : JS.num) : (x =~ y)%num -> (y =~ x)%num.
Proof. destruct x, y; simpl; auto. intro H. symmetry. exact H. Qed.

Lemma equiv_trans (x y z : JS.num) :
  (x =~ y)%num -> (y =~ z)%num -> (x =~ z)%num.
Proof.
  destruct x, y, z; simpl; auto; try contradiction.
  intros H1 H2. rewrite H1. exact H2.
Qed.

Lemma add_zero_l (x : JS.num) : (JS.of_Z 0 + x =~ x)%num.
Proof. destruct x; simpl; auto. ring. Qed.

(** ** Arrays *)

Lemma insertSorted_Forall {A : Type} (P : A -> Prop) compare (x : A) l :
  P x -> Forall P l -> Forall P (insertSorted compare x l).
Proof.
  intros Hx Hl. induction Hl as [|y l Hy Hl IH]; cbn [insertSorted].
  - constructor; [assumption | constructor].
  - destruct (JS.gtb (compare x y) 0%Z).
    + constructor; assumption.
    + constructor; [assumption | constructor; assumption].
Qed.

Lemma sortBy_Forall {A : Type} (P : A -> Prop) compare (l : list A) :
  Forall P l -> Forall P (sortBy compare l).
Proof.
  unfold sortBy. induction 1 as [|x l Hx Hl IH]; cbn [fold_right].
  - constructor.
  - apply insertSorted_Forall; assumption.
Qed.

Lemma insertSorted_length {A : Type} compare (x : A) l :
  List.length (insertSorted compare x l) = S (List.length l).
Proof.
  induction l as [|y l IH]; cbn [insertSorted]; [reflexivity|].
  destruct (JS.gtb (compare x y) 0%Z); cbn [List.length]; [rewrite IH|];
    reflexivity.
Qed.

Lemma sortBy_length {A : Type} compare (l : list A) :
  List.length (sortBy compare l) = List.length l.
Proof.
  unfold sortBy. induction l as [|x l IH]; cbn [fold_right]; [reflexivity|].
  rewrite insertSorted_length, IH. reflexivity.
Qed.

Lemma flat_map_Forall {A B : Type} (P : B -> Prop) (f : A -> list B) l :
  (forall a, Forall P (f a)) -> Forall P (flat_map f l).
Proof.
  intro Hf. induction l as [|a l IH]; simpl.
  - constructor.
  - apply Forall_app. split; [apply Hf | exact IH].
Qed.

(** ** The hazard store *)

Section HazardStoreFacts.
Import HazardService.
Context {M : MathLib}.
Local Open Scope string_scope.

Lemma upcomingStep_points currentPosition lookAheadMeters hazard :
  Forall (fun u => isPoint (geometry (rh_hazard (uh_hazard u))) = true)
         (upcomingStep currentPosition lookAheadMeters hazard).
Proof.
  unfold upcomingStep.
  destruct (geometry (rh_hazard hazard)) as [c| |] eqn:G; try constructor.
  destruct (JS.leb _ _); constructor; [|constructor].
  simpl. rewrite G. reflexivity.
Qed.

(** C9.  Every element of the list [getUpcomingHazards] returns has Point
    geometry, for every store, position, route and look-ahead distance:
    a polygon that passes the along-route filter is dropped. *)
Theorem C9_upcoming_hazards_are_points
        (st : Store) (currentPosition : LatLng) (route : option Route)
        (lookAheadMeters : JS.num) :
  Forall (fun u => isPoint (geometry (rh_hazard (uh_hazard u))) = true)
         (getUpcomingHazards st currentPosition route lookAheadMeters).
Proof.
  unfold getUpcomingHazards. destruct route as [r|]; [|constructor].
  apply sortBy_Forall. apply flat_map_Forall.
  intro a. apply upcomingStep_points.
Qed.

Lemma duplicateOf_polygon ring ty existing :
  duplicateOf (Polygon ring) ty existing = false.
Proof. unfold duplicateOf. destruct (geometry existing); reflexivity. Qed.

Lemma existsb_all_false {A : Type} (f : A -> bool) l :
  (forall a, f a = false) -> existsb f l = false.
Proof.
  intro H. induction l as [|a l IH]; simpl; [reflexivity|].
  rewrite H, IH. reflexivity.
Qed.

(** C10.  A draft with Polygon geometry whose type, geometry and
    properties fields are present (the type a non-empty string, which is
    what the code's test of presence asks) is accepted whatever its
    coordinates and whatever the store holds: it is appended to the store
    with its polygon untouched, and the listeners get one [hazardAdded]. *)
Theorem C10_polygon_draft_accepted
        (now : Z) (suffix : string) (st : Store) (draft : HazardDraft)
        (ty : string) (ring : list (JS.num * JS.num))
        (props : DraftProperties)
        (Htype : d_type draft = Some ty) (Hpresent : ty <> "")
        (Hgeometry : d_geometry draft = Some (Polygon ring))
        (Hprops : d_properties draft = Some props) :
  exists h,
    addHazard now suffix draft st
    = (Some h, mkStore (hazards st ++ [h]) (notified st ++ [hazardAdded h]))
    /\ geometry h = Polygon ring /\ type h = ty.
Proof.
  unfold addHazard. rewrite Htype, Hgeometry, Hprops.
  destruct (String.eqb_spec ty "") as [E|_]; [contradiction|].
  rewrite (existsb_all_false _ _ (duplicateOf_polygon ring ty)).
  eexists. split; [reflexivity|]. split; reflexivity.
Qed.

(** C3.  A Point draft B of the same kind as a stored Point hazard A less
    than 100 m away is rejected: [addHazard] returns null and leaves the
    store as it was, hazards and notifications alike, so B is neither
    stored nor merged and no [hazardAdded] goes out. *)
Theorem C3_near_duplicate_rejected
        (now : Z) (suffix : string) (st : Store) (A : Hazard)
        (B : HazardDraft) (ca cb : JS.num * JS.num)
        (HA : In A (hazards st)) (HgA : geometry A = Point ca)
        (HgB : d_geometry B = Some (Point cb))
        (Hkind : d_type B = Some (type A))
        (Hnear : JS.ltb (haversineDistance (toLatLng ca) (toLatLng cb))
                        (JS.of_Z 100) = true) :
  addHazard now suffix B st = (None, st).
Proof.
  unfold addHazard. rewrite Hkind, HgB.
  destruct (d_properties B) as [props|]; [|reflexivity].
  destruct (type A =? "") eqn:Ety; [reflexivity|].
  destruct cb as [lng lat].
  match goal with |- (if ?c then _ else _) = _ => destruct c end;
    [reflexivity|].
  assert (Hdup : existsb (duplicateOf (Point (lng, lat)) (type A)) (hazards st)
                 = true).
  { apply existsb_exists. exists A. split; [exact HA|].
    unfold duplicateOf. rewrite HgA, Hnear, String.eqb_refl. reflexivity. }
  rewrite Hdup. reflexivity.
Qed.

(** The expiry sweep is a filter: a stored hazard survives exactly when it
    is younger than five minutes or its id begins with [risk-]. *)
Lemma expirySweep_spec (now : Z) (st : Store) (h : Hazard) :
  In h (hazards (expirySweep now st)) <->
  In h (hazards st)
  /\ ((updatedAt (properties h) > now - 300000)%Z
      \/ String.prefix "risk-" (id h) = true).
Proof.
  unfold expirySweep. simpl. rewrite filter_In.
  rewrite orb_true_iff, Z.gtb_gt.
  replace (now - 5 * 60 * 1000)%Z with (now - 300000)%Z by lia.
  reflexivity.
Qed.

Lemma expirySweep_silent (now : Z) (st : Store) :
  notified (expirySweep now st) = notified st.
Proof. reflexivity. Qed.

(** C2, as the code has it.  The retention window is five minutes: a
    stored hazard that is not a RiskArea and whose id does not begin with
    [risk-] is removed by the sweep exactly when its [updatedAt] is five
    minutes old or older.  A RiskArea whose id begins with [risk-], as the
    ids of all the built-in RiskArea zones do, survives every sweep
    whatever its age. *)
Theorem C2_expiry_sweep_five_minutes
        (now : Z) (st : Store) (h : Hazard) (Hin : In h (hazards st)) :
  (type h <> "riskArea" -> String.prefix "risk-" (id h) = false ->
   (~ In h (hazards (expirySweep now st))
    <-> (updatedAt (properties h) <= now - 5 * 60 * 1000)%Z))
  /\ (type h = "riskArea" -> String.prefix "risk-" (id h) = true ->
      In h (hazards (expirySweep now st)))
  /\ (forall t0, In h (MOCK_HAZARDS t0) -> type h = "riskArea" ->
      String.prefix "risk-" (id h) = true).
Proof.
  split; [|split].
  - intros _ Hid. rewrite expirySweep_spec, Hid.
    replace (now - 5 * 60 * 1000)%Z with (now - 300000)%Z by lia.
    split; intro H.
    + destruct (Z_le_gt_dec (updatedAt (properties h)) (now - 300000))
        as [Hle|Hgt]; [exact Hle|].
      exfalso. apply H. auto.
    + intros [_ [Hgt|Hf]]; [lia | discriminate].
  - intros _ Hid. apply expirySweep_spec. auto.
  - intros t0 Hmock Hty. simpl in Hmock.
    repeat (destruct Hmock as [<-|Hmock]; [first [reflexivity | discriminate Hty]|]).
    contradiction.
Qed.

End HazardStoreFacts.

(** ** The routing engine *)

Ltac js_unfold :=
  cbv beta iota delta
      [JS.leb JS.ltb JS.gtb JS.geb JS.add JS.sub JS.neg JS.mul JS.div
       JS.of_Z JS.inf_signed JS.isNaN JS.isInfinite JS.max JS.min JS.floor
       JS.equiv RoutingService.HAZARD_BUFFER_METERS] in *.

Lemma Qeq_bool_pos (w : Q) : 0 < w -> Qeq_bool w 0 = false.
Proof.
  intro H. destruct (Qeq_bool w 0) eqn:E; [|reflexivity].
  apply Qeq_bool_eq in E. rewrite E in H. exfalso. apply (Qlt_irrefl 0 H).
Qed.

Lemma q100_nonzero : Qeq_bool (inject_Z 100) 0 = false.
Proof. reflexivity. Qed.

Lemma q100_positive : JS.Qltb (inject_Z 100) 0 = false.
Proof. reflexivity. Qed.

Lemma div_by_100 (d : Q) : d / inject_Z 100 == d * (1 # 100).
Proof. field. Qed.

Lemma scaled_nonneg (w x : Q) :
  0 < w -> x <= inject_Z 100 -> 0 <= w * (1 + - (x * (1 # 100))).
Proof.
  intros Hw Hx. unfold inject_Z in Hx.
  apply Qmult_le_0_compat; lra.
Qed.

Lemma scaled_antitone (w x y : Q) :
  0 < w -> x <= y ->
  w * (1 + - (y * (1 # 100))) <= w * (1 + - (x * (1 # 100))).
Proof.
  intros Hw Hxy. apply Qmult_le_l; [exact Hw | lra].
Qed.

Section RoutingFacts.
Import HazardService RoutingService.
Context {M : MathLib}.
Local Open Scope string_scope.

(** The weight of a type that is a key of [SAFETY_WEIGHTS], or that is no
    property of it at all, is a positive number. *)
Lemma weightOf_positive (ty : string) :
  inherited ty = false -> exists w, weightOf ty = JS.Fin w /\ 0 < w.
Proof.
  intro Hown. unfold weightOf, SAFETY_WEIGHTS. rewrite Hown.
  repeat match goal with
         | |- context [String.eqb ?a ?b] => destruct (String.eqb a b)
         end;
    eexists; (split; [reflexivity | reflexivity]).
Qed.

(** The weight of a type that names an inherited property is no number. *)
Lemma weightOf_inherited (ty : string) :
  inherited ty = true -> weightOf ty = JS.NaN.
Proof.
  unfold inherited, Object_prototype. cbn [existsb]. intro H.
  repeat (apply orb_true_iff in H; destruct H as [H|H];
          [apply String.eqb_eq in H; subst ty; reflexivity|]).
  discriminate H.
Qed.

(** The penalty of a Point hazard of weight [w] at distance [d] from the
    route, as [penaltyStep] adds it to a total of zero. *)
Local Abbreviation penalty w d :=
  (if JS.leb d HAZARD_BUFFER_METERS
   then JS.add (JS.of_Z 0)
               (JS.mul w (JS.sub (JS.of_Z 1) (JS.div d HAZARD_BUFFER_METERS)))
   else JS.of_Z 0).

Lemma score_single_point (route : Route) (h : Hazard) c :
  geometry h = Point c ->
  calculateSafetyScore route [h]
  = penalty (weightOf (type h))
            (getMinDistanceToRoute (toLatLng c) (coordinates route)).
Proof.
  intro Hg. unfold calculateSafetyScore. cbn [fold_left].
  unfold penaltyStep. rewrite Hg. reflexivity.
Qed.

Lemma penalty_formula (w : Q) (d : JS.num) :
  (penalty (JS.Fin w) d
   =~ (if JS.leb d (JS.of_Z 100)
       then JS.mul (JS.Fin w) (JS.sub (JS.of_Z 1) (JS.div d (JS.of_Z 100)))
       else JS.of_Z 0))%num.
Proof.
  change HAZARD_BUFFER_METERS with (JS.of_Z 100).
  destruct (JS.leb d (JS.of_Z 100)); [apply add_zero_l | apply equiv_refl].
Qed.

Lemma penalty_monotone (w : Q) (d1 d2 : JS.num) :
  0 < w -> JS.leb d1 d2 = true ->
  JS.leb (penalty (JS.Fin w) d2) (penalty (JS.Fin w) d1) = true.
Proof.
  intros Hw Hle.
  pose proof div_by_100 as E.
  destruct d1 as [| | |a], d2 as [| | |b]; js_unfold; try discriminate;
    rewrite ?q100_nonzero, ?q100_positive, ?(Qeq_bool_pos Hw);
    rewrite ?(proj2 (Qltb_lt 0 w) Hw); cbv beta iota delta [Bool.eqb];
    try reflexivity.
  all: repeat match goal with
       | |- context [Qle_bool ?x ?y] =>
           let C := fresh "C" in
           destruct (Qle_bool x y) eqn:C;
           [apply Qle_bool_iff in C | apply Qle_bool_false in C]
       end; try reflexivity; try discriminate.
  all: try (apply Qle_bool_iff in Hle; pose proof (scaled_antitone Hw Hle)).
  all: repeat match goal with
       | H : ?x <= inject_Z 100 |- _ =>
           pose proof (scaled_nonneg Hw H); revert H
       end; intros.
  all: exfalso; rewrite ?E in *; unfold inject_Z in *; lra.
Qed.

Lemma penalty_at_route (w : Q) (d : JS.num) :
  (d =~ JS.of_Z 0)%num -> (penalty (JS.Fin w) d =~ JS.Fin w)%num.
Proof.
  pose proof div_by_100 as E.
  destruct d as [| | |a]; js_unfold; try contradiction.
  intro H. rewrite q100_nonzero.
  destruct (Qle_bool a (inject_Z 100)) eqn:C.
  - rewrite E, H. unfold inject_Z. ring.
  - apply Qle_bool_false in C. rewrite H in C. unfold inject_Z in C.
    exfalso. apply (Qlt_not_le _ _ C). discriminate.
Qed.

Lemma penalty_at_buffer_edge (w : Q) (d : JS.num) :
  (d =~ JS.of_Z 100)%num -> (penalty (JS.Fin w) d =~ JS.of_Z 0)%num.
Proof.
  pose proof div_by_100 as E.
  destruct d as [| | |a]; js_unfold; try contradiction.
  intro H. rewrite q100_nonzero.
  destruct (Qle_bool a (inject_Z 100)) eqn:C.
  - rewrite E, H. unfold inject_Z. ring.
  - reflexivity.
Qed.

(** C4.  For a fixed route and a single Point hazard at minimum distance
    [d] from it, whose type is a hazard kind (or any text that is not the
    name of a property [SAFETY_WEIGHTS] inherits), the score is
    [kindWeight * (1 - d/100)] when [d] is at most the 100 m buffer and 0
    beyond it; it is the full kind weight at distance 0 and zero at the
    buffer edge; and a hazard of the same kind that is farther from the
    route never scores more. *)
Theorem C4_point_hazard_contribution
        (route : Route) (h : Hazard) (c : JS.num * JS.num)
        (Hpoint : geometry h = Point c)
        (Hkind : inherited (type h) = false) :
  let d := getMinDistanceToRoute (toLatLng c) (coordinates route) in
  let w := weightOf (type h) in
  (calculateSafetyScore route [h]
   =~ (if JS.leb d (JS.of_Z 100)
       then JS.mul w (JS.sub (JS.of_Z 1) (JS.div d (JS.of_Z 100)))
       else JS.of_Z 0))%num
  /\ ((d =~ JS.of_Z 0)%num -> (calculateSafetyScore route [h] =~ w)%num)
  /\ ((d =~ JS.of_Z 100)%num ->
      (calculateSafetyScore route [h] =~ JS.of_Z 0)%num)
  /\ (forall (h' : Hazard) (c' : JS.num * JS.num),
        geometry h' = Point c' -> type h' = type h ->
        JS.leb d (getMinDistanceToRoute (toLatLng c') (coordinates route))
        = true ->
        JS.leb (calculateSafetyScore route [h'])
               (calculateSafetyScore route [h]) = true).
Proof.
  intros d w. subst d w.
  destruct (weightOf_positive (type h) Hkind) as [w [Ew Hw]].
  rewrite (score_single_point route h Hpoint), Ew.
  split; [apply penalty_formula|].
  split; [apply penalty_at_route|].
  split; [apply penalty_at_buffer_edge|].
  intros h' c' Hpoint' Hty Hle.
  rewrite (score_single_point route h' Hpoint'), Hty, Ew.
  apply penalty_monotone; assumption.
Qed.

Lemma haversine_not_infinite (a b : LatLng) :
  JS.isInfinite (haversineDistance a b) = false.
Proof.
  unfold haversineDistance. cbv zeta.
  match goal with
  | |- context [Math_atan2 ?y ?x] =>
      pose proof (Math_atan2_finite y x) as Hfin;
      destruct (Math_atan2 y x)
  end; try discriminate; reflexivity.
Qed.

Lemma waypointLoop_terminates (d : JS.num) :
  JS.isInfinite d = false ->
  exists n,
    waypointLoopCount (JS.max (JS.of_Z 2) (JS.floor (JS.div d (JS.of_Z 1000))))
    = Some n.
Proof.
  destruct d as [| | |q]; try discriminate; intros _.
  - exists 0%nat. reflexivity.
  - unfold JS.div, JS.of_Z.
    change (Qeq_bool (inject_Z 1000) 0) with false. cbv iota.
    unfold JS.floor, JS.max, JS.isNaN. cbv iota. cbn [orb].
    destruct (JS.ltb _ _); eexists; reflexivity.
Qed.

Lemma fallback_total (start end_ : LatLng) :
  exists fb, createFallbackRoute start end_ = Some fb /\ trackable fb.
Proof.
  unfold createFallbackRoute. cbv zeta.
  destruct (waypointLoop_terminates _ (haversine_not_infinite start end_))
    as [n Hn].
  rewrite Hn.
  eexists. split; [reflexivity|].
  unfold trackable. cbn [coordinates].
  rewrite !length_app, length_map, length_seq. cbn [List.length]. lia.
Qed.

Lemma parseFeatures_trackable (features : list Feature) :
  Forall (fun f => (2 <= List.length (f_coordinates f))%nat) features ->
  forall index, Forall trackable (parseFeatures index features).
Proof.
  induction 1 as [|f fs Hf Hfs IH]; intro index; cbn [parseFeatures].
  - constructor.
  - constructor; [|apply IH].
    unfold trackable, parseFeature. cbn [coordinates].
    rewrite length_map. exact Hf.
Qed.

Lemma scored_sorted_trackable (hazards : list Hazard) (routes : list Route) :
  Forall trackable routes ->
  Forall trackable
    (sortBy compareRoutes
       (map (fun route =>
               withSafetyScore route (calculateSafetyScore route hazards))
            routes)).
Proof.
  intro H. apply sortBy_Forall. apply Forall_map.
  eapply Forall_impl; [|exact H]. intros r Hr. exact Hr.
Qed.

Lemma scored_sorted_nonempty (hazards : list Hazard) (routes : list Route) :
  routes <> [] ->
  sortBy compareRoutes
    (map (fun route =>
            withSafetyScore route (calculateSafetyScore route hazards))
         routes) <> [].
Proof.
  intros Hne Hnil. apply (f_equal (@List.length Route)) in Hnil.
  rewrite sortBy_length, length_map in Hnil.
  destruct routes; [contradiction | discriminate].
Qed.

Lemma cacheGet_ok (k : CacheKey) (cache : Cache) (v : list Route) :
  cacheOk cache -> cacheGet k cache = Some v ->
  v <> [] /\ Forall trackable v.
Proof.
  induction 1 as [|[k' v'] rest Hkv Hrest IH]; cbn [cacheGet]; [discriminate|].
  destruct (keyEqb k k'); [|exact IH].
  intro E. injection E as <-. exact Hkv.
Qed.

Lemma cacheSet_ok (k : CacheKey) (v : list Route) (cache : Cache) :
  cacheOk cache -> v <> [] -> Forall trackable v ->
  cacheOk (cacheSet k v cache).
Proof.
  intros Hc Hne Hv.
  induction Hc as [|[k' v'] rest Hkv Hrest IH]; cbn [cacheSet].
  - constructor; [split; assumption | constructor].
  - destruct (keyEqb k k'); constructor; try assumption.
    split; assumption.
Qed.

Lemma getRouteOptions_ok (cache : Cache) (start end_ : LatLng)
      (response : ProviderResponse) :
  cacheOk cache -> responseOk response ->
  exists routes cache' shared,
    getRouteOptions cache start end_ response = Some (routes, cache', shared)
    /\ routes <> [] /\ Forall trackable routes /\ cacheOk cache'.
Proof.
  intros Hc Hr. unfold getRouteOptions. cbv zeta.
  destruct (cacheGet (cacheKey start end_) cache) as [v|] eqn:G.
  - destruct (cacheGet_ok _ Hc G) as [Hne Hv].
    exists v, cache, true. auto.
  - destruct (fallback_total start end_) as [fb [Efb Hfb]].
    assert (Hone : [fb] <> [] /\ Forall trackable [fb]).
    { split; [discriminate | constructor; [exact Hfb | constructor]]. }
    destruct response as [|features].
    + rewrite Efb. exists [fb], cache, false. tauto.
    + destruct (parseORSResponse features) as [|r rs] eqn:P.
      * rewrite Efb. exists [fb], (cacheSet (cacheKey start end_) [fb] cache), true.
        split; [reflexivity|]. split; [tauto|]. split; [tauto|].
        apply cacheSet_ok; tauto.
      * assert (Hrs : Forall trackable (r :: rs)).
        { rewrite <- P. destruct features as [fs|]; [|constructor].
          apply parseFeatures_trackable. exact Hr. }
        exists (r :: rs), (cacheSet (cacheKey start end_) (r :: rs) cache), true.
        split; [reflexivity|]. split; [discriminate|]. split; [exact Hrs|].
        apply cacheSet_ok; [exact Hc | discriminate | exact Hrs].
Qed.

(** C6, as the code has it.  [getBestRoute] returns, and the route it
    returns has at least 2 coordinates, whenever every route the provider
    supplied has: in its answer to this request, if it is asked, and in the
    arrays cached from earlier answers.  The provider's coordinate lists
    are passed on as they come.  The fallback polyline, which is what
    provider failure and an answer without routes lead to, always has at
    least 2 waypoints. *)
Theorem C6_best_route_has_two_coordinates
        (cache : Cache) (start end_ : LatLng) (hazards : list Hazard)
        (response : ProviderResponse)
        (Hcache : cacheOk cache) (Hresponse : responseOk response) :
  (exists route cache',
      getBestRoute cache start end_ hazards response
      = Some (Some route, cache')
      /\ (2 <= List.length (coordinates route))%nat
      /\ cacheOk cache')
  /\ (exists fb,
         createFallbackRoute start end_ = Some fb
         /\ (2 <= List.length (coordinates fb))%nat).
Proof.
  split; [|apply fallback_total].
  unfold getBestRoute.
  destruct (getRouteOptions_ok start end_ response Hcache Hresponse)
    as (routes & cache1 & shared & E & Hne & Hall & Hc1).
  rewrite E. cbv zeta.
  pose proof (scored_sorted_trackable hazards Hall) as Hsorted.
  pose proof (scored_sorted_nonempty hazards Hne) as Hsne.
  destruct (sortBy compareRoutes _) as [|best rest] eqn:S; [contradiction|].
  exists best. eexists. split; [reflexivity|].
  split; [exact (Forall_inv Hsorted)|].
  destruct shared; [|exact Hc1].
  apply cacheSet_ok; [exact Hc1 | discriminate | exact Hsorted].
Qed.

End RoutingFacts.

(** ** The navigation controller *)

Section NavigationFacts.
Import NavigationController.
Context {M : MathLib}.

Ltac nav_simpl :=
  cbn [isNavigating currentRoute destination currentPosition watchId
       navigationStats settings lastRerouteTime isRerouting notified
       set_isNavigating set_currentRoute set_destination set_currentPosition
       set_watchId set_navigationStats set_lastRerouteTime set_isRerouting
       notifyListeners stopNavigation handleDestinationReached fst snd] in *.

Lemma countRerouting_app (l l' : list NavEvent) :
  countRerouting (l ++ l') = (countRerouting l + countRerouting l')%nat.
Proof. unfold countRerouting. rewrite filter_app, length_app. reflexivity. Qed.

(** What [updateNavigationStats] leaves alone: everything but the stats. *)
Lemma stats_frame (hz : HazardService.Store) (s : Controller) :
  let u := updateNavigationStats hz s in
  notified u = notified s /\ lastRerouteTime u = lastRerouteTime s
  /\ settings u = settings s /\ isRerouting u = isRerouting s
  /\ destination u = destination s /\ isNavigating u = isNavigating s
  /\ currentRoute u = currentRoute s.
Proof.
  unfold updateNavigationStats.
  destruct (currentRoute s) eqn:Er, (currentPosition s) eqn:Ep; cbv zeta;
    nav_simpl; repeat split; first [reflexivity | assumption].
Qed.

(** The tail of a position update neither touches the reroute lock and
    clock nor announces a reroute. *)
Lemma tail_frame (hz : HazardService.Store) (p : LatLng)
      (prev : option LatLng) (off : bool) (s : Controller) :
  let t := positionUpdateTail hz p prev off s in
  lastRerouteTime t = lastRerouteTime s /\ settings t = settings s
  /\ isRerouting t = isRerouting s
  /\ countRerouting (notified t) = countRerouting (notified s).
Proof.
  unfold positionUpdateTail.
  destruct (stats_frame hz s) as (Hn & Ht & Hs & Hr & Hd & _).
  cbv zeta in *.
  destruct (destination (updateNavigationStats hz s)) as [dest|].
  - destruct (JS.ltb _ _); nav_simpl;
      rewrite ?countRerouting_app, Hn, Ht, Hs, Hr; cbn; repeat split; lia.
  - rewrite Hn, Ht, Hs, Hr. repeat split; reflexivity.
Qed.

(** The reroute lock on the deviation path: while [isRerouting] is set, a
    position update starts no route computation and announces none. *)
Lemma deviation_respects_lock (hz : HazardService.Store) (now : Z)
      (p : LatLng) (s : Controller) :
  isRerouting s = true ->
  let r := handlePositionUpdate hz now p s in
  snd r = None
  /\ countRerouting (notified (fst r)) = countRerouting (notified s).
Proof.
  intro Hlock. unfold handlePositionUpdate.
  destruct (isNavigating s); cbn [negb]; [|split; reflexivity].
  destruct (currentRoute s) as [route|]; [|split; reflexivity].
  cbv zeta. nav_simpl. rewrite Hlock. cbn [negb]. rewrite andb_false_r.
  nav_simpl. split; [reflexivity|].
  match goal with
  | |- context [positionUpdateTail ?h ?a ?b ?c ?d] =>
      destruct (tail_frame h a b c d) as (_ & _ & _ & Hc)
  end.
  cbv zeta in Hc. rewrite Hc. reflexivity.
Qed.

(** The cooldown: a position update that comes before [rerouteDelay] has
    passed since [lastRerouteTime] starts no route computation and
    announces none. *)
Lemma deviation_respects_cooldown (hz : HazardService.Store) (now : Z)
      (p : LatLng) (s : Controller) :
  (now - lastRerouteTime s < rerouteDelay (settings s))%Z ->
  let r := handlePositionUpdate hz now p s in
  snd r = None
  /\ countRerouting (notified (fst r)) = countRerouting (notified s).
Proof.
  intro Hcool. apply Z.ltb_lt in Hcool. unfold handlePositionUpdate.
  destruct (isNavigating s); cbn [negb]; [|split; reflexivity].
  destruct (currentRoute s) as [route|]; [|split; reflexivity].
  cbv zeta. nav_simpl. rewrite Hcool.
  match goal with
  | |- context [positionUpdateTail ?h ?a ?b ?c ?d] =>
      destruct (tail_frame h a b c d) as (_ & _ & _ & Hc)
  end.
  cbv zeta in Hc. nav_simpl.
  destruct (_ && _); nav_simpl; rewrite Hc; split; reflexivity.
Qed.

(** Settling a parked deviation reroute keeps the reroute clock and the
    settings, and announces no reroute. *)
Lemma resume_deviation_frame (hz : HazardService.Store) (watch : option Z)
      (rq : RouteRequest) (p : LatLng) (prev : option LatLng) (off : bool)
      (result : RouteResult) (s : Controller) :
  let s' := resume hz watch (InRouteDeviation rq p prev off) result s in
  lastRerouteTime s' = lastRerouteTime s /\ settings s' = settings s
  /\ countRerouting (notified s') = countRerouting (notified s).
Proof.
  unfold resume.
  match goal with
  | |- context [positionUpdateTail ?h ?a ?b ?c ?d] =>
      destruct (tail_frame h a b c d) as (Ht & Hs & _ & Hc)
  end.
  cbv zeta in *. rewrite Ht, Hs, Hc. clear Ht Hs Hc.
  destruct result as [[newRoute|]|]; nav_simpl.
  - match goal with
    | |- context [updateNavigationStats ?h ?x] =>
        destruct (stats_frame h x) as (Hn & Ht & Hs & _)
    end.
    cbv zeta in *. rewrite ?countRerouting_app, Hn, Ht, Hs. nav_simpl.
    cbn. repeat split; lia.
  - repeat split; reflexivity.
  - rewrite ?countRerouting_app. cbn. repeat split; lia.
Qed.

(** C5.  In an active session with deviationThreshold = 100 m and
    rerouteCooldown = 5 s whose cooldown has run out, a position update
    whose closest-point-on-route distance exceeds 100 m enters Rerouting:
    one ['rerouting'] is announced and one route computation starts.  A
    second position update 2 s later starts none and announces none,
    whether the first computation is still in flight or has settled, with
    whatever result: the count of ['rerouting'] stays at one more than
    before the first update. *)
Theorem C5_reroute_once_within_cooldown
        (hz hz2 hz' : HazardService.Store) (watch : option Z) (now : Z)
        (p1 p2 : LatLng) (s : Controller) (route : Route)
        (result : RouteResult)
        (Hactive : isNavigating s = true)
        (Hroute : currentRoute s = Some route)
        (Hidle : isRerouting s = false)
        (Hthreshold : routeDeviationThreshold (settings s) = JS.of_Z 100)
        (Hdelay : rerouteDelay (settings s) = 5000%Z)
        (Hcooled : (now - lastRerouteTime s >= 5000)%Z)
        (Hoff : JS.gtb (c_distance (findClosestPointOnRoute
                                      p1 (coordinates route)))
                       (JS.of_Z 100) = true) :
  exists s1 k,
    handlePositionUpdate hz now p1 s = (s1, Some k)
    /\ isReroute k = true
    /\ isRerouting s1 = true
    /\ countRerouting (notified s1) = S (countRerouting (notified s))
    /\ (let r2 := handlePositionUpdate hz2 (now + 2000) p2 s1 in
        snd r2 = None
        /\ countRerouting (notified (fst r2))
           = S (countRerouting (notified s)))
    /\ (let s2 := resume hz' watch k result s1 in
        let r2 := handlePositionUpdate hz2 (now + 2000) p2 s2 in
        snd r2 = None
        /\ countRerouting (notified (fst r2))
           = S (countRerouting (notified s))).
Proof.
  assert (Hnot : (now - lastRerouteTime s <? 5000)%Z = false)
    by (apply Z.ltb_ge; lia).
  unfold handlePositionUpdate at 1.
  rewrite Hactive, Hroute. cbn [negb]. cbv zeta. nav_simpl.
  rewrite Hthreshold, Hoff, Hidle, Hdelay, Hnot. cbn [negb andb].
  eexists. eexists. split; [reflexivity|].
  split; [reflexivity|]. split; [reflexivity|].
  assert (Hcount :
    countRerouting (notified s ++ [rerouting]) = S (countRerouting (notified s))).
  { rewrite countRerouting_app. cbn. lia. }
  split; [nav_simpl; exact Hcount|].
  split.
  - match goal with
    | |- context [handlePositionUpdate ?h ?n ?p ?x] =>
        destruct (@deviation_respects_lock h n p x eq_refl) as [Hnone Hc]
    end.
    cbv zeta in *. rewrite Hnone, Hc. nav_simpl. auto.
  - cbv zeta.
    match goal with
    | |- context [resume ?h ?w (InRouteDeviation ?rq ?p ?pv ?o) ?res ?x] =>
        destruct (resume_deviation_frame h w rq p pv o res x) as (Ht & Hs & Hc);
        set (s2 := resume h w (InRouteDeviation rq p pv o) res x) in *
    end.
    cbv zeta in *. nav_simpl.
    assert (Hcool : (now + 2000 - lastRerouteTime s2
                     < rerouteDelay (settings s2))%Z).
    { rewrite Ht, Hs, Hdelay. lia. }
    destruct (deviation_respects_cooldown hz2 (now + 2000) p2 s2 Hcool)
      as [Hnone Hc2].
    cbv zeta in *. rewrite Hnone, Hc2, Hc. auto.
Qed.

(** [forceReroute] does not look at the lock: in every session that is
    navigating with a position and a destination it starts a route
    computation, also when [isRerouting] is already set. *)
Lemma forceReroute_ignores_lock (hz : HazardService.Store) (s : Controller)
      (p d : LatLng) :
  isNavigating s = true -> currentPosition s = Some p ->
  destination s = Some d ->
  exists k, forceReroute hz s = (set_isRerouting true s, Some k)
            /\ isReroute k = true.
Proof.
  intros Hn Hp Hd. unfold forceReroute. rewrite Hn, Hp, Hd.
  eexists. split; reflexivity.
Qed.

(** The clamp of [routeProgress] does its work on every number, and lets
    NaN through. *)
Lemma progressOf_range (remainingDistance routeDistance : JS.num) :
  let x := JS.sub (JS.of_Z 1) (JS.div remainingDistance routeDistance) in
  (JS.isNaN x = false ->
   JS.between (JS.of_Z 0) (JS.of_Z 1)
              (progressOf remainingDistance routeDistance) = true)
  /\ (JS.isNaN x = true ->
      progressOf remainingDistance routeDistance = JS.NaN).
Proof.
  unfold progressOf. cbv zeta.
  destruct (JS.sub _ _) as [| | |q]; split; intro H; try discriminate;
    try reflexivity.
  cbv beta iota delta [JS.between JS.max JS.min JS.isNaN JS.ltb JS.leb
                       JS.of_Z orb].
  destruct (JS.Qltb q (inject_Z 1)) eqn:C1; cbv beta iota; [|reflexivity].
  destruct (JS.Qltb (inject_Z 0) q) eqn:C0; cbv beta iota; [|reflexivity].
  apply Qltb_lt in C0, C1. apply andb_true_iff.
  split; apply Qle_bool_iff; apply Qlt_le_weak; assumption.
Qed.

End NavigationFacts.

(** ** The speed of a position sample *)

Section SpeedFacts.
Context {M : MathLib}.

(** C7.  In the component the application mounts, a sample whose speed is
    present, a number and non-negative keeps that speed.  A sample without
    such a speed gets a derived one only when the time since the previous
    sample is between 0.5 s and 10 s: the distance between the two samples
    over that time, blended as 70% of the previous speed plus 30% of this
    instantaneous speed (taken as it is when there is no previous speed to
    blend with).  Outside that interval nothing is derived and the
    previous speed is carried over. *)
Theorem C7_speed_of_sample
        (pos : PositionSample) (last : SmartRoadSafetyWithRouting.LastPos) :
  let next := mkLatLng (latitude pos) (longitude pos) in
  let dt := JS.div (JS.sub (timestamp pos) (SmartRoadSafetyWithRouting.ts last))
                   (JS.of_Z 1000) in
  let instantaneous :=
    JS.div (haversineDistance (SmartRoadSafetyWithRouting.p last) next) dt in
  let usable := fun v => negb (JS.isNaN v) && JS.geb v (JS.of_Z 0) in
  (forall v lastPos,
      speed pos = Some v -> usable v = true ->
      SmartRoadSafetyWithRouting.speedMS pos lastPos = Some v)
  /\ ((forall v, speed pos = Some v -> usable v = false) ->
      (JS.gtb dt (JS.Fin 0.5) && JS.ltb dt (JS.of_Z 10) = true ->
       SmartRoadSafetyWithRouting.speedMS pos (Some last)
       = Some (match SmartRoadSafetyWithRouting.lastSpeed last with
               | Some previous =>
                   JS.add (JS.mul previous (JS.Fin 0.7))
                          (JS.mul instantaneous (JS.Fin 0.3))
               | None => instantaneous
               end))
      /\ (JS.gtb dt (JS.Fin 0.5) && JS.ltb dt (JS.of_Z 10) = false ->
          SmartRoadSafetyWithRouting.speedMS pos (Some last)
          = Some (match SmartRoadSafetyWithRouting.lastSpeed last with
                  | Some previous => JS.or_else previous (JS.of_Z 0)
                  | None => JS.of_Z 0
                  end))).
Proof.
  cbv zeta. split.
  - intros v lastPos Hv Hok.
    unfold SmartRoadSafetyWithRouting.speedMS,
           SmartRoadSafetyWithRouting.deviceSpeed.
    rewrite Hv, Hok. reflexivity.
  - intro Hno.
    assert (Hdev : SmartRoadSafetyWithRouting.deviceSpeed pos = None).
    { unfold SmartRoadSafetyWithRouting.deviceSpeed.
      destruct (speed pos) as [v|]; [|reflexivity].
      rewrite (Hno v eq_refl). reflexivity. }
    unfold SmartRoadSafetyWithRouting.speedMS. rewrite Hdev. cbv zeta.
    split; intro Hdt; rewrite Hdt;
      destruct (SmartRoadSafetyWithRouting.lastSpeed last); reflexivity.
Qed.

(** The earlier component, which the application does not mount, has
    neither the sign test nor the blend nor the interval: any speed that is
    a number is kept, and the derived speed is the plain quotient whenever
    the time difference is positive. *)
Lemma earlier_component_speed
      (pos : PositionSample) (last : SmartRoadSafety.LastPos) :
  let next := mkLatLng (latitude pos) (longitude pos) in
  let dt := JS.div (JS.sub (timestamp pos) (SmartRoadSafety.ts last))
                   (JS.of_Z 1000) in
  (forall v lastPos,
      speed pos = Some v -> JS.isNaN v = false ->
      SmartRoadSafety.speedMS pos lastPos = Some v)
  /\ ((forall v, speed pos = Some v -> JS.isNaN v = true) ->
      JS.gtb dt (JS.of_Z 0) = true ->
      SmartRoadSafety.speedMS pos (Some last)
      = Some (JS.div (haversineDistance (SmartRoadSafety.p last) next) dt)).
Proof.
  cbv zeta. unfold SmartRoadSafety.speedMS. split.
  - intros v lastPos Hv Hnan. rewrite Hv, Hnan. reflexivity.
  - intros Hno Hdt. cbv zeta.
    destruct (speed pos) as [v|]; [rewrite (Hno v eq_refl)|]; cbn [negb];
      rewrite Hdt; reflexivity.
Qed.

End SpeedFacts.

(** ** Worked examples *)

Section Examples.
Import HazardService RoutingService NavigationController Scenario.
#[local] Existing Instance ApproxMath.math.
Local Open Scope string_scope.

Local Abbreviation store0 := (HazardService.initial t0).

(** C1: the failing run.  Navigation is under way on the direct route; a
    sample 150 m off the route starts a deviation reroute, which sets the
    lock and is in flight; then [forceReroute] is called.  It is not
    dropped: a second route computation is in flight next to the first. *)
Theorem C1_forceReroute_overlaps_reroute_in_flight :
  isRerouting (ctl deviated) = true
  /\ reroutesInFlight deviated = 1%nat
  /\ reroutesInFlight forced = 2%nat.
Proof. vm_compute. repeat split; reflexivity. Qed.

(** C2 fails as stated.  A risk area reported through [addHazard] gets an
    id that begins with [riskArea-], and the sweep removes it once it is
    five minutes old; and an accident is removed after six minutes, well
    inside a ten-minute window. *)
Lemma C2_counterexample :
  (In reportedZone (hazards withReportedZone)
   /\ type reportedZone = "riskArea"
   /\ ~ In reportedZone
        (hazards (expirySweep (t0 + 11 * 60 * 1000) withReportedZone)))
  /\ (In acc1 (hazards withReportedZone)
      /\ type acc1 <> "riskArea"
      /\ ~ In acc1
           (hazards (expirySweep (t0 + 6 * 60 * 1000) withReportedZone))).
Proof.
  split; (split; [vm_compute; tauto|]);
    (split; [first [reflexivity | discriminate]|]).
  - intro H. apply expirySweep_spec in H. destruct H as [_ [H|H]].
    + vm_compute in H. discriminate.
    + vm_compute in H. discriminate.
  - intro H. apply expirySweep_spec in H. destruct H as [_ [H|H]].
    + vm_compute in H. discriminate.
    + vm_compute in H. discriminate.
Qed.

Lemma C2_witness :
  In acc1 (hazards store0)
  /\ (In acc1 (hazards (expirySweep (t0 + 299999) store0))
      /\ ~ In acc1 (hazards (expirySweep (t0 + 300000) store0)))
  /\ In (nth 8 (MOCK_HAZARDS t0) acc1)
        (hazards (expirySweep (t0 + 86400000) store0)).
Proof.
  assert (Hin : In acc1 (hazards store0)) by (left; reflexivity).
  assert (Hzone : In (nth 8 (MOCK_HAZARDS t0) acc1) (hazards store0))
    by (vm_compute; tauto).
  split; [exact Hin|]. split.
  - destruct (C2_expiry_sweep_five_minutes
                (t0 + 300000) store0 acc1 Hin)
      as [Hold _].
    split.
    + apply expirySweep_spec. split; [exact Hin|]. left.
      vm_compute. reflexivity.
    + apply Hold; [discriminate | reflexivity | vm_compute; discriminate].
  - destruct (C2_expiry_sweep_five_minutes
                (t0 + 86400000) store0
                (nth 8 (MOCK_HAZARDS t0) acc1) Hzone) as (_ & Hkeep & _).
    apply Hkeep; reflexivity.
Defined.

Lemma C3_witness :
  In acc1 (hazards store0)
  /\ JS.ltb (haversineDistance
               (toLatLng (JS.Fin 72.8777, JS.Fin 19.0760))
               (toLatLng (JS.Fin 72.8777, JS.Fin 19.0765)))
            (JS.of_Z 100) = true
  /\ addHazard (t0 + 1000) "k3x9q2m1z" nearbyAccident store0
     = (None, HazardService.initial t0).
Proof.
  assert (Hin : In acc1 (hazards store0)) by (left; reflexivity).
  assert (Hnear : JS.ltb (haversineDistance
                            (toLatLng (JS.Fin 72.8777, JS.Fin 19.0760))
                            (toLatLng (JS.Fin 72.8777, JS.Fin 19.0765)))
                         (JS.of_Z 100) = true)
    by (vm_compute; reflexivity).
  split; [exact Hin|]. split; [exact Hnear|].
  exact (C3_near_duplicate_rejected (t0 + 1000) "k3x9q2m1z" store0
           acc1 nearbyAccident Hin eq_refl eq_refl eq_refl Hnear).
Defined.

Lemma C4_witness :
  geometry acc1 = Point (JS.Fin 72.8777, JS.Fin 19.0760)
  /\ (calculateSafetyScore directRoute [acc1] =~ JS.of_Z 30)%num.
Proof.
  split; [reflexivity|].
  destruct (C4_point_hazard_contribution directRoute acc1 eq_refl eq_refl)
    as (_ & Hfull & _).
  apply Hfull. vm_compute. reflexivity.
Defined.

Lemma C5_witness :
  JS.gtb (c_distance (findClosestPointOnRoute offRoute
                                               (coordinates directRoute)))
         (JS.of_Z 100) = true
  /\ exists s1 k,
       handlePositionUpdate emptyStore (t0 + 2000) offRoute active
       = (s1, Some k)
       /\ countRerouting (notified s1) = 1%nat
       /\ snd (handlePositionUpdate emptyStore (t0 + 4000) offRoute s1) = None
       /\ countRerouting
            (notified (fst (handlePositionUpdate emptyStore (t0 + 4000) offRoute
                              (resume emptyStore None k Rejected s1))))
          = 1%nat.
Proof.
  assert (Hoff : JS.gtb (c_distance (findClosestPointOnRoute offRoute
                                       (coordinates directRoute)))
                        (JS.of_Z 100) = true)
    by (vm_compute; reflexivity).
  split; [exact Hoff|].
  assert (Hcooled : (t0 + 2000 - lastRerouteTime active >= 5000)%Z)
    by (vm_compute; discriminate).
  destruct (C5_reroute_once_within_cooldown emptyStore emptyStore emptyStore
              None (t0 + 2000) offRoute offRoute active Rejected
              eq_refl eq_refl eq_refl eq_refl eq_refl Hcooled Hoff)
    as (s1 & k & E & _ & _ & Hc & [Hnone _] & [_ Hlater]).
  exists s1, k.
  replace (t0 + 4000)%Z with (t0 + 2000 + 2000)%Z by lia.
  repeat split; assumption.
Defined.

(** C6 fails as stated: the provider answers with a route of one
    coordinate, and that route is what [getBestRoute] returns. *)
Lemma C6_counterexample :
  match getBestRoute [] mumbaiCentre sion [] degenerateAnswer with
  | Some (Some route, _) => List.length (coordinates route) = 1%nat
  | _ => False
  end.
Proof. vm_compute. reflexivity. Qed.

Lemma C6_witness :
  cacheOk [] /\ responseOk ProviderError
  /\ exists route cache',
       getBestRoute [] mumbaiCentre sion (hazards store0) ProviderError
       = Some (Some route, cache')
       /\ (2 <= List.length (coordinates route))%nat.
Proof.
  assert (Hc : cacheOk []) by constructor.
  split; [exact Hc|]. split; [exact I|].
  destruct (C6_best_route_has_two_coordinates mumbaiCentre sion
              (hazards store0) ProviderError Hc I)
    as [(route & cache' & E & Hlen & _) _].
  exists route, cache'. split; assumption.
Defined.

Lemma C7_witness :
  (forall v, speed sampleWithoutSpeed = Some v ->
             negb (JS.isNaN v) && JS.geb v (JS.of_Z 0) = false)
  /\ SmartRoadSafetyWithRouting.speedMS sampleWithoutSpeed (Some previousSample)
     = Some (JS.add (JS.mul (JS.of_Z 10) (JS.Fin 0.7))
                    (JS.mul (JS.div (haversineDistance
                                       mumbaiCentre
                                       (mkLatLng (JS.Fin 19.0762)
                                                 (JS.Fin 72.8777)))
                                    (JS.div (JS.sub (JS.of_Z 2000) (JS.of_Z 0))
                                            (JS.of_Z 1000)))
                            (JS.Fin 0.3))).
Proof.
  assert (Hno : forall v, speed sampleWithoutSpeed = Some v ->
                          negb (JS.isNaN v) && JS.geb v (JS.of_Z 0) = false)
    by (intros v Hv; discriminate Hv).
  split; [exact Hno|].
  destruct (C7_speed_of_sample sampleWithoutSpeed previousSample)
    as [_ Hderived].
  destruct (Hderived Hno) as [Hblend _].
  apply Hblend. vm_compute. reflexivity.
Defined.

(** C8: the failing run.  Navigation is started with the destination at
    the current position while the provider is down.  The fallback route
    has distance 0 and nothing remains to be driven, so the progress is
    0/0 under the clamp: NaN, which is not in [[0, 1]]. *)
Theorem C8_route_progress_not_a_number :
  isNavigating (ctl startedOnTheSpot) = true
  /\ match currentRoute (ctl startedOnTheSpot) with
     | Some route => JS.eqb (distance route) (JS.of_Z 0) = true
     | None => False
     end
  /\ routeProgress (navigationStats (ctl startedOnTheSpot)) = Some JS.NaN
  /\ JS.between (JS.of_Z 0) (JS.of_Z 1) JS.NaN = false.
Proof. vm_compute. repeat split; reflexivity. Qed.

Lemma C10_witness :
  d_type wildPolygon = Some "riskArea"
  /\ addHazard t0 "k3x9q2m1z" wildPolygon store0
     = (Some reportedZone,
        mkStore (hazards store0 ++ [reportedZone])
                [hazardAdded reportedZone]).
Proof.
  split; [reflexivity|].
  destruct (C10_polygon_draft_accepted t0 "k3x9q2m1z" store0 wildPolygon
              eq_refl ltac:(discriminate) eq_refl eq_refl)
    as (h & E & _ & _).
  assert (Eh : h = reportedZone).
  { pose proof E as E'. vm_compute in E'. injection E' as E' _.
    symmetry. exact E'. }
  subst h. exact E.
Defined.

End Examples.

(* ================================================================== *)
(** * Further properties of the code *)
(* ================================================================== *)

(** ** Order on numbers *)

Ltac q_props :=
  repeat match goal with
         | H : JS.Qltb _ _ = true |- _ => apply Qltb_lt in H
         | H : JS.Qltb _ _ = false |- _ => apply Qltb_ge in H
         | H : Qle_bool _ _ = true |- _ => apply Qle_bool_iff in H
         | H : Qle_bool _ _ = false |- _ => apply Qle_bool_false in H
         | H : Qeq_bool _ _ = true |- _ => apply Qeq_bool_iff in H
         | H : Qeq_bool _ _ = false |- _ => apply Qeq_bool_neq in H
         | |- JS.Qltb _ _ = true => apply Qltb_lt
         | |- JS.Qltb _ _ = false => apply Qltb_ge
         | |- Qle_bool _ _ = true => apply Qle_bool_iff
         | |- Qle_bool _ _ = false => apply Qle_bool_false
         | |- Qeq_bool _ _ = true => apply Qeq_bool_iff
         end.

Ltac num_order :=
  cbv beta iota delta [JS.leb JS.ltb JS.gtb JS.geb JS.isNaN JS.isInfinite
                       JS.between JS.max JS.min JS.eqb andb orb negb] in *;
  try discriminate; try reflexivity; q_props; try lra.

Lemma leb_refl (x : JS.num) : JS.isNaN x = false -> JS.leb x x = true.
Proof. destruct x; intro H; num_order. Qed.

Lemma leb_trans (x y z : JS.num) :
  JS.leb x y = true -> JS.leb y z = true -> JS.leb x z = true.
Proof. destruct x, y, z; intros H1 H2; num_order. Qed.

Lemma ltb_leb (x y : JS.num) : JS.ltb x y = true -> JS.leb x y = true.
Proof. destruct x, y; intro H; num_order. Qed.

Lemma ltb_leb_trans (x y z : JS.num) :
  JS.ltb x y = true -> JS.leb y z = true -> JS.ltb x z = true.
Proof. destruct x, y, z; intros H1 H2; num_order. Qed.

Lemma not_ltb_leb (x y : JS.num) :
  JS.isNaN x = false -> JS.isNaN y = false ->
  JS.ltb x y = false -> JS.leb y x = true.
Proof. destruct x, y; intros Hx Hy H; num_order. Qed.

Lemma leb_not_nan (x y : JS.num) :
  JS.leb x y = true -> JS.isNaN x = false /\ JS.isNaN y = false.
Proof. destruct x, y; intro H; split; num_order. Qed.

Lemma ltb_not_nan (x y : JS.num) :
  JS.ltb x y = true -> JS.isNaN x = false /\ JS.isNaN y = false.
Proof. destruct x, y; intro H; split; num_order. Qed.

(** [clamp] puts every number between its bounds; only NaN passes. *)
Lemma clamp_between (n lo hi : JS.num) :
  JS.leb lo hi = true -> JS.isNaN n = false ->
  JS.between lo hi (clamp n lo hi) = true.
Proof.
  unfold clamp, JS.between.
  destruct n as [| | |n], lo as [| | |lo], hi as [| | |hi]; intros H1 H2;
    try discriminate;
    cbv beta iota delta [JS.leb JS.ltb JS.isNaN JS.max JS.min orb] in *;
    try discriminate; try reflexivity;
    repeat match goal with
           | |- context [JS.Qltb ?a ?b] =>
               let C := fresh "C" in destruct (JS.Qltb a b) eqn:C; cbv iota beta
           end;
    try reflexivity; q_props; try (apply andb_true_iff; split); q_props;
    try lra.
Qed.

Lemma truthy_not_nan (x : JS.num) : JS.truthy x = true -> JS.isNaN x = false.
Proof. destruct x; intro H; try discriminate; reflexivity. Qed.

Lemma or_else_not_nan (x d : JS.num) :
  JS.isNaN d = false -> JS.isNaN (JS.or_else x d) = false.
Proof.
  intro Hd. unfold JS.or_else. destruct (JS.truthy x) eqn:T; [|exact Hd].
  apply truthy_not_nan. exact T.
Qed.

(** ** More on the hazard store *)

Section HazardStoreMore.
Import HazardService.
Context {M : MathLib}.
Local Open Scope string_scope.
Local Open Scope list_scope.

(** What an accepted draft looks like in the store. *)
Lemma addHazard_accepted (now : Z) (suffix : string) (draft : HazardDraft)
      (st st' : Store) (h : Hazard) :
  addHazard now suffix draft st = (Some h, st') ->
  exists ty g props,
    d_type draft = Some ty /\ d_geometry draft = Some g
    /\ d_properties draft = Some props
    /\ type h = ty /\ geometry h = g
    /\ updatedAt (properties h) = now
    /\ severity (properties h)
       = clamp (match dp_severity props with
                | Some s => JS.or_else s (JS.of_Z 1)
                | None => JS.of_Z 1
                end) (JS.of_Z 1) (JS.of_Z 3)
    /\ existsb (duplicateOf g ty) (hazards st) = false
    /\ st' = mkStore (hazards st ++ [h]) (notified st ++ [hazardAdded h]).
Proof.
  unfold addHazard.
  destruct (d_type draft) as [ty|]; [|discriminate].
  destruct (d_geometry draft) as [g|]; [|discriminate].
  destruct (d_properties draft) as [props|]; [|discriminate].
  destruct (ty =? ""); [discriminate|].
  match goal with |- (if ?c then _ else _) = _ -> _ => destruct c end;
    [discriminate|].
  destruct (existsb (duplicateOf g ty) (hazards st)) eqn:D; [discriminate|].
  intro E. injection E as Eh Est. subst h st'.
  exists ty, g, props. repeat split; first [reflexivity | exact D].
Qed.

(** X1.  Whatever severity a draft carries (none, zero, NaN, an infinity,
    a value out of range), the hazard [addHazard] stores has a severity
    between 1 and 3. *)
Theorem addHazard_severity_between_1_and_3
        (now : Z) (suffix : string) (draft : HazardDraft) (st st' : Store)
        (h : Hazard)
        (Hstored : addHazard now suffix draft st = (Some h, st')) :
  JS.between (JS.of_Z 1) (JS.of_Z 3) (severity (properties h)) = true.
Proof.
  destruct (addHazard_accepted _ _ _ _ Hstored)
    as (ty & g & props & _ & _ & _ & _ & _ & _ & Hsev & _).
  rewrite Hsev. apply clamp_between; [reflexivity|].
  destruct (dp_severity props) as [s|]; [|reflexivity].
  apply or_else_not_nan. reflexivity.
Qed.

(** X2.  A Point hazard that [addHazard] stores has its longitude in
    [[-180, 180]] and its latitude in [[-90, 90]]: a Point draft with a
    coordinate that is NaN or out of range is never stored. *)
Theorem addHazard_stored_point_in_range
        (now : Z) (suffix : string) (draft : HazardDraft) (st st' : Store)
        (h : Hazard) (lng lat : JS.num)
        (Hstored : addHazard now suffix draft st = (Some h, st'))
        (Hpoint : geometry h = Point (lng, lat)) :
  JS.between (JS.of_Z (-180)) (JS.of_Z 180) lng = true
  /\ JS.between (JS.of_Z (-90)) (JS.of_Z 90) lat = true.
Proof.
  revert Hstored. unfold addHazard.
  destruct (d_type draft) as [ty|]; [|discriminate].
  destruct (d_geometry draft) as [g|]; [|discriminate].
  destruct (d_properties draft) as [props|]; [|discriminate].
  destruct (ty =? ""); [discriminate|].
  destruct g as [[lng' lat']|ring|other].
  - destruct (JS.isNaN lng') eqn:N1; [discriminate|].
    destruct (JS.isNaN lat') eqn:N2; [discriminate|].
    destruct (JS.ltb lng' (JS.of_Z (-180))) eqn:L1; [discriminate|].
    destruct (JS.gtb lng' (JS.of_Z 180)) eqn:L2; [discriminate|].
    destruct (JS.ltb lat' (JS.of_Z (-90))) eqn:L3; [discriminate|].
    destruct (JS.gtb lat' (JS.of_Z 90)) eqn:L4; [discriminate|].
    cbn [orb].
    destruct (existsb _ _); [discriminate|].
    intro E. injection E as Eh _. subst h. cbn [geometry] in Hpoint.
    injection Hpoint as -> ->.
    unfold JS.between, JS.gtb in *.
    rewrite (not_ltb_leb lng (JS.of_Z (-180)) N1 eq_refl L1),
            (not_ltb_leb (JS.of_Z 180) lng eq_refl N1 L2),
            (not_ltb_leb lat (JS.of_Z (-90)) N2 eq_refl L3),
            (not_ltb_leb (JS.of_Z 90) lat eq_refl N2 L4).
    split; reflexivity.
  - cbn [orb]. destruct (existsb _ _); [discriminate|].
    intro E. injection E as Eh _. subst h. discriminate Hpoint.
  - cbn [orb]. destruct (existsb _ _); [discriminate|].
    intro E. injection E as Eh _. subst h. discriminate Hpoint.
Qed.

Lemma separated_snoc (l : list Hazard) (h : Hazard) :
  separated l ->
  existsb (duplicateOf (geometry h) (type h)) l = false ->
  separated (l ++ [h]).
Proof.
  unfold separated. intros Hl Hh.
  induction Hl as [|a l Ha Hl IH]; cbn [app].
  - constructor; constructor.
  - cbn [existsb] in Hh. apply orb_false_iff in Hh. destruct Hh as [Ha' Hh].
    constructor; [|apply IH; exact Hh].
    apply Forall_app. split; [exact Ha|].
    constructor; [exact Ha' | constructor].
Qed.

Lemma separated_filter (f : Hazard -> bool) (l : list Hazard) :
  separated l -> separated (filter f l).
Proof.
  unfold separated. induction 1 as [|a l Ha Hl IH]; cbn [filter].
  - constructor.
  - destruct (f a); [|exact IH].
    constructor; [|exact IH].
    apply Forall_forall. intros b Hb. apply filter_In in Hb.
    rewrite Forall_forall in Ha. apply Ha. tauto.
Qed.

Lemma removeFirst_spec (hazardId : string) (l : list Hazard) :
  match removeFirst hazardId l with
  | Some (removed, rest) =>
      exists l1 l2,
        l = l1 ++ removed :: l2 /\ rest = l1 ++ l2
        /\ id removed = hazardId
        /\ Forall (fun h => id h <> hazardId) l1
  | None => Forall (fun h => id h <> hazardId) l
  end.
Proof.
  induction l as [|h l IH]; cbn [removeFirst].
  - constructor.
  - destruct (String.eqb_spec (id h) hazardId) as [E|E].
    + exists [], l. repeat split; [exact E | constructor].
    + destruct (removeFirst hazardId l) as [[removed rest]|].
      * destruct IH as (l1 & l2 & -> & -> & Hid & Hl1).
        exists (h :: l1), l2. repeat split; [exact Hid|].
        constructor; assumption.
      * constructor; assumption.
Qed.

Lemma separated_remove (l1 l2 : list Hazard) (h : Hazard) :
  separated (l1 ++ h :: l2) -> separated (l1 ++ l2).
Proof.
  unfold separated. induction l1 as [|a l1 IH]; cbn [app]; intro H.
  - inversion H; assumption.
  - inversion H as [|a' l' Ha Hl]; subst.
    constructor; [|apply IH; exact Hl].
    apply Forall_app in Ha. destruct Ha as [Ha1 Ha2].
    apply Forall_app. split; [exact Ha1|].
    inversion Ha2; assumption.
Qed.

(** X3.  The store's invariant: if no stored Point hazard is a duplicate
    (same type, less than 100 m away) of one stored before it, this is
    still so after [addHazard], after [removeHazard] and after an expiry
    sweep, whatever their arguments and whether or not they change the
    store. *)
Theorem store_stays_separated
        (st : Store) (Hsep : separated (hazards st)) :
  (forall now suffix draft,
      separated (hazards (snd (addHazard now suffix draft st))))
  /\ (forall hazardId, separated (hazards (snd (removeHazard hazardId st))))
  /\ (forall now, separated (hazards (expirySweep now st))).
Proof.
  split; [|split].
  - intros now suffix draft.
    destruct (addHazard now suffix draft st) as [[h|] st'] eqn:E.
    + destruct (addHazard_accepted _ _ _ _ E)
        as (ty & g & props & _ & _ & _ & Hty & Hg & _ & _ & Hdup & ->).
      cbn [snd hazards]. apply separated_snoc; [exact Hsep|].
      rewrite Hty, Hg. exact Hdup.
    + assert (st' = st) as ->; [|exact Hsep].
      revert E. unfold addHazard.
      destruct (d_type draft); [|congruence].
      destruct (d_geometry draft); [|congruence].
      destruct (d_properties draft); [|congruence].
      repeat match goal with
             | |- (if ?c then _ else _) = _ -> _ => destruct c
             end; congruence.
  - intro hazardId. unfold removeHazard.
    pose proof (removeFirst_spec hazardId (hazards st)) as Hr.
    destruct (removeFirst hazardId (hazards st)) as [[removed rest]|];
      [|exact Hsep].
    destruct Hr as (l1 & l2 & El & -> & _ & _).
    cbn [snd hazards notifyListeners]. rewrite El in Hsep.
    exact (separated_remove _ _ _ Hsep).
  - intro now. unfold expirySweep. cbn [hazards].
    apply separated_filter. exact Hsep.
Qed.

Lemma removeFirst_snoc_fresh (h : Hazard) (l : list Hazard) :
  Forall (fun e => id e <> id h) l ->
  removeFirst (id h) (l ++ [h]) = Some (h, l).
Proof.
  induction 1 as [|e l He Hl IH]; cbn [app removeFirst].
  - rewrite String.eqb_refl. reflexivity.
  - destruct (String.eqb_spec (id e) (id h)) as [E|_]; [contradiction|].
    rewrite IH. reflexivity.
Qed.

(** X4.  Insert, then remove.  If [addHazard] stores a hazard under an id
    no stored hazard has, [removeHazard] with that id returns that very
    hazard and leaves the hazard array as it was before the insertion; the
    listeners have been told [hazardAdded], then [hazardRemoved], and
    nothing else. *)
Theorem add_then_remove_restores
        (now : Z) (suffix : string) (draft : HazardDraft) (st st' : Store)
        (h : Hazard)
        (Hstored : addHazard now suffix draft st = (Some h, st'))
        (Hfresh : Forall (fun e => id e <> id h) (hazards st)) :
  removeHazard (id h) st'
  = (Some h,
     mkStore (hazards st)
             (notified st ++ [hazardAdded h; hazardRemoved h])).
Proof.
  destruct (addHazard_accepted _ _ _ _ Hstored)
    as (ty & g & props & _ & _ & _ & _ & _ & _ & _ & _ & ->).
  unfold removeHazard. cbn [hazards notified].
  rewrite (removeFirst_snoc_fresh h Hfresh). unfold notifyListeners. cbn [hazards notified].
  rewrite <- app_assoc. reflexivity.
Qed.

(** X5.  [removeHazard] with an id that no stored hazard has returns null
    and changes nothing; it returns null in no other case. *)
Theorem removeHazard_unknown_id (hazardId : string) (st : Store) :
  (Forall (fun h => id h <> hazardId) (hazards st) ->
   removeHazard hazardId st = (None, st))
  /\ (fst (removeHazard hazardId st) = None ->
      Forall (fun h => id h <> hazardId) (hazards st)).
Proof.
  unfold removeHazard.
  pose proof (removeFirst_spec hazardId (hazards st)) as Hr.
  destruct (removeFirst hazardId (hazards st)) as [[removed rest]|].
  - destruct Hr as (l1 & l2 & El & _ & Hid & _). split.
    + intro Hall. exfalso. rewrite El in Hall.
      apply Forall_app in Hall. destruct Hall as [_ Hall].
      inversion Hall; contradiction.
    + cbn [fst]. discriminate.
  - split; [reflexivity | intros _; exact Hr].
Qed.

(** X6.  When [removeHazard] finds the id, it removes the first hazard
    with that id and only that one: the others stay, in their order, also
    later hazards with the same id; the listeners get one
    [hazardRemoved]. *)
Theorem removeHazard_removes_first_match
        (hazardId : string) (st st' : Store) (removed : Hazard)
        (Hfound : removeHazard hazardId st = (Some removed, st')) :
  exists before after,
    hazards st = before ++ removed :: after
    /\ hazards st' = before ++ after
    /\ id removed = hazardId
    /\ Forall (fun h => id h <> hazardId) before
    /\ notified st' = notified st ++ [hazardRemoved removed].
Proof.
  revert Hfound. unfold removeHazard.
  pose proof (removeFirst_spec hazardId (hazards st)) as Hr.
  destruct (removeFirst hazardId (hazards st)) as [[r rest]|];
    [|discriminate].
  destruct Hr as (l1 & l2 & El & -> & Hid & Hl1).
  intro E. injection E as -> <-.
  exists l1, l2. repeat split; assumption.
Qed.

(** X7.  Sweeps compose: a sweep at a later time after a sweep at an
    earlier time leaves what the later sweep alone would leave. *)
Theorem expirySweep_later_absorbs_earlier
        (now1 now2 : Z) (st : Store) (Horder : (now1 <= now2)%Z) :
  expirySweep now2 (expirySweep now1 st) = expirySweep now2 st.
Proof.
  unfold expirySweep. cbn [hazards notified]. f_equal.
  induction (hazards st) as [|h l IH]; cbn [filter]; [reflexivity|].
  destruct (String.prefix "risk-" (id h)) eqn:P.
  - rewrite !orb_true_r. cbn [filter]. rewrite P, orb_true_r, IH. reflexivity.
  - rewrite !orb_false_r.
    destruct (updatedAt (properties h) >? now1 - 5 * 60 * 1000)%Z eqn:G1.
    + cbn [filter]. rewrite P, orb_false_r, IH. reflexivity.
    + rewrite IH.
      destruct (updatedAt (properties h) >? now2 - 5 * 60 * 1000)%Z eqn:G2;
        [|reflexivity].
      apply Z.gtb_gt in G2. rewrite Z.gtb_ltb in G1. apply Z.ltb_ge in G1. lia.
Qed.

End HazardStoreMore.

(** ** Sorting *)

Section SortFacts.
Context {A : Type} (compare : A -> A -> JS.num).

Local Abbreviation notAfter := (notAfter compare).

Lemma insertSorted_perm (x : A) (l : list A) :
  Permutation (insertSorted compare x l) (x :: l).
Proof.
  induction l as [|y l IH]; cbn [insertSorted]; [reflexivity|].
  destruct (JS.gtb (compare x y) (JS.of_Z 0)); [|reflexivity].
  rewrite IH. apply perm_swap.
Qed.

Lemma sortBy_perm (l : list A) : Permutation (sortBy compare l) l.
Proof.
  unfold sortBy. induction l as [|x l IH]; cbn [fold_right]; [reflexivity|].
  rewrite insertSorted_perm. constructor. exact IH.
Qed.

Lemma sortBy_In (x : A) (l : list A) : In x (sortBy compare l) <-> In x l.
Proof.
  split; apply Permutation_in; [|symmetry]; apply sortBy_perm.
Qed.

Variable P : A -> Prop.
Hypothesis compare_total :
  forall x y, P x -> P y ->
              JS.gtb (compare x y) (JS.of_Z 0) = true -> notAfter y x.
Hypothesis compare_trans :
  forall x y z, P x -> P y -> P z ->
                notAfter x y -> notAfter y z -> notAfter x z.

Lemma insertSorted_sorted (x : A) (l : list A) :
  P x -> Forall P l -> StronglySorted notAfter l ->
  StronglySorted notAfter (insertSorted compare x l).
Proof.
  intros Hx Hl Hs. induction Hs as [|y l Hs IH Hy]; cbn [insertSorted].
  - constructor; constructor.
  - inversion Hl as [|y' l' Py Pl]; subst.
    destruct (JS.gtb (compare x y) (JS.of_Z 0)) eqn:C.
    + constructor; [apply IH; exact Pl|].
      apply Forall_forall. intros z Hz.
      apply (Permutation_in _ (insertSorted_perm x l)) in Hz.
      destruct Hz as [<-|Hz].
      * apply compare_total; assumption.
      * rewrite Forall_forall in Hy. apply Hy. exact Hz.
    + constructor; [constructor; assumption|].
      constructor; [exact C|].
      apply Forall_forall. intros z Hz.
      rewrite Forall_forall in Hy, Pl.
      apply (compare_trans Hx Py (Pl z Hz) C (Hy z Hz)).
Qed.

Lemma sortBy_sorted (l : list A) :
  Forall P l -> StronglySorted notAfter (sortBy compare l).
Proof.
  unfold sortBy. induction 1 as [|x l Hx Hl IH]; cbn [fold_right].
  - constructor.
  - apply insertSorted_sorted; [exact Hx | | exact IH].
    apply (sortBy_Forall compare Hl).
Qed.

End SortFacts.

Lemma StronglySorted_weaken {A : Type} (R R' : A -> A -> Prop) (P : A -> Prop)
      (l : list A) :
  (forall x y, P x -> P y -> R x y -> R' x y) ->
  Forall P l -> StronglySorted R l -> StronglySorted R' l.
Proof.
  intros HR HP Hs. induction Hs as [|x l Hs IH Hx]; [constructor|].
  inversion HP as [|x' l' Px Pl]; subst.
  constructor; [apply IH; exact Pl|].
  rewrite Forall_forall in *. intros y Hy.
  apply HR; auto.
Qed.

(** Subtraction as a comparator: on numbers, [a - b > 0] says [a] is not
    at most [b]. *)
Lemma sub_gtb_leb (a b : JS.num) :
  JS.isNaN a = false -> JS.isNaN b = false ->
  JS.gtb (JS.sub a b) (JS.of_Z 0) = negb (JS.leb a b).
Proof.
  destruct a as [| | |a], b as [| | |b]; intros Ha Hb; try discriminate;
    try reflexivity.
  cbv beta iota delta [JS.gtb JS.ltb JS.sub JS.add JS.neg JS.leb JS.of_Z].
  destruct (Qle_bool a b) eqn:C; cbn [negb]; q_props; unfold inject_Z in *; lra.
Qed.

(** ** Hazards along a route *)

Lemma of_Z_ltb (a b : Z) : JS.ltb (JS.of_Z a) (JS.of_Z b) = (a <? b)%Z.
Proof.
  unfold JS.ltb, JS.of_Z, JS.Qltb.
  destruct (a <? b)%Z eqn:C.
  - apply Z.ltb_lt in C. apply negb_true_iff. apply Qle_bool_false.
    rewrite <- Zlt_Qlt. exact C.
  - apply Z.ltb_ge in C. apply negb_false_iff. apply Qle_bool_iff.
    rewrite <- Zle_Qle. exact C.
Qed.

Lemma of_Z_eqb (a b : Z) : JS.eqb (JS.of_Z a) (JS.of_Z b) = (a =? b)%Z.
Proof.
  unfold JS.eqb, JS.of_Z.
  destruct (a =? b)%Z eqn:C.
  - apply Z.eqb_eq in C. subst. apply Qeq_bool_iff. reflexivity.
  - apply Z.eqb_neq in C. destruct (Qeq_bool _ _) eqn:E; [|reflexivity].
    apply Qeq_bool_iff in E. exfalso. apply C.
    apply inject_Z_injective. exact E.
Qed.

Lemma of_Z_sub_gtb (a b : Z) :
  JS.gtb (JS.sub (JS.of_Z b) (JS.of_Z a)) (JS.of_Z 0) = (a <? b)%Z.
Proof.
  rewrite sub_gtb_leb by reflexivity.
  unfold JS.leb, JS.of_Z.
  destruct (a <? b)%Z eqn:C.
  - apply Z.ltb_lt in C. apply negb_true_iff. apply Qle_bool_false.
    rewrite <- Zlt_Qlt. exact C.
  - apply Z.ltb_ge in C. apply negb_false_iff. apply Qle_bool_iff.
    rewrite <- Zle_Qle. exact C.
Qed.

Section RouteFilterFacts.
Import HazardService.
Context {M : MathLib}.
Local Open Scope string_scope.
Local Open Scope list_scope.

Lemma priority_integer (ty : string) : exists k, priority ty = JS.of_Z k.
Proof.
  unfold priority.
  repeat match goal with
         | |- context [String.eqb ?a ?b] => destruct (String.eqb a b)
         end; eexists; reflexivity.
Qed.

(** On entries whose distance is a number, the comparator of
    [filterHazardsByRoute] decides [routeOrder]. *)
Lemma compareRouteHazards_order (a b : RouteHazard) :
  JS.isNaN (distanceToRoute a) = false ->
  JS.isNaN (distanceToRoute b) = false ->
  (notAfter compareRouteHazards a b <-> routeOrder a b).
Proof.
  intros Ha Hb. unfold notAfter, compareRouteHazards, routeOrder. cbv zeta.
  destruct (priority_integer (type (rh_hazard a))) as [ka ->].
  destruct (priority_integer (type (rh_hazard b))) as [kb ->].
  rewrite of_Z_eqb, of_Z_ltb.
  destruct (Z.eqb_spec ka kb) as [->|Hne]; cbn [negb].
  - rewrite sub_gtb_leb by assumption. rewrite Z.ltb_irrefl, negb_false_iff.
    split; [intro H; right; auto | intros [H|[_ H]]; [discriminate | exact H]].
  - rewrite of_Z_sub_gtb. split.
    + intro H. left. apply Z.ltb_ge in H. apply Z.ltb_lt. lia.
    + intros [H|[H _]].
      * apply Z.ltb_lt in H. apply Z.ltb_ge. lia.
      * exfalso. apply Hne. unfold JS.of_Z, inject_Z in H.
        injection H as H. exact H.
Qed.

Lemma routeOrder_total (a b : RouteHazard) :
  JS.isNaN (distanceToRoute a) = false ->
  JS.isNaN (distanceToRoute b) = false ->
  routeOrder a b \/ routeOrder b a.
Proof.
  intros Ha Hb. unfold routeOrder. cbv zeta.
  destruct (priority_integer (type (rh_hazard a))) as [ka ->].
  destruct (priority_integer (type (rh_hazard b))) as [kb ->].
  rewrite !of_Z_ltb.
  destruct (Z.lt_trichotomy ka kb) as [H|[->|H]].
  - right. left. apply Z.ltb_lt. exact H.
  - destruct (JS.leb (distanceToRoute a) (distanceToRoute b)) eqn:C.
    + left. right. auto.
    + right. right. split; [reflexivity|].
      apply not_ltb_leb; try assumption.
      destruct (JS.ltb (distanceToRoute a) (distanceToRoute b)) eqn:L;
        [|reflexivity].
      apply ltb_leb in L. congruence.
  - left. left. apply Z.ltb_lt. exact H.
Qed.

Lemma routeOrder_trans (a b c : RouteHazard) :
  routeOrder a b -> routeOrder b c -> routeOrder a c.
Proof.
  unfold routeOrder. cbv zeta.
  destruct (priority_integer (type (rh_hazard a))) as [ka ->].
  destruct (priority_integer (type (rh_hazard b))) as [kb ->].
  destruct (priority_integer (type (rh_hazard c))) as [kc ->].
  rewrite !of_Z_ltb.
  intros [H1|[E1 L1]] [H2|[E2 L2]];
    try (unfold JS.of_Z, inject_Z in E1; injection E1 as E1);
    try (unfold JS.of_Z, inject_Z in E2; injection E2 as E2); subst.
  - left. apply Z.ltb_lt in H1, H2. apply Z.ltb_lt. lia.
  - left. exact H1.
  - left. exact H2.
  - right. split; [reflexivity|]. exact (leb_trans _ _ _ L1 L2).
Qed.

(** Every entry of the filter's list comes from the store and carries a
    distance that is a number. *)
Lemma routeFilterStep_entries (routeCoords : list LatLng)
      (bufferMeters : JS.num) (hazard : Hazard) (rh : RouteHazard) :
  In rh (routeFilterStep routeCoords bufferMeters hazard) <->
  rh_hazard rh = hazard
  /\ ((exists c, geometry hazard = Point c
                 /\ distanceToRoute rh
                    = getMinDistanceToRoute (toLatLng c) routeCoords
                 /\ JS.leb (distanceToRoute rh) bufferMeters = true)
      \/ (exists ring0, geometry hazard = Polygon ring0
                        /\ distanceToRoute rh = JS.of_Z 0
                        /\ polygonIntersectsRouteBuffer ring0 routeCoords
                                                        bufferMeters = true)).
Proof.
  unfold routeFilterStep.
  destruct (geometry hazard) as [c|ring0|other].
  - destruct (JS.leb (getMinDistanceToRoute (toLatLng c) routeCoords)
                     bufferMeters) eqn:L; cbn [In]; split.
    + intros [<-|[]]. cbn [rh_hazard distanceToRoute].
      split; [reflexivity|]. left. exists c. auto.
    + intros [E [(c' & Ec & Ed & _)|(r & Ec & _)]]; [|discriminate].
      left. injection Ec as <-. destruct rh as [h d]. cbn in *. congruence.
    + intros [].
    + intros [E [(c' & Ec & Ed & Hl)|(r & Ec & _)]]; [|discriminate].
      injection Ec as <-. rewrite Ed in Hl. congruence.
  - destruct (polygonIntersectsRouteBuffer ring0 routeCoords bufferMeters)
      eqn:L; cbn [In]; split.
    + intros [<-|[]]. cbn [rh_hazard distanceToRoute].
      split; [reflexivity|]. right. exists ring0. auto.
    + intros [E [(c' & Ec & _)|(r & Ec & Ed & _)]]; [discriminate|].
      left. destruct rh as [h d]. cbn in *. congruence.
    + intros [].
    + intros [E [(c' & Ec & _)|(r & Ec & _ & Hl)]]; [discriminate|].
      injection Ec as <-. congruence.
  - cbn [In]. split; [intros [] |].
    intros [_ [(c & Ec & _)|(r & Ec & _)]]; discriminate.
Qed.

(** The hazards of the entries, in the order of the store: the stored
    hazards that are along the route, each once. *)
Lemma routeFilterStep_hazards (routeCoords : list LatLng)
      (bufferMeters : JS.num) (l : list Hazard) :
  map rh_hazard (flat_map (routeFilterStep routeCoords bufferMeters) l)
  = filter (alongRoute routeCoords bufferMeters) l.
Proof.
  induction l as [|h l IH]; [reflexivity|].
  cbn [flat_map filter]. rewrite map_app, IH.
  unfold routeFilterStep, alongRoute.
  destruct (geometry h) as [c|ring0|other]; cbv zeta.
  - destruct (JS.leb _ _); reflexivity.
  - destruct (polygonIntersectsRouteBuffer _ _ _); reflexivity.
  - reflexivity.
Qed.

(** X8.  What [filterHazardsByRoute] returns.  Without a route, or for a
    route of fewer than 2 coordinates, nothing.  Otherwise one entry for
    each stored hazard that is along the route, as often as the hazard is
    stored and no more: the entries' hazards are a rearrangement of the
    stored Point hazards whose minimum distance to the route is at most
    the buffer and the stored Polygon hazards that meet the route buffer.
    A Point's entry is annotated with that distance, a Polygon's with
    distance 0; hazards of another geometry and hazards beyond the buffer
    have no entry. *)
Theorem filterHazardsByRoute_content
        (st : Store) (route : Route) (bufferMeters : JS.num) :
  filterHazardsByRoute st None bufferMeters = []
  /\ ((List.length (coordinates route) < 2)%nat ->
      filterHazardsByRoute st (Some route) bufferMeters = [])
  /\ ((2 <= List.length (coordinates route))%nat ->
      Permutation
        (map rh_hazard (filterHazardsByRoute st (Some route) bufferMeters))
        (filter (alongRoute (coordinates route) bufferMeters) (hazards st))
      /\ forall rh,
          In rh (filterHazardsByRoute st (Some route) bufferMeters) <->
          In (rh_hazard rh) (hazards st)
          /\ ((exists c,
                  geometry (rh_hazard rh) = Point c
                  /\ distanceToRoute rh
                     = getMinDistanceToRoute (toLatLng c) (coordinates route)
                  /\ JS.leb (distanceToRoute rh) bufferMeters = true)
              \/ (exists ring0,
                     geometry (rh_hazard rh) = Polygon ring0
                     /\ distanceToRoute rh = JS.of_Z 0
                     /\ polygonIntersectsRouteBuffer
                          ring0 (coordinates route) bufferMeters = true))).
Proof.
  split; [reflexivity|]. unfold filterHazardsByRoute. split.
  - intro H. apply Nat.ltb_lt in H. rewrite H. reflexivity.
  - intro H. apply Nat.ltb_ge in H. rewrite H. split.
    + rewrite <- routeFilterStep_hazards.
      apply Permutation_map, sortBy_perm.
    + intro rh. rewrite sortBy_In, in_flat_map. split.
      * intros (h & Hin & Hrh). apply routeFilterStep_entries in Hrh.
        destruct Hrh as [<- Hrest]. split; assumption.
      * intros [Hin Hrest]. exists (rh_hazard rh). split; [exact Hin|].
        apply routeFilterStep_entries. split; [reflexivity | exact Hrest].
Qed.

Lemma routeFilterStep_numbers routeCoords bufferMeters hazard :
  Forall (fun rh => JS.isNaN (distanceToRoute rh) = false)
         (routeFilterStep routeCoords bufferMeters hazard).
Proof.
  apply Forall_forall. intros rh Hrh. apply routeFilterStep_entries in Hrh.
  destruct Hrh as [_ [(c & _ & _ & Hl)|(r & _ & -> & _)]]; [|reflexivity].
  apply leb_not_nan in Hl. tauto.
Qed.

(** X9.  The list [filterHazardsByRoute] returns is ordered: every entry
    has a higher priority than each entry after it, or the same priority
    and a distance to the route that is not larger. *)
Theorem filterHazardsByRoute_ordered
        (st : Store) (route : option Route) (bufferMeters : JS.num) :
  StronglySorted routeOrder (filterHazardsByRoute st route bufferMeters).
Proof.
  unfold filterHazardsByRoute. destruct route as [r|]; [|constructor].
  destruct (List.length (coordinates r) <? 2)%nat; [constructor|].
  set (P := fun rh : RouteHazard => JS.isNaN (distanceToRoute rh) = false).
  assert (HP : Forall P (flat_map (routeFilterStep (coordinates r) bufferMeters)
                                  (hazards st))).
  { apply flat_map_Forall. intro a. apply routeFilterStep_numbers. }
  apply (@StronglySorted_weaken _ (notAfter compareRouteHazards) routeOrder P).
  - intros x y Px Py. apply compareRouteHazards_order; assumption.
  - apply sortBy_Forall. exact HP.
  - apply (@sortBy_sorted _ compareRouteHazards P); [| |exact HP].
    + intros x y Px Py C. apply compareRouteHazards_order; try assumption.
      destruct (routeOrder_total y x Py Px) as [H|H]; [exact H|].
      apply compareRouteHazards_order in H; try assumption.
      unfold notAfter in H. congruence.
    + intros x y z Px Py Pz H1 H2.
      apply compareRouteHazards_order; try assumption.
      apply compareRouteHazards_order in H1, H2; try assumption.
      exact (routeOrder_trans H1 H2).
Qed.



(** X11.  A larger radius never loses a hazard: what
    [getHazardsWithinRadius] finds within [r1] of a position it also finds
    within any [r2] that is at least [r1]; and what it finds is stored. *)
Theorem getHazardsWithinRadius_monotone
        (st : Store) (userPosition : LatLng) (r1 r2 : JS.num)
        (Hle : JS.leb r1 r2 = true) :
  incl (getHazardsWithinRadius st userPosition r1)
       (getHazardsWithinRadius st userPosition r2)
  /\ incl (getHazardsWithinRadius st userPosition r2) (hazards st).
Proof.
  unfold getHazardsWithinRadius. split.
  - intros h Hh. apply filter_In in Hh. destruct Hh as [Hin Hh].
    apply filter_In. split; [exact Hin|].
    destruct (geometry h) as [c|ring0|other]; [| |discriminate].
    + exact (leb_trans _ _ _ Hh Hle).
    + apply existsb_exists in Hh. destruct Hh as (c & Hc & Hd).
      apply existsb_exists. exists c. split; [exact Hc|].
      exact (leb_trans _ _ _ Hd Hle).
  - intros h Hh. apply filter_In in Hh. tauto.
Qed.

End RouteFilterFacts.

(** ** More on the routing engine *)

Section RoutingMore.
Import HazardService RoutingService.
Context {M : MathLib}.
Local Open Scope string_scope.
Local Open Scope list_scope.

Lemma pointToLineDistance_not_infinite (point a b : LatLng) :
  JS.isInfinite (pointToLineDistance point a b) = false.
Proof.
  unfold pointToLineDistance. cbv zeta.
  destruct (JS.eqb _ _); apply haversine_not_infinite.
Qed.

Lemma min_not_neginf (x y : JS.num) :
  x <> JS.NegInf -> JS.isInfinite y = false -> JS.min x y <> JS.NegInf.
Proof.
  destruct x as [| | |x], y as [| | |y]; intros Hx Hy; try discriminate;
    try contradiction; unfold JS.min, JS.isNaN, JS.ltb; cbn [orb];
    try discriminate.
  destruct (JS.Qltb y x); discriminate.
Qed.

Lemma minDistanceLoop_not_neginf (point : LatLng) (routeCoords : list LatLng) :
  forall minDistance,
    minDistance <> JS.NegInf ->
    minDistanceLoop point routeCoords minDistance <> JS.NegInf.
Proof.
  induction routeCoords as [|p rest IH]; intros m Hm; [exact Hm|].
  destruct rest as [|q rest']; [exact Hm|].
  cbn [minDistanceLoop]. apply IH.
  apply min_not_neginf; [exact Hm | apply pointToLineDistance_not_infinite].
Qed.

(** The distance from a point to a route is never minus infinity. *)
Lemma getMinDistanceToRoute_not_neginf (point : LatLng)
      (routeCoords : list LatLng) :
  getMinDistanceToRoute point routeCoords <> JS.NegInf.
Proof.
  unfold getMinDistanceToRoute. apply minDistanceLoop_not_neginf. discriminate.
Qed.

Lemma add_positive_constant (q w : Q) :
  0 <= q -> 0 < w ->
  exists q', JS.add (JS.Fin q) (JS.Fin w) = JS.Fin q' /\ q <= q'.
Proof. intros Hq Hw. exists (q + w). split; [reflexivity | lra]. Qed.

Lemma polygon_penalty_grows (polygon : list LatLng)
      (sgs : list (LatLng * LatLng)) :
  forall q, 0 <= q ->
    exists q',
      fold_left (fun total sg =>
                   if routeIntersectsPolygon (fst sg) (snd sg) polygon
                   then JS.add total (weightOf "riskArea")
                   else total)
                sgs (JS.Fin q) = JS.Fin q'
      /\ q <= q'.
Proof.
  induction sgs as [|sg sgs IH]; intros q Hq; cbn [fold_left].
  - exists q. split; [reflexivity | lra].
  - destruct (routeIntersectsPolygon (fst sg) (snd sg) polygon).
    + destruct (IH (q + 50) ltac:(lra)) as (q' & E & Hle).
      exists q'. split; [exact E | lra].
    + apply IH. exact Hq.
Qed.

(** One more hazard never lowers the running penalty, and keeps it a
    finite number. *)
Lemma penaltyStep_grows (routeCoords : list LatLng) (q : Q) (hazard : Hazard) :
  inherited (type hazard) = false ->
  0 <= q ->
  exists q', penaltyStep routeCoords (JS.Fin q) hazard = JS.Fin q' /\ q <= q'.
Proof.
  intros Hkind Hq. unfold penaltyStep.
  destruct (geometry hazard) as [c|ring0|other].
  - pose proof (getMinDistanceToRoute_not_neginf (toLatLng c) routeCoords)
      as Hd.
    destruct (getMinDistanceToRoute (toLatLng c) routeCoords) as [| | |d];
      try contradiction;
      try (exists q; split; [reflexivity | lra]).
    unfold HAZARD_BUFFER_METERS, JS.leb, JS.of_Z.
    destruct (Qle_bool d (inject_Z 100)) eqn:C;
      [|exists q; split; [reflexivity | lra]].
    destruct (weightOf_positive (type hazard) Hkind) as (w & -> & Hw).
    apply Qle_bool_iff in C.
    pose proof (scaled_nonneg Hw C) as Hs.
    cbv beta iota delta [JS.add JS.sub JS.neg JS.mul JS.div].
    rewrite q100_nonzero.
    eexists. split; [reflexivity|].
    rewrite div_by_100. unfold inject_Z. lra.
  - destruct (type hazard =? "riskArea"); [|exists q; split; [reflexivity|lra]].
    apply polygon_penalty_grows. exact Hq.
  - exists q. split; [reflexivity | lra].
Qed.

Lemma penalty_fold_grows (routeCoords : list LatLng) (hazards : list Hazard) :
  Forall (fun h => inherited (type h) = false) hazards ->
  forall q, 0 <= q ->
    exists q',
      fold_left (penaltyStep routeCoords) hazards (JS.Fin q) = JS.Fin q'
      /\ q <= q'.
Proof.
  induction 1 as [|h hs Hh Hhs IH]; intros q Hq; cbn [fold_left].
  - exists q. split; [reflexivity | lra].
  - destruct (penaltyStep_grows routeCoords h Hh Hq) as (q1 & -> & H1).
    destruct (IH q1 ltac:(lra)) as (q' & E & H2).
    exists q'. split; [exact E | lra].
Qed.

(** Once the running penalty is NaN it stays NaN. *)
Lemma polygon_penalty_nan (polygon : list LatLng)
      (sgs : list (LatLng * LatLng)) :
  fold_left (fun total sg =>
               if routeIntersectsPolygon (fst sg) (snd sg) polygon
               then JS.add total (weightOf "riskArea")
               else total)
            sgs JS.NaN = JS.NaN.
Proof.
  induction sgs as [|sg sgs IH]; cbn [fold_left]; [reflexivity|].
  destruct (routeIntersectsPolygon (fst sg) (snd sg) polygon); exact IH.
Qed.

Lemma penaltyStep_nan (routeCoords : list LatLng) (hazard : Hazard) :
  penaltyStep routeCoords JS.NaN hazard = JS.NaN.
Proof.
  unfold penaltyStep.
  destruct (geometry hazard) as [c|ring0|other]; [| |reflexivity].
  - cbv zeta. destruct (JS.leb _ _); reflexivity.
  - destruct (type hazard =? "riskArea"); [|reflexivity].
    apply polygon_penalty_nan.
Qed.

Lemma penalty_fold_nan (routeCoords : list LatLng) (hazards : list Hazard) :
  fold_left (penaltyStep routeCoords) hazards JS.NaN = JS.NaN.
Proof.
  induction hazards as [|h hs IH]; cbn [fold_left]; [reflexivity|].
  rewrite penaltyStep_nan. exact IH.
Qed.

(** A Point hazard within the buffer whose type names an inherited
    property turns any running penalty into NaN. *)
Lemma penaltyStep_inherited (routeCoords : list LatLng) (total : JS.num)
      (hazard : Hazard) (c : JS.num * JS.num) :
  geometry hazard = Point c ->
  inherited (type hazard) = true ->
  JS.leb (getMinDistanceToRoute (toLatLng c) routeCoords)
         HAZARD_BUFFER_METERS = true ->
  penaltyStep routeCoords total hazard = JS.NaN.
Proof.
  intros Hg Hkind Hnear. unfold penaltyStep. rewrite Hg. cbv zeta.
  rewrite Hnear, (weightOf_inherited _ Hkind).
  destruct total; reflexivity.
Qed.

(** X12.  As long as no hazard has a type that names a property
    [SAFETY_WEIGHTS] inherits from [Object.prototype] ([constructor],
    [toString], ...), the safety score of a route is a finite number that
    is not negative, and more hazards never make it smaller.  One Point
    hazard of such a type within the 100 m buffer makes the score NaN,
    whatever the other hazards are. *)
Theorem calculateSafetyScore_finite_and_monotone
        (route : Route) (hazards more : list Hazard) :
  (Forall (fun h => inherited (type h) = false) (hazards ++ more) ->
   exists score score',
     calculateSafetyScore route hazards = JS.Fin score
     /\ calculateSafetyScore route (hazards ++ more) = JS.Fin score'
     /\ 0 <= score /\ score <= score')
  /\ (forall h c,
         geometry h = Point c ->
         inherited (type h) = true ->
         JS.leb (getMinDistanceToRoute (toLatLng c) (coordinates route))
                HAZARD_BUFFER_METERS = true ->
         calculateSafetyScore route (hazards ++ h :: more) = JS.NaN).
Proof.
  unfold calculateSafetyScore. split.
  - intro Hkinds. apply Forall_app in Hkinds. destruct Hkinds as [Hh Hm].
    rewrite fold_left_app.
    destruct (penalty_fold_grows (coordinates route) Hh (q := inject_Z 0))
      as (q & E & Hq); [unfold inject_Z; lra|].
    change (JS.of_Z 0) with (JS.Fin (inject_Z 0)). rewrite E.
    assert (H0 : 0 <= q) by (unfold inject_Z in Hq; lra).
    destruct (penalty_fold_grows (coordinates route) Hm H0)
      as (q' & E' & Hq').
    exists q, q'. auto.
  - intros h c Hg Hkind Hnear. rewrite fold_left_app. cbn [fold_left].
    rewrite (penaltyStep_inherited _ _ _ Hg Hkind Hnear).
    apply penalty_fold_nan.
Qed.

Lemma sameText_refl (x : JS.num) : sameText x x = true.
Proof.
  destruct x; try reflexivity. cbn. apply Qeq_bool_iff. reflexivity.
Qed.

Lemma keyEqb_refl (k : CacheKey) : keyEqb k k = true.
Proof.
  destruct k as [[[a b] c] d]. unfold keyEqb.
  rewrite !sameText_refl. reflexivity.
Qed.

Lemma cacheGet_cacheSet (k : CacheKey) (v : list Route) (cache : Cache) :
  cacheGet k (cacheSet k v cache) = Some v.
Proof.
  induction cache as [|[k' v'] rest IH]; cbn [cacheSet cacheGet].
  - rewrite keyEqb_refl. reflexivity.
  - destruct (keyEqb k k') eqn:E; cbn [cacheGet]; rewrite E;
      [reflexivity | exact IH].
Qed.

(** X13.  The route cache.  A request the cache holds is answered from
    it, without a look at the provider.  Otherwise, what the provider
    answers is returned and cached, or the fallback route alone where the
    answer holds no route; and once a request has been answered so, the
    next call gets the same array whatever the provider would say then,
    and leaves the cache alone.  When the provider fails on a request the
    cache does not hold, the fallback route alone is returned and nothing
    is cached: the next call asks the provider again. *)
Theorem getRouteOptions_cache
        (cache cache' : Cache) (start end_ : LatLng)
        (response : ProviderResponse) (routes : list Route) (shared : bool)
        (Hfirst : getRouteOptions cache start end_ response
                  = Some (routes, cache', shared)) :
  (forall cached,
      cacheGet (cacheKey start end_) cache = Some cached ->
      routes = cached /\ cache' = cache)
  /\ (forall features,
         response = ProviderData features ->
         (cacheGet (cacheKey start end_) cache = None ->
          match parseORSResponse features with
          | [] => exists fb,
                    createFallbackRoute start end_ = Some fb /\ routes = [fb]
          | parsed => routes = parsed
          end)
         /\ forall response',
             getRouteOptions cache' start end_ response'
             = Some (routes, cache', true))
  /\ (response = ProviderError ->
      cache' = cache
      /\ (cacheGet (cacheKey start end_) cache = None ->
          (exists fb,
              createFallbackRoute start end_ = Some fb /\ routes = [fb])
          /\ shared = false
          /\ forall features,
              getRouteOptions cache' start end_ (ProviderData features)
              = getRouteOptions cache start end_ (ProviderData features))).
Proof.
  revert Hfirst. unfold getRouteOptions. cbv zeta.
  destruct (cacheGet (cacheKey start end_) cache) as [v|] eqn:G.
  - intro E. injection E as <- <- <-. split; [|split].
    + intros cached Hc. injection Hc as <-. split; reflexivity.
    + intros features _. split; [discriminate|].
      intro response'. rewrite G. reflexivity.
    + intros _. split; [reflexivity | discriminate].
  - destruct response as [|features].
    + destruct (createFallbackRoute start end_) as [fb|]; [|discriminate].
      intro E. injection E as <- <- <-. split; [|split].
      * discriminate.
      * discriminate.
      * intros _. split; [reflexivity|]. intros _.
        split; [exists fb; split; reflexivity|].
        split; [reflexivity|]. intros features. rewrite G. reflexivity.
    + intro E. split; [discriminate|]. split; [|discriminate].
      intros f Hf. injection Hf as <-.
      assert (Hset : cache' = cacheSet (cacheKey start end_) routes cache
                     /\ match parseORSResponse features with
                        | [] => exists fb,
                                  createFallbackRoute start end_ = Some fb
                                  /\ routes = [fb]
                        | parsed => routes = parsed
                        end).
      { destruct (parseORSResponse features) as [|r rs].
        - destruct (createFallbackRoute start end_) as [fb|]; [|discriminate].
          injection E as <- <- <-. split; [reflexivity|].
          exists fb. split; reflexivity.
        - injection E as <- <- <-. split; reflexivity. }
      destruct Hset as [Hset Hroutes].
      split; [intros _; exact Hroutes|].
      intro response'. rewrite Hset, cacheGet_cacheSet. reflexivity.
Qed.

Lemma score_ignores_safetyScore (r : Route) (s : JS.num)
      (hazards : list Hazard) :
  calculateSafetyScore (withSafetyScore r s) hazards
  = calculateSafetyScore r hazards.
Proof. reflexivity. Qed.

(** X14.  What [getBestRoute] returns is one of the candidates of
    [getRouteOptions], changed in nothing but its [safetyScore], which is
    the candidate's score against the hazards given. *)
Theorem getBestRoute_returns_scored_candidate
        (cache cache' : Cache) (start end_ : LatLng) (hazards : list Hazard)
        (response : ProviderResponse) (best : Route)
        (Hbest : getBestRoute cache start end_ hazards response
                 = Some (Some best, cache')) :
  exists routes cache1 shared candidate,
    getRouteOptions cache start end_ response = Some (routes, cache1, shared)
    /\ In candidate routes
    /\ best = withSafetyScore candidate (calculateSafetyScore candidate hazards)
    /\ safetyScore best = calculateSafetyScore best hazards.
Proof.
  revert Hbest. unfold getBestRoute.
  destruct (getRouteOptions cache start end_ response)
    as [[[routes cache1] shared]|]; [|discriminate].
  cbv zeta. intro E. injection E as Ehd _.
  assert (Hin : In best (sortBy compareRoutes
                  (map (fun route =>
                          withSafetyScore route
                            (calculateSafetyScore route hazards)) routes))).
  { destruct (sortBy compareRoutes _) as [|b rest]; [discriminate|].
    injection Ehd as ->. left. reflexivity. }
  apply sortBy_In in Hin. apply in_map_iff in Hin.
  destruct Hin as (candidate & Eb & Hc).
  exists routes, cache1, shared, candidate.
  split; [reflexivity|]. split; [exact Hc|]. split; [auto|].
  rewrite <- Eb. reflexivity.
Qed.

End RoutingMore.

Section RoutingChoice.
Import HazardService RoutingService.
Context {M : MathLib}.
Local Open Scope string_scope.
Local Open Scope list_scope.

Lemma compareRoutes_far (a b : Route) (sa sb : Q) :
  safetyScore a = JS.Fin sa -> safetyScore b = JS.Fin sb ->
  sb + 5 <= sa ->
  JS.gtb (compareRoutes a b) (JS.of_Z 0) = true
  /\ JS.gtb (compareRoutes b a) (JS.of_Z 0) = false.
Proof.
  intros Ea Eb H. unfold compareRoutes. rewrite Ea, Eb.
  cbv beta iota delta [JS.sub JS.add JS.neg JS.abs JS.ltb JS.gtb JS.of_Z].
  assert (A1 : JS.Qltb (Qabs (sa + - sb)) (inject_Z 5) = false).
  { apply Qltb_ge. rewrite Qabs_pos; unfold inject_Z; lra. }
  assert (A2 : JS.Qltb (Qabs (sb + - sa)) (inject_Z 5) = false).
  { apply Qltb_ge. rewrite Qabs_neg; unfold inject_Z; lra. }
  rewrite A1, A2. split; q_props; unfold inject_Z; lra.
Qed.

Lemma compareRoutes_near (a b : Route) (sa sb : Q) :
  safetyScore a = JS.Fin sa -> safetyScore b = JS.Fin sb ->
  Qabs (sa - sb) < 5 ->
  compareRoutes a b = JS.sub (distance a) (distance b).
Proof.
  intros Ea Eb H. unfold compareRoutes. rewrite Ea, Eb.
  cbv beta iota delta [JS.sub JS.add JS.neg JS.abs JS.ltb JS.of_Z].
  assert (A : JS.Qltb (Qabs (sa + - sb)) (inject_Z 5) = true).
  { apply Qltb_lt. exact H. }
  rewrite A. reflexivity.
Qed.

(** X15.  The choice between two candidates [a] (first) and [b].  With
    [sa] and [sb] their scores against the hazards: if the scores are at
    least 5 apart the one with the lower score is returned, whatever the
    distances; if they are less than 5 apart the shorter route is
    returned, and [a] when neither is shorter. *)
Theorem getBestRoute_two_candidates
        (cache : Cache) (start end_ : LatLng) (hazards : list Hazard)
        (response : ProviderResponse) (a b : Route) (sa sb : Q)
        (Hcached : cacheGet (cacheKey start end_) cache = Some [a; b])
        (Hsa : calculateSafetyScore a hazards = JS.Fin sa)
        (Hsb : calculateSafetyScore b hazards = JS.Fin sb)
        (Hda : JS.isNaN (distance a) = false)
        (Hdb : JS.isNaN (distance b) = false) :
  let best :=
    option_map fst (getBestRoute cache start end_ hazards response) in
  let a' := withSafetyScore a (JS.Fin sa) in
  let b' := withSafetyScore b (JS.Fin sb) in
  (sa + 5 <= sb -> best = Some (Some a'))
  /\ (sb + 5 <= sa -> best = Some (Some b'))
  /\ (Qabs (sa - sb) < 5 ->
      best = Some (Some (if JS.leb (distance a) (distance b) then a' else b'))).
Proof.
  cbv zeta. unfold getBestRoute, getRouteOptions. cbv zeta.
  rewrite Hcached. cbn [map sortBy fold_right insertSorted option_map fst].
  rewrite Hsa, Hsb.
  set (a' := withSafetyScore a (JS.Fin sa)).
  set (b' := withSafetyScore b (JS.Fin sb)).
  split; [|split]; intro H.
  - destruct (@compareRoutes_far b' a' sb sa eq_refl eq_refl H) as [_ C].
    rewrite C. reflexivity.
  - destruct (@compareRoutes_far a' b' sa sb eq_refl eq_refl H) as [C _].
    rewrite C. reflexivity.
  - rewrite (@compareRoutes_near a' b' sa sb eq_refl eq_refl H).
    subst a' b'. cbn [distance withSafetyScore].
    rewrite sub_gtb_leb by assumption.
    destruct (JS.leb (distance a) (distance b)); reflexivity.
Qed.

(** X16.  The fallback route: it always exists, is called
    [fallback-route], starts at the start and ends at the end, has the
    great-circle distance of the two as its distance, one instruction and
    score 0; and it has one waypoint more than
    [max(2, floor(distance / 1000))], or just the two end points when the
    distance is not a number. *)
Theorem createFallbackRoute_shape (start end_ : LatLng) :
  exists fb middle,
    createFallbackRoute start end_ = Some fb
    /\ r_id fb = "fallback-route"
    /\ coordinates fb = start :: middle ++ [end_]
    /\ distance fb = haversineDistance start end_
    /\ List.length (instructions fb) = 1%nat
    /\ safetyScore fb = JS.of_Z 0
    /\ match JS.max (JS.of_Z 2)
                    (JS.floor (JS.div (haversineDistance start end_)
                                      (JS.of_Z 1000))) with
       | JS.Fin n => Z.of_nat (List.length (coordinates fb)) = (Qfloor n + 1)%Z
       | _ => middle = []
       end.
Proof.
  unfold createFallbackRoute. cbv zeta.
  pose proof (haversine_not_infinite start end_) as Hfin.
  destruct (haversineDistance start end_) as [| | |d] eqn:Ed; try discriminate.
  - eexists. exists []. repeat split.
  - unfold JS.div, JS.of_Z.
    change (Qeq_bool (inject_Z 1000) 0) with false. cbv iota.
    unfold JS.floor, JS.max, JS.isNaN. cbn [orb]. unfold JS.ltb.
    set (k := Qfloor (d / inject_Z 1000)).
    destruct (JS.Qltb (inject_Z 2) (inject_Z k)) eqn:C; cbn [waypointLoopCount].
    + eexists. eexists. split; [reflexivity|].
      cbn [r_id coordinates distance instructions safetyScore app].
      repeat split.
      rewrite Qceiling_Z, Qfloor_Z. cbn [List.length].
      rewrite length_app, length_map, length_seq. cbn [List.length].
      apply Qltb_lt in C. rewrite <- Zlt_Qlt in C. lia.
    + eexists. eexists. split; [reflexivity|].
      cbn [r_id coordinates distance instructions safetyScore app].
      repeat split.
Qed.

(** X17.  [lineSegmentsIntersect] does not care which segment comes
    first. *)
Theorem lineSegmentsIntersect_symmetric (p1 q1 p2 q2 : LatLng) :
  lineSegmentsIntersect p1 q1 p2 q2 = lineSegmentsIntersect p2 q2 p1 q1.
Proof.
  unfold lineSegmentsIntersect. cbv zeta.
  destruct (orientation p1 q1 p2 =? orientation p1 q1 q2)%Z,
           (orientation p2 q2 p1 =? orientation p2 q2 q1)%Z,
           (orientation p1 q1 p2 =? 0)%Z, (orientation p1 q1 q2 =? 0)%Z,
           (orientation p2 q2 p1 =? 0)%Z, (orientation p2 q2 q1 =? 0)%Z,
           (onSegment p1 p2 q1), (onSegment p1 q2 q1),
           (onSegment p2 p1 q2), (onSegment p2 q1 q2); reflexivity.
Qed.

End RoutingChoice.

(** ** Point in polygon *)

Lemma Qltb_compat (a a' b b' : Q) :
  a == a' -> b == b' -> JS.Qltb a b = JS.Qltb a' b'.
Proof.
  intros Ea Eb.
  destruct (JS.Qltb a b) eqn:C1, (JS.Qltb a' b') eqn:C2; try reflexivity;
    q_props; rewrite Ea, Eb in C1; lra.
Qed.

Section PointInPolygonFacts.
Context {M : MathLib}.

Local Abbreviation at_ y x := (mkLatLng (JS.Fin y) (JS.Fin x)).

Lemma crossesRay_level_edge (y x Y xi xj : Q) :
  crossesRay (at_ y x) (at_ Y xi) (at_ Y xj) = false.
Proof.
  unfold crossesRay. cbn [lat lng]. rewrite eqb_reflx. reflexivity.
Qed.

Lemma crossesRay_upright_edge (y x yi yj X : Q) :
  crossesRay (at_ y x) (at_ yi X) (at_ yj X)
  = negb (Bool.eqb (JS.Qltb y yi) (JS.Qltb y yj)) && JS.Qltb x X.
Proof.
  unfold crossesRay. cbn [lat lng].
  cbv beta iota delta [JS.gtb JS.ltb JS.sub JS.add JS.neg JS.mul JS.div].
  destruct (Qeq_bool (yj + - yi) 0) eqn:B.
  - apply Qeq_bool_iff in B.
    assert (E : JS.Qltb y yi = JS.Qltb y yj).
    { apply Qltb_compat; [reflexivity | lra]. }
    rewrite E, eqb_reflx. reflexivity.
  - f_equal. cbv beta iota delta [JS.ltb].
    apply Qltb_compat; [reflexivity|].
    apply Qeq_bool_neq in B. field. exact B.
Qed.

(** X18.  [pointInPolygon] on a rectangle given as the closed ring
    south-west, south-east, north-east, north-west, south-west (the shape
    of every built-in risk area): a point is inside exactly when
    [west <= lng < east] and [south <= lat < north].  The west and south
    edges count as inside, the east and north edges as outside. *)
Theorem pointInPolygon_rectangle
        (x y west south east north : Q)
        (Hwe : west <= east) (Hsn : south <= north) :
  pointInPolygon (mkLatLng (JS.Fin y) (JS.Fin x))
                 [mkLatLng (JS.Fin south) (JS.Fin west);
                  mkLatLng (JS.Fin south) (JS.Fin east);
                  mkLatLng (JS.Fin north) (JS.Fin east);
                  mkLatLng (JS.Fin north) (JS.Fin west);
                  mkLatLng (JS.Fin south) (JS.Fin west)]
  = Qle_bool west x && JS.Qltb x east && Qle_bool south y && JS.Qltb y north.
Proof.
  unfold pointInPolygon. cbn [last pointInPolygonLoop].
  rewrite !crossesRay_level_edge, !crossesRay_upright_edge.
  destruct (JS.Qltb y north) eqn:C1, (JS.Qltb y south) eqn:C2,
           (JS.Qltb x east) eqn:C3, (JS.Qltb x west) eqn:C4,
           (Qle_bool west x) eqn:C5, (Qle_bool south y) eqn:C6;
    cbn; try reflexivity; q_props; lra.
Qed.

End PointInPolygonFacts.

(** ** More on the navigation controller *)

Lemma ltb_irrefl (x : JS.num) : JS.ltb x x = false.
Proof. destruct x; num_order. Qed.

Lemma not_ltb_below (d b b' : JS.num) :
  JS.ltb d b = false -> JS.ltb b' b = true -> JS.ltb d b' = false.
Proof. destruct d, b, b'; intros H1 H2; num_order. Qed.

Lemma ltb_below_infinity (x y : JS.num) :
  JS.ltb x y = true -> JS.ltb x JS.PosInf = true.
Proof. destruct x, y; intro H; num_order. Qed.

Section NavigationMore.
Import NavigationController.
Context {M : MathLib}.
Local Open Scope string_scope.
Local Open Scope list_scope.

Ltac ctl_simpl :=
  cbn [isNavigating currentRoute destination currentPosition watchId
       navigationStats settings lastRerouteTime isRerouting notified
       set_isNavigating set_currentRoute set_destination set_currentPosition
       set_watchId set_navigationStats set_lastRerouteTime set_isRerouting
       notifyListeners stopNavigation handleDestinationReached fst snd] in *.

Lemma stats_keeps (hz : HazardService.Store) (s : Controller) :
  let u := updateNavigationStats hz s in
  notified u = notified s /\ destination u = destination s
  /\ currentPosition u = currentPosition s /\ currentRoute u = currentRoute s
  /\ isNavigating u = isNavigating s /\ isRerouting u = isRerouting s
  /\ watchId u = watchId s /\ settings u = settings s
  /\ lastRerouteTime u = lastRerouteTime s.
Proof.
  unfold updateNavigationStats.
  destruct (currentRoute s) eqn:Er, (currentPosition s) eqn:Ep; cbv zeta;
    ctl_simpl; repeat split; first [reflexivity | assumption].
Qed.








(** X20.  Arrival.  When a position update that runs to its end (it
    starts no reroute) finds the position less than 50 m from the
    destination, the listeners are told [destinationReached] and then
    [navigationStopped], each once, and the session is stopped: no
    [positionUpdated] goes out for that sample. *)
Theorem arrival_stops_navigation
        (hz : HazardService.Store) (now : Z) (p dest : LatLng)
        (s : Controller) (route : Route)
        (Hactive : isNavigating s = true)
        (Hroute : currentRoute s = Some route)
        (Hdest : destination s = Some dest)
        (Hnear : JS.ltb (haversineDistance p dest) (JS.of_Z 50) = true)
        (Hdone : snd (handlePositionUpdate hz now p s) = None) :
  let s' := fst (handlePositionUpdate hz now p s) in
  notified s'
  = notified s ++ [destinationReached (Some dest) (Some p); navigationStopped]
  /\ isNavigating s' = false /\ currentRoute s' = None
  /\ destination s' = None.
Proof.
  assert (Htail : forall prev off s0,
             notified s0 = notified s -> destination s0 = Some dest ->
             currentPosition s0 = Some p ->
             let t := positionUpdateTail hz p prev off s0 in
             notified t
             = notified s
               ++ [destinationReached (Some dest) (Some p); navigationStopped]
             /\ isNavigating t = false /\ currentRoute t = None
             /\ destination t = None).
  { intros prev off s0 Hn Hd Hp. unfold positionUpdateTail.
    destruct (stats_keeps hz s0) as (Kn & Kd & Kp & _). cbv zeta in *.
    rewrite Kd, Hd, Hnear. ctl_simpl. rewrite Kn, Kd, Kp, Hn, Hd, Hp.
    rewrite <- app_assoc. repeat split. }
  revert Hdone. unfold handlePositionUpdate.
  rewrite Hactive, Hroute. cbn [negb]. cbv zeta. ctl_simpl.
  destruct (_ && _).
  - destruct (now - lastRerouteTime s <? rerouteDelay (settings s))%Z;
      [|discriminate].
    intros _. apply Htail; ctl_simpl; auto.
  - intros _. apply Htail; ctl_simpl; auto.
Qed.

Lemma tail_keeps_lock (hz : HazardService.Store) (p : LatLng)
      (prev : option LatLng) (off : bool) (s : Controller) :
  isRerouting (positionUpdateTail hz p prev off s) = isRerouting s.
Proof.
  unfold positionUpdateTail.
  destruct (stats_keeps hz s) as (_ & _ & _ & _ & _ & Kr & _). cbv zeta in *.
  destruct (destination (updateNavigationStats hz s)); [|exact Kr].
  destruct (JS.ltb _ _); ctl_simpl; exact Kr.
Qed.

(** X21.  The reroute lock is always released: when the route computation
    of a deviation reroute or of a manual reroute settles, with a route,
    without one or with an error, [isRerouting] is false afterwards. *)
Theorem reroute_settled_releases_lock
        (hz : HazardService.Store) (watch : option Z) (k : Suspended)
        (result : RouteResult) (s : Controller)
        (Hreroute : isReroute k = true) :
  isRerouting (resume hz watch k result s) = false.
Proof.
  destruct k as [rq|rq p prev off|rq]; [discriminate| |]; unfold resume.
  - rewrite tail_keeps_lock. reflexivity.
  - reflexivity.
Qed.

(** X22.  A reroute that fails keeps the route.  When the route
    computation of a reroute settles with an error or without a route, a
    session that is still navigating afterwards has the route and the
    destination it had; a failed manual reroute changes nothing but the
    lock and tells the listeners nothing, a failed deviation reroute that
    ended in an error tells them [rerouteError]. *)
Theorem failed_reroute_keeps_route
        (hz : HazardService.Store) (watch : option Z) (k : Suspended)
        (result : RouteResult) (s : Controller)
        (Hreroute : isReroute k = true)
        (Hfailed : result = Rejected \/ result = Resolved None) :
  let s' := resume hz watch k result s in
  (isNavigating s' = true ->
   currentRoute s' = currentRoute s /\ destination s' = destination s)
  /\ (forall rq, k = InForceReroute rq -> s' = set_isRerouting false s)
  /\ (forall rq p prev off,
         k = InRouteDeviation rq p prev off -> result = Rejected ->
         exists rest, notified s' = notified s ++ rerouteError :: rest).
Proof.
  cbv zeta.
  assert (Htail : forall p prev off s0,
             let t := positionUpdateTail hz p prev off s0 in
             (isNavigating t = true ->
              currentRoute t = currentRoute s0
              /\ destination t = destination s0)
             /\ exists rest, notified t = notified s0 ++ rest).
  { intros p prev off s0. unfold positionUpdateTail.
    destruct (stats_keeps hz s0) as (Kn & Kd & _ & Kr & _). cbv zeta in *.
    destruct (destination (updateNavigationStats hz s0)) as [d|] eqn:D.
    - destruct (JS.ltb _ _); ctl_simpl.
      + split; [discriminate|]. rewrite Kn. eexists.
        rewrite <- app_assoc. reflexivity.
      + rewrite Kn, Kr, D, Kd. split; [auto|]. eexists. reflexivity.
    - rewrite Kn, Kr, D, Kd. split; [auto|]. exists []. rewrite app_nil_r.
      reflexivity. }
  destruct k as [rq|rq p prev off|rq]; [discriminate| |]; unfold resume.
  - split; [|split].
    + intro Hn.
      match goal with
      | Hn : isNavigating (positionUpdateTail ?h ?a ?b ?c ?x) = true |- _ =>
          destruct (Htail a b c x) as [Hk _]; cbv zeta in Hk;
          destruct (Hk Hn) as [K1 K2]
      end.
      rewrite K1, K2.
      destruct Hfailed as [-> | ->]; split; reflexivity.
    + intros rq' E. discriminate E.
    + intros rq' p' prev' off' _ ->.
      match goal with
      | |- context [positionUpdateTail ?h ?a ?b ?c ?x] =>
          destruct (Htail a b c x) as [_ [rest Hr]]
      end.
      cbv zeta in Hr. rewrite Hr. ctl_simpl. rewrite <- app_assoc.
      eexists. reflexivity.
  - split; [|split].
    + intros _. destruct Hfailed as [-> | ->]; split; reflexivity.
    + intros rq' _. destruct Hfailed as [-> | ->]; reflexivity.
    + intros rq' p prev off E. discriminate E.
Qed.

Lemma closestLoop_inv (position : LatLng) (suffix : list LatLng) :
  forall (prefix : list LatLng) (best : Closest),
    point best = nth_error (prefix ++ suffix) (index best) ->
    Forall (fun v => JS.ltb (haversineDistance position v) (c_distance best)
                     = false) prefix ->
    (c_distance best = JS.PosInf
     \/ exists v, point best = Some v
                  /\ c_distance best = haversineDistance position v) ->
    let c := closestLoop position suffix (List.length prefix) best in
    point c = nth_error (prefix ++ suffix) (index c)
    /\ Forall (fun v => JS.ltb (haversineDistance position v) (c_distance c)
                        = false) (prefix ++ suffix)
    /\ (c_distance c = JS.PosInf
        \/ exists v, point c = Some v
                     /\ c_distance c = haversineDistance position v).
Proof.
  induction suffix as [|v suffix IH]; intros prefix best Hp Hmin Hd;
    cbn [closestLoop].
  - rewrite app_nil_r in *. auto.
  - cbv zeta.
    replace (prefix ++ v :: suffix) with ((prefix ++ [v]) ++ suffix) in *
      by (rewrite <- app_assoc; reflexivity).
    replace (S (List.length prefix)) with (List.length (prefix ++ [v]))
      by (rewrite length_app; cbn; lia).
    destruct (JS.ltb (haversineDistance position v) (c_distance best)) eqn:L.
    + apply IH; cbn [point index c_distance].
      * rewrite nth_error_app1 by (rewrite length_app; cbn; lia).
        rewrite nth_error_app2 by lia. rewrite Nat.sub_diag. reflexivity.
      * apply Forall_app. split.
        -- eapply Forall_impl; [|exact Hmin]. intros a Ha. cbv beta in *.
           exact (not_ltb_below _ _ _ Ha L).
        -- constructor; [apply ltb_irrefl | constructor].
      * right. exists v. auto.
    + apply IH; [exact Hp | | exact Hd].
      apply Forall_app. split; [exact Hmin|].
      constructor; [exact L | constructor].
Qed.

(** X23.  [findClosestPointOnRoute] returns a vertex of the route with
    its index, and no vertex of the route is strictly nearer to the
    position than the distance it reports.  The distance is that of the
    vertex returned, unless no vertex has a distance below Infinity, in
    which case it is Infinity and the vertex is the first one. *)
Theorem findClosestPointOnRoute_nearest
        (position : LatLng) (routeCoords : list LatLng) :
  let c := findClosestPointOnRoute position routeCoords in
  point c = nth_error routeCoords (index c)
  /\ Forall (fun v => JS.ltb (haversineDistance position v) (c_distance c)
                      = false) routeCoords
  /\ ((c_distance c = JS.PosInf /\ index c = 0%nat)
      \/ exists v, point c = Some v
                   /\ c_distance c = haversineDistance position v).
Proof.
  cbv zeta. unfold findClosestPointOnRoute.
  destruct (@closestLoop_inv position routeCoords []
              (mkClosest (hd_error routeCoords) 0 JS.PosInf))
    as (H1 & H2 & H3).
  - cbn. destruct routeCoords; reflexivity.
  - constructor.
  - left. reflexivity.
  - cbn [List.length app] in *. split; [exact H1|]. split; [exact H2|].
    destruct H3 as [H3|H3]; [|right; exact H3].
    left. split; [exact H3|].
    clear H1 H2. revert H3.
    assert (Hgen : forall l i b,
               c_distance (closestLoop position l i b) = JS.PosInf ->
               index (closestLoop position l i b) = index b).
    { induction l as [|v l IHl]; intros i b Hinf; cbn [closestLoop] in *;
        [reflexivity|].
      cbv zeta in *.
      destruct (JS.ltb (haversineDistance position v) (c_distance b)) eqn:L.
      - exfalso.
        assert (Hmono : forall l' i' b',
                   JS.ltb (c_distance b') JS.PosInf = true ->
                   JS.ltb (c_distance (closestLoop position l' i' b'))
                          JS.PosInf = true).
        { induction l' as [|v' l' IHl']; intros i' b' Hb'; cbn [closestLoop];
            [exact Hb'|].
          cbv zeta.
          destruct (JS.ltb (haversineDistance position v') (c_distance b'))
            eqn:L'; apply IHl'; cbn [c_distance]; [|exact Hb'].
          exact (ltb_below_infinity _ _ L'). }
        specialize (Hmono l (S i)
                      (mkClosest (Some v) i (haversineDistance position v))).
        cbn [c_distance] in Hmono. rewrite Hinf in Hmono.
        assert (JS.ltb (haversineDistance position v) JS.PosInf = true).
        { exact (ltb_below_infinity _ _ L). }
        specialize (Hmono H). discriminate.
      - apply IHl. exact Hinf. }
    intro H. rewrite (Hgen _ _ _ H).
    reflexivity.
Qed.

End NavigationMore.

Section NavigationStats.
Import NavigationController.
Context {M : MathLib}.
Local Open Scope string_scope.
Local Open Scope list_scope.


(** X25.  [routeProgress] after [updateNavigationStats]: for a route whose
    recorded distance is a finite number other than 0, and a remaining
    distance that is a number, the progress is in [[0, 1]]. *)
Theorem routeProgress_in_unit_interval
        (hz : HazardService.Store) (s : Controller) (route : Route)
        (position : LatLng) (d : Q)
        (Hroute : currentRoute s = Some route)
        (Hposition : currentPosition s = Some position)
        (Hdistance : distance route = JS.Fin d) (Hnonzero : ~ d == 0)
        (Hremaining :
           JS.isNaN (remainingDistanceOf position (coordinates route)) = false) :
  exists x,
    routeProgress (navigationStats (updateNavigationStats hz s)) = Some x
    /\ JS.between (JS.of_Z 0) (JS.of_Z 1) x = true.
Proof.
  unfold updateNavigationStats. rewrite Hroute, Hposition. cbv zeta.
  eexists. split; [reflexivity|].
  apply progressOf_range. rewrite Hdistance.
  destruct (remainingDistanceOf position (coordinates route)) as [| | |r];
    try discriminate.
  - cbv beta iota delta [JS.div JS.sub JS.add JS.neg JS.of_Z].
    destruct (JS.Qltb d 0); reflexivity.
  - cbv beta iota delta [JS.div JS.sub JS.add JS.neg JS.of_Z].
    destruct (JS.Qltb d 0); reflexivity.
  - cbv beta iota delta [JS.div JS.sub JS.add JS.neg JS.of_Z].
    destruct (Qeq_bool d 0) eqn:E; [|reflexivity].
    apply Qeq_bool_iff in E. contradiction.
Qed.

(** X26.  Starting.  [startNavigation] stops a session that is under way
    first (the listeners hear [navigationStopped]), then sets destination
    and position, clears the reroute lock and asks for a route from the
    position to the destination.  If that fails, with an error or without
    a route, the session is not navigating and the listeners hear nothing
    more; if it yields a route, the session tracks that route and the
    listeners hear [navigationStarted] with it. *)
Theorem startNavigation_outcomes
        (hz hz' : HazardService.Store) (watch : option Z)
        (dest position : LatLng) (s : Controller) :
  let s1 := fst (startNavigation hz dest position s) in
  let k := InStartNavigation
             (mkRequest (Some position) (Some dest)
                        (HazardService.getAllHazards hz)) in
  snd (startNavigation hz dest position s) = Some k
  /\ notified s1
     = notified s ++ (if isNavigating s then [navigationStopped] else [])
  /\ isNavigating s1 = true /\ isRerouting s1 = false
  /\ destination s1 = Some dest /\ currentPosition s1 = Some position
  /\ (forall result,
         result = Rejected \/ result = Resolved None ->
         resume hz' watch k result s1 = set_isNavigating false s1)
  /\ (forall route,
         let s2 := resume hz' watch k (Resolved (Some route)) s1 in
         isNavigating s2 = true /\ currentRoute s2 = Some route
         /\ notified s2
            = notified s1 ++ [navigationStarted (Some route) (Some dest)]).
Proof.
  cbv zeta. unfold startNavigation. cbn [fst snd].
  split; [reflexivity|]. split.
  { destruct (isNavigating s); cbn; [reflexivity|].
    rewrite app_nil_r. reflexivity. }
  split; [reflexivity|]. split; [reflexivity|].
  split; [destruct (isNavigating s); reflexivity|].
  split; [destruct (isNavigating s); reflexivity|].
  split.
  - intros result [-> | ->]; reflexivity.
  - intro route. unfold resume.
    match goal with
    | |- context [updateNavigationStats ?h ?x] =>
        destruct (stats_keeps h x) as (Kn & Kd & _ & Kr & Ka & _)
    end.
    cbv zeta in *.
    destruct watch as [w|]; cbn [isNavigating currentRoute notified
                                  notifyListeners set_watchId destination];
      rewrite Kn, Kd, Kr, Ka; destruct (isNavigating s); repeat split.
Qed.

End NavigationStats.

(** ** Speed shown and speed limit *)

Section SpeedDisplay.
Context {M : MathLib}.

Lemma shown_speed_number (x : JS.num) :
  JS.isNaN x = false ->
  JS.isNaN (JS.div (JS.round (JS.mul (JS.mul x (JS.Fin 3.6)) (JS.of_Z 10)))
                   (JS.of_Z 10)) = false.
Proof. destruct x; intro H; try discriminate; reflexivity. Qed.

(** X27.  The speed the map component shows is always between 0 and
    120 km/h, whatever the sample and the previous sample carry (a
    negative, absurd, infinite or missing speed, NaN, timestamps out of
    order). *)
Theorem shown_speed_between_0_and_120
        (pos : PositionSample)
        (lastPos : option SmartRoadSafetyWithRouting.LastPos) :
  JS.between (JS.of_Z 0) (JS.of_Z 120)
             (snd (SmartRoadSafetyWithRouting.onSample pos lastPos)) = true.
Proof.
  unfold SmartRoadSafetyWithRouting.onSample. cbv zeta. cbn [snd].
  apply clamp_between; [reflexivity|].
  apply shown_speed_number.
  destruct (SmartRoadSafetyWithRouting.speedMS pos lastPos); [|reflexivity].
  apply or_else_not_nan. reflexivity.
Qed.

End SpeedDisplay.

(** X28.  The dynamic speed limit is at least 15 and never above the
    base limit of the zone (30 in a high-risk zone, else 40 in a
    medium-risk zone, else 60), whatever limit the weather recommends, as
    long as that is a number; without weather data it is the base
    limit. *)
Theorem getDynamicSpeedLimit_bounds
        (inHighRisk inMedRisk : bool) (weather : option SmartRoadSafetyWithRouting.Weather)
        (Hnumber : forall w l, weather = Some w ->
                               SmartRoadSafetyWithRouting.recommendedLimit w = Some l ->
                               JS.isNaN l = false) :
  let base := if inHighRisk then 30%Z else if inMedRisk then 40%Z else 60%Z in
  JS.between (JS.of_Z 15) (JS.of_Z base)
             (SmartRoadSafetyWithRouting.getDynamicSpeedLimit inHighRisk inMedRisk weather) = true
  /\ (weather = None ->
      JS.equiv (SmartRoadSafetyWithRouting.getDynamicSpeedLimit inHighRisk inMedRisk weather)
               (JS.of_Z base)).
Proof.
  cbv zeta. unfold SmartRoadSafetyWithRouting.getDynamicSpeedLimit. cbv zeta.
  set (base := if inHighRisk then 30%Z else if inMedRisk then 40%Z else 60%Z).
  assert (Eb : (if inHighRisk then JS.of_Z 30
                else if inMedRisk then JS.of_Z 40 else JS.of_Z 60)
               = JS.of_Z base).
  { subst base. destruct inHighRisk, inMedRisk; reflexivity. }
  rewrite Eb.
  assert (Hb : base = 30%Z \/ base = 40%Z \/ base = 60%Z).
  { subst base. destruct inHighRisk, inMedRisk; auto. }
  split.
  - set (wl := match weather with
               | Some w => match SmartRoadSafetyWithRouting.recommendedLimit w with
                           | Some l => l
                           | None => JS.of_Z 60
                           end
               | None => JS.of_Z 60
               end).
    assert (Hwl : JS.isNaN wl = false).
    { subst wl. destruct weather as [w|]; [|reflexivity].
      destruct (SmartRoadSafetyWithRouting.recommendedLimit w) as [l|] eqn:El; [|reflexivity].
      exact (Hnumber w l eq_refl El). }
    clearbody wl. unfold clamp, JS.between.
    destruct Hb as [-> | [-> | ->]];
      destruct wl as [| | |q]; try discriminate;
      cbv beta iota delta [JS.min JS.max JS.isNaN JS.ltb JS.leb JS.of_Z orb];
      repeat match goal with
             | |- context [JS.Qltb ?a ?b] =>
                 let C := fresh "C" in
                 destruct (JS.Qltb a b) eqn:C; cbv beta iota
             end;
      try reflexivity; q_props; unfold inject_Z in *;
      try (apply andb_true_iff; split); q_props; unfold inject_Z in *;
      try lra.
  - intros ->. destruct Hb as [-> | [-> | ->]]; vm_compute; reflexivity.
Qed.

Section ParseFacts.
Import RoutingService.
Local Open Scope string_scope.
Local Open Scope list_scope.

Lemma parseFeatures_nth (features : list Feature) :
  forall (index k : nat) (f : Feature),
    nth_error features k = Some f ->
    nth_error (parseFeatures index features) k
    = Some (parseFeature (index + k) f).
Proof.
  induction features as [|g gs IH]; intros index k f H.
  - destruct k; discriminate.
  - destruct k as [|k]; cbn [nth_error parseFeatures] in *.
    + injection H as ->. rewrite Nat.add_0_r. reflexivity.
    + rewrite (IH (S index) k f H). f_equal. f_equal. lia.
Qed.

Lemma parseFeatures_length (features : list Feature) :
  forall index,
    List.length (parseFeatures index features) = List.length features.
Proof.
  induction features as [|g gs IH]; intro index; cbn [parseFeatures List.length];
    [reflexivity|].
  rewrite IH. reflexivity.
Qed.

(** [x || 0] is [x], unless [x] is NaN or 0. *)
Lemma or_else_zero (x : JS.num) :
  JS.or_else x (JS.of_Z 0)
  = if JS.isNaN x || JS.eqb x (JS.of_Z 0) then JS.of_Z 0 else x.
Proof.
  destruct x as [| | |q]; try reflexivity.
  unfold JS.or_else, JS.truthy, JS.isNaN, JS.eqb, JS.of_Z. cbn [orb].
  change (inject_Z 0) with 0. destruct (Qeq_bool q 0); reflexivity.
Qed.

(** X29.  [parseORSResponse] gives one route per feature, in the order of
    the features.  The route of feature number [k] is called [route-k],
    has the feature's coordinates in their order with latitude and
    longitude taken from positions 1 and 0 of each pair, and score 0.  Its
    distance is the distance of the feature's first segment, and 0 where
    there is no first segment, where the segment has no distance, and
    where that distance is NaN or 0; likewise its duration; so both are
    numbers.  Its instructions are the steps of that segment, none where
    they are missing.  A response without a feature list gives no
    route. *)
Theorem parseORSResponse_routes (features : list Feature) :
  parseORSResponse None = []
  /\ List.length (parseORSResponse (Some features)) = List.length features
  /\ forall k f,
       nth_error features k = Some f ->
       exists r,
         nth_error (parseORSResponse (Some features)) k = Some r
         /\ r_id r = ("route-" ++ NilZero.string_of_uint (Nat.to_uint k))%string
         /\ coordinates r
            = map (fun c => mkLatLng (snd c) (fst c)) (f_coordinates f)
         /\ distance r
            = match segment0 f with
              | Some sg =>
                  match seg_distance sg with
                  | Some d =>
                      if JS.isNaN d || JS.eqb d (JS.of_Z 0) then JS.of_Z 0
                      else d
                  | None => JS.of_Z 0
                  end
              | None => JS.of_Z 0
              end
         /\ duration r
            = match segment0 f with
              | Some sg =>
                  match seg_duration sg with
                  | Some d =>
                      if JS.isNaN d || JS.eqb d (JS.of_Z 0) then JS.of_Z 0
                      else d
                  | None => JS.of_Z 0
                  end
              | None => JS.of_Z 0
              end
         /\ instructions r
            = match segment0 f with
              | Some sg => match steps sg with Some l => l | None => [] end
              | None => []
              end
         /\ JS.isNaN (distance r) = false
         /\ JS.isNaN (duration r) = false
         /\ safetyScore r = JS.of_Z 0.
Proof.
  split; [reflexivity|]. split; [apply parseFeatures_length|].
  intros k f H. exists (parseFeature k f). split.
  - unfold parseORSResponse. rewrite (parseFeatures_nth features 0 k H).
    reflexivity.
  - unfold parseFeature.
    cbn [r_id coordinates distance duration instructions safetyScore].
    repeat split.
    + destruct (segment0 f) as [sg|]; [|reflexivity].
      destruct (seg_distance sg); [|reflexivity]. apply or_else_zero.
    + destruct (segment0 f) as [sg|]; [|reflexivity].
      destruct (seg_duration sg); [|reflexivity]. apply or_else_zero.
    + destruct (segment0 f) as [sg|]; [|reflexivity].
      destruct (seg_distance sg); [|reflexivity].
      apply or_else_not_nan. reflexivity.
    + destruct (segment0 f) as [sg|]; [|reflexivity].
      destruct (seg_duration sg); [|reflexivity].
      apply or_else_not_nan. reflexivity.
Qed.

End ParseFacts.

Section AddOutcome.
Import HazardService.
Context {M : MathLib}.
Local Open Scope string_scope.
Local Open Scope list_scope.

(** X30.  [addHazard] is all or nothing.  When it returns null (a field
    missing, a Point out of range, a duplicate) the store is exactly as it
    was and the listeners hear nothing.  When it returns a hazard, that
    hazard has the draft's type and geometry and the time of the call, it
    is the last element of the hazard array, whose other elements are
    unchanged, and [hazardAdded] with it is the one notification sent. *)
Theorem addHazard_all_or_nothing
        (now : Z) (suffix : string) (draft : HazardDraft) (st : Store) :
  match addHazard now suffix draft st with
  | (None, st') => st' = st
  | (Some h, st') =>
      hazards st' = hazards st ++ [h]
      /\ notified st' = notified st ++ [hazardAdded h]
      /\ d_type draft = Some (type h)
      /\ d_geometry draft = Some (geometry h)
      /\ updatedAt (properties h) = now
      /\ id h = match d_id draft with
                | Some i => i
                | None => (type h ++ "-" ++ NilZero.string_of_int (Z.to_int now)
                           ++ "-" ++ suffix)%string
                end
  end.
Proof.
  destruct (addHazard now suffix draft st) as [[h|] st'] eqn:E.
  - destruct (addHazard_accepted _ _ _ _ E)
      as (ty & g & props & Hty & Hg & _ & <- & <- & Hup & _ & _ & ->).
    cbn [hazards notified]. repeat split; try assumption.
    revert E. unfold addHazard. rewrite Hty, Hg.
    destruct (d_properties draft); [|discriminate].
    repeat match goal with
           | |- (if ?c then _ else _) = _ -> _ => destruct c
           end; try discriminate.
    intro E. injection E as <- _. reflexivity.
  - revert E. unfold addHazard.
    destruct (d_type draft); [|congruence].
    destruct (d_geometry draft); [|congruence].
    destruct (d_properties draft); [|congruence].
    repeat match goal with
           | |- (if ?c then _ else _) = _ -> _ => destruct c
           end; congruence.
Qed.

End AddOutcome.

(** ** Further worked examples *)

Section SeparatedTest.
Import HazardService.
Context {M : MathLib}.

Lemma separatedFrom_sound (l seen : list Hazard) :
  separated seen -> separatedFrom seen l = true -> separated (seen ++ l).
Proof.
  revert seen. induction l as [|later rest IH]; intros seen Hseen Htest.
  - rewrite app_nil_r. exact Hseen.
  - cbn [separatedFrom] in Htest. apply andb_true_iff in Htest.
    destruct Htest as [Hnew Hrest]. apply negb_true_iff in Hnew.
    replace (seen ++ later :: rest) with ((seen ++ [later]) ++ rest)
      by (rewrite <- app_assoc; reflexivity).
    apply IH; [|exact Hrest].
    apply separated_snoc; assumption.
Qed.

End SeparatedTest.

Section MoreExamples.
Import HazardService RoutingService NavigationController Scenario.
#[local] Existing Instance ApproxMath.math.
Local Open Scope string_scope.
Local Open Scope list_scope.

Local Abbreviation store0 := (HazardService.initial t0).

(** The built-in hazards are separated, so every store that the service
    reaches from them is. *)
Lemma builtin_hazards_separated : separated (MOCK_HAZARDS t0).
Proof.
  apply (separatedFrom_sound (MOCK_HAZARDS t0) (seen := [])).
  - constructor.
  - vm_compute. reflexivity.
Qed.

Lemma addHazard_severity_between_1_and_3_witness :
  match addHazard t0 "k3x9q2m1z" potholeReport emptyStore with
  | (Some h, _) =>
      JS.between (JS.of_Z 1) (JS.of_Z 3) (severity (properties h)) = true
  | (None, _) => False
  end.
Proof.
  destruct (addHazard t0 "k3x9q2m1z" potholeReport emptyStore)
    as [[h|] st'] eqn:E.
  - exact (addHazard_severity_between_1_and_3 _ _ _ _ E).
  - vm_compute in E. discriminate E.
Defined.

Lemma addHazard_stored_point_in_range_witness :
  match addHazard t0 "k3x9q2m1z" potholeReport emptyStore with
  | (Some h, _) =>
      geometry h = Point (JS.Fin 72.9000, JS.Fin 19.1000)
      /\ JS.between (JS.of_Z (-180)) (JS.of_Z 180) (JS.Fin 72.9000) = true
      /\ JS.between (JS.of_Z (-90)) (JS.of_Z 90) (JS.Fin 19.1000) = true
  | (None, _) => False
  end.
Proof.
  destruct (addHazard t0 "k3x9q2m1z" potholeReport emptyStore)
    as [[h|] st'] eqn:E.
  - assert (Hg : geometry h = Point (JS.Fin 72.9000, JS.Fin 19.1000)).
    { vm_compute in E. injection E as <- _. reflexivity. }
    split; [exact Hg|].
    exact (addHazard_stored_point_in_range _ _ _ _ E Hg).
  - vm_compute in E. discriminate E.
Defined.

Lemma store_stays_separated_witness :
  separated (hazards store0)
  /\ separated (hazards (snd (addHazard (t0 + 1000) "k3x9q2m1z"
                                        potholeReport store0)))
  /\ separated (hazards (snd (removeHazard "acc-2" store0)))
  /\ separated (hazards (expirySweep (t0 + 300000) store0)).
Proof.
  pose proof builtin_hazards_separated as Hsep.
  destruct (store_stays_separated store0 Hsep) as (Hadd & Hremove & Hsweep).
  split; [exact Hsep|]. split; [apply Hadd|].
  split; [apply Hremove | apply Hsweep].
Defined.

Lemma add_then_remove_restores_witness :
  match addHazard t0 "k3x9q2m1z" potholeReport emptyStore with
  | (Some h, st') =>
      Forall (fun e => id e <> id h) (hazards emptyStore)
      /\ removeHazard (id h) st'
         = (Some h, mkStore [] [hazardAdded h; hazardRemoved h])
  | (None, _) => False
  end.
Proof.
  destruct (addHazard t0 "k3x9q2m1z" potholeReport emptyStore)
    as [[h|] st'] eqn:E.
  - assert (Hfresh : Forall (fun e => id e <> id h) (hazards emptyStore))
      by constructor.
    split; [exact Hfresh|].
    exact (add_then_remove_restores _ _ _ _ E Hfresh).
  - vm_compute in E. discriminate E.
Defined.

Lemma removeHazard_unknown_id_witness :
  Forall (fun h => id h <> "acc-9") (hazards store0)
  /\ removeHazard "acc-9" store0 = (None, store0).
Proof.
  assert (H : Forall (fun h => id h <> "acc-9") (hazards store0))
    by (repeat constructor; discriminate).
  split; [exact H|].
  exact (proj1 (removeHazard_unknown_id "acc-9" store0) H).
Defined.

Lemma removeHazard_removes_first_match_witness :
  match removeHazard "acc-2" store0 with
  | (Some removed, st') =>
      id removed = "acc-2"
      /\ List.length (hazards st') = 10%nat
      /\ HazardService.notified st' = [hazardRemoved removed]
  | (None, _) => False
  end.
Proof.
  destruct (removeHazard "acc-2" store0) as [[removed|] st'] eqn:E.
  - destruct (removeHazard_removes_first_match _ _ E)
      as (before & after & Hst & Hst' & Hid & _ & Hn).
    split; [exact Hid|]. split; [|exact Hn].
    apply (f_equal (@List.length Hazard)) in Hst.
    rewrite Hst'. rewrite !length_app in *. cbn [List.length] in Hst.
    change (List.length (hazards store0)) with 11%nat in Hst. lia.
  - vm_compute in E. discriminate E.
Defined.

Lemma expirySweep_later_absorbs_earlier_witness :
  (t0 + 60000 <= t0 + 400000)%Z
  /\ expirySweep (t0 + 400000) (expirySweep (t0 + 60000) store0)
     = expirySweep (t0 + 400000) store0.
Proof.
  assert (H : (t0 + 60000 <= t0 + 400000)%Z) by (vm_compute; discriminate).
  split; [exact H|].
  exact (expirySweep_later_absorbs_earlier store0 H).
Defined.

Lemma getHazardsWithinRadius_monotone_witness :
  JS.leb (JS.of_Z 500) (JS.of_Z 1000) = true
  /\ incl (getHazardsWithinRadius store0 mumbaiCentre (JS.of_Z 500))
          (getHazardsWithinRadius store0 mumbaiCentre (JS.of_Z 1000)).
Proof.
  assert (H : JS.leb (JS.of_Z 500) (JS.of_Z 1000) = true) by reflexivity.
  split; [exact H|].
  exact (proj1 (getHazardsWithinRadius_monotone store0 mumbaiCentre _ _ H)).
Defined.

Lemma getRouteOptions_cache_witness :
  match getRouteOptions [] mumbaiCentre sion directAnswer with
  | Some (routes, cache', _) =>
      getRouteOptions cache' mumbaiCentre sion ProviderError
      = Some (routes, cache', true)
  | None => False
  end.
Proof.
  destruct (getRouteOptions [] mumbaiCentre sion directAnswer)
    as [[[routes cache'] shared]|] eqn:E.
  - destruct (getRouteOptions_cache _ _ _ _ E) as (_ & Hsame & _).
    exact (proj2 (Hsame _ eq_refl) ProviderError).
  - vm_compute in E. discriminate E.
Defined.

Lemma getBestRoute_returns_scored_candidate_witness :
  match getBestRoute [] mumbaiCentre sion [acc1] directAnswer with
  | Some (Some best, _) =>
      safetyScore best = calculateSafetyScore best [acc1]
  | _ => False
  end.
Proof.
  destruct (getBestRoute [] mumbaiCentre sion [acc1] directAnswer)
    as [[[best|] cache']|] eqn:E.
  - destruct (getBestRoute_returns_scored_candidate _ _ _ _ _ E)
      as (_ & _ & _ & _ & _ & _ & _ & Hscore).
    exact Hscore.
  - vm_compute in E. discriminate E.
  - vm_compute in E. discriminate E.
Defined.

Lemma getBestRoute_two_candidates_witness :
  cacheGet (cacheKey mumbaiCentre sion) bothWaysCached
  = Some [directRoute; detourRoute]
  /\ Qabs (inject_Z 0 - inject_Z 0) < 5
  /\ option_map fst (getBestRoute bothWaysCached mumbaiCentre sion []
                                  ProviderError)
     = Some (Some directRoute).
Proof.
  assert (Hc : cacheGet (cacheKey mumbaiCentre sion) bothWaysCached
               = Some [directRoute; detourRoute])
    by (vm_compute; reflexivity).
  assert (Hq : Qabs (inject_Z 0 - inject_Z 0) < 5) by reflexivity.
  split; [exact Hc|]. split; [exact Hq|].
  destruct (@getBestRoute_two_candidates _ bothWaysCached mumbaiCentre sion
              [] ProviderError directRoute detourRoute
              (inject_Z 0) (inject_Z 0) Hc eq_refl eq_refl eq_refl eq_refl)
    as (_ & _ & Hnear).
  exact (Hnear Hq).
Defined.

Lemma pointInPolygon_rectangle_witness :
  72.8600 <= 72.8700 /\ 19.0400 <= 19.0500
  /\ pointInPolygon sion
       [mkLatLng (JS.Fin 19.0400) (JS.Fin 72.8600);
        mkLatLng (JS.Fin 19.0400) (JS.Fin 72.8700);
        mkLatLng (JS.Fin 19.0500) (JS.Fin 72.8700);
        mkLatLng (JS.Fin 19.0500) (JS.Fin 72.8600);
        mkLatLng (JS.Fin 19.0400) (JS.Fin 72.8600)] = true.
Proof.
  assert (H1 : 72.8600 <= 72.8700) by discriminate.
  assert (H2 : 19.0400 <= 19.0500) by discriminate.
  split; [exact H1|]. split; [exact H2|].
  unfold sion.
  rewrite (pointInPolygon_rectangle 72.8649 19.0436 H1 H2).
  reflexivity.
Defined.

Lemma arrival_stops_navigation_witness :
  JS.ltb (haversineDistance sion sion) (JS.of_Z 50) = true
  /\ snd (handlePositionUpdate emptyStore (t0 + 2000) sion active) = None
  /\ NavigationController.notified
       (fst (handlePositionUpdate emptyStore (t0 + 2000) sion active))
     = NavigationController.notified active
       ++ [destinationReached (Some sion) (Some sion); navigationStopped].
Proof.
  assert (Hnear : JS.ltb (haversineDistance sion sion) (JS.of_Z 50) = true)
    by (vm_compute; reflexivity).
  assert (Hdone : snd (handlePositionUpdate emptyStore (t0 + 2000) sion active)
                  = None)
    by (vm_compute; reflexivity).
  split; [exact Hnear|]. split; [exact Hdone|].
  exact (proj1 (@arrival_stops_navigation _ emptyStore (t0 + 2000) sion sion
                  active directRoute eq_refl eq_refl eq_refl Hnear Hdone)).
Defined.

Lemma reroute_settled_releases_lock_witness :
  isReroute (InForceReroute (mkRequest (Some offRoute) (Some sion) [])) = true
  /\ isRerouting
       (resume emptyStore None
               (InForceReroute (mkRequest (Some offRoute) (Some sion) []))
               Rejected (set_isRerouting true active)) = false.
Proof.
  split; [reflexivity|].
  exact (reroute_settled_releases_lock emptyStore None
           (InForceReroute (mkRequest (Some offRoute) (Some sion) []))
           Rejected (set_isRerouting true active) eq_refl).
Defined.

Lemma failed_reroute_keeps_route_witness :
  resume emptyStore None
         (InForceReroute (mkRequest (Some offRoute) (Some sion) []))
         Rejected (set_isRerouting true active)
  = active.
Proof.
  destruct (failed_reroute_keeps_route emptyStore None
              (InForceReroute (mkRequest (Some offRoute) (Some sion) []))
              (set_isRerouting true active) eq_refl (or_introl eq_refl))
    as (_ & Hmanual & _).
  rewrite (Hmanual _ eq_refl). reflexivity.
Defined.

Lemma routeProgress_in_unit_interval_witness :
  JS.isNaN (remainingDistanceOf mumbaiCentre (coordinates directRoute)) = false
  /\ exists x,
       routeProgress (navigationStats (updateNavigationStats emptyStore active))
       = Some x
       /\ JS.between (JS.of_Z 0) (JS.of_Z 1) x = true.
Proof.
  assert (Hrem : JS.isNaN (remainingDistanceOf mumbaiCentre
                                               (coordinates directRoute))
                 = false)
    by (vm_compute; reflexivity).
  split; [exact Hrem|].
  apply (@routeProgress_in_unit_interval _ emptyStore active directRoute
           mumbaiCentre (inject_Z 3846) eq_refl eq_refl eq_refl);
    [discriminate | exact Hrem].
Defined.

Lemma getDynamicSpeedLimit_bounds_witness :
  JS.between (JS.of_Z 15) (JS.of_Z 40)
             (SmartRoadSafetyWithRouting.getDynamicSpeedLimit
                false true (Some fog)) = true.
Proof.
  assert (Hnumber : forall w l,
             Some fog = Some w ->
             SmartRoadSafetyWithRouting.recommendedLimit w = Some l ->
             JS.isNaN l = false).
  { intros w l Hw Hl. injection Hw as <-. injection Hl as <-. reflexivity. }
  exact (proj1 (getDynamicSpeedLimit_bounds false true Hnumber)).
Defined.

Lemma calculateSafetyScore_finite_and_monotone_witness :
  (exists score score',
      calculateSafetyScore directRoute [acc1] = JS.Fin score
      /\ calculateSafetyScore directRoute ([acc1] ++ [acc1]) = JS.Fin score'
      /\ 0 <= score /\ score <= score')
  /\ calculateSafetyScore directRoute ([acc1] ++ [oddlyNamed]) = JS.NaN.
Proof.
  split.
  - apply (proj1 (calculateSafetyScore_finite_and_monotone
                    directRoute [acc1] [acc1])).
    repeat constructor.
  - apply (proj2 (calculateSafetyScore_finite_and_monotone
                    directRoute [acc1] []) oddlyNamed _ eq_refl eq_refl).
    vm_compute. reflexivity.
Defined.


End MoreExamples.
